(** * Fast-food loyalty backend

    A shallow embedding of the backend's business core: the points
    helpers of [utils/points.ts], the purchase, coupon and customer
    controllers, and the route table that guards them.  JavaScript
    numbers are IEEE-754 binary64 values (the standard library's
    [SpecFloat]), the relational store is a record of finite maps indexed
    by each table's unique lookup column, and every controller is a
    function from a store to a response and a store. *)

From Stdlib Require Import ZArith Lia String Ascii SpecFloat DecimalString DecimalPos.
From stdpp Require Import gmap strings list sorting.

Local Open Scope string_scope.
Local Open Scope Z_scope.

(** ** JavaScript values used by the backend *)

Module Js.

(** Binary64: 53 bits of precision, infinities at exponent 1024. *)
Definition prec : Z := 53.
Definition emax : Z := 1024.

Abbreviation number := spec_float.

Definition NaN : number := S754_nan.

(** An integer literal, or the conversion of an integer to a number
    (rounded to nearest even when it needs more than 53 bits). *)
Definition of_Z (z : Z) : number := binary_normalize prec emax z 0 false.

Definition add : number -> number -> number := SFadd prec emax.
Definition mul : number -> number -> number := SFmul prec emax.
Definition div : number -> number -> number := SFdiv prec emax.

(** [Math.floor]: NaN, the infinities, the zeros and values without a
    fractional part are returned as they are. *)
Definition Math_floor (x : number) : number :=
  match x with
  | S754_finite s m e =>
      if 0 <=? e then x
      else binary_normalize prec emax (Z.shiftr (cond_Zopp s (Zpos m)) (- e)) 0 s
  | _ => x
  end.

(** The integer a number stands for, when it is one.  This is what an
    integer column of the store accepts. *)
Definition to_Z (x : number) : option Z :=
  match x with
  | S754_zero _ => Some 0
  | S754_finite s m e =>
      if 0 <=? e then Some (cond_Zopp s (Zpos m * 2 ^ e))
      else if Zpos m mod 2 ^ (- e) =? 0 then Some (cond_Zopp s (Zpos m / 2 ^ (- e)))
      else None
  | _ => None
  end.

(** Truthiness of a number: everything but the zeros and NaN. *)
Definition truthy (x : number) : bool :=
  match x with
  | S754_zero _ | S754_nan => false
  | _ => true
  end.

(** The result of reading a property of an object whose own properties
    are numbers: a number, [undefined], or a function or object
    inherited from [Object.prototype]. *)
Inductive value :=
| Undefined
| Number (x : number)
| Inherited.

(** Property names every object literal inherits. *)
Definition Object_prototype : list string :=
  [ "constructor"; "toString"; "toLocaleString"; "valueOf";
    "hasOwnProperty"; "isPrototypeOf"; "propertyIsEnumerable";
    "__proto__"; "__defineGetter__"; "__defineSetter__";
    "__lookupGetter__"; "__lookupSetter__" ].

(** [o[key]] *)
Definition get (o : gmap string number) (key : string) : value :=
  match o !! key with
  | Some x => Number x
  | None => if bool_decide (key ∈ Object_prototype) then Inherited else Undefined
  end.

(** [v || d] *)
Definition or_else (v : value) (d : number) : value :=
  match v with
  | Undefined => Number d
  | Number x => if truthy x then v else Number d
  | Inherited => v
  end.

(** [x * v]: a function or a plain object converts to NaN. *)
Definition times (x : number) (v : value) : number :=
  match v with
  | Number y => mul x y
  | Undefined | Inherited => NaN
  end.

(** Decimal rendering of an integer. *)
Definition String_of_Z (z : Z) : string := NilZero.string_of_int (Z.to_int z).

(** [String(x)] for the numbers the identifier helpers produce: NaN,
    the infinities and integral values.  JavaScript switches to
    exponent notation from 10^21 on and prints a fraction for other
    values; neither occurs at a call site of this backend, and a
    fractional value is rendered empty here. *)
Definition String_of_number (x : number) : string :=
  match x with
  | S754_nan => "NaN"
  | S754_infinity false => "Infinity"
  | S754_infinity true => "-Infinity"
  | _ => match to_Z x with
         | Some z => String_of_Z z
         | None => ""
         end
  end.

Fixpoint repeat_char (c : ascii) (n : nat) : string :=
  match n with
  | O => EmptyString
  | S n' => String c (repeat_char c n')
  end.

(** [s.padStart(n, c)] for a one-character filler. *)
Definition padStart (n : nat) (c : ascii) (s : string) : string :=
  repeat_char c (n - String.length s) ++ s.

(** [s.split(sep)] for a one-character separator. *)
Fixpoint split (sep : ascii) (s : string) : list string :=
  match s with
  | EmptyString => [EmptyString]
  | String c s' =>
      if Ascii.eqb c sep then EmptyString :: split sep s'
      else match split sep s' with
           | h :: t => String c h :: t
           | [] => [String c EmptyString]
           end
  end.

(** [s.replace(pat, "")]: the first occurrence of [pat] is removed. *)
Fixpoint remove_first (pat s : string) : string :=
  if String.prefix pat s then substring (String.length pat) (String.length s) s
  else match s with
       | EmptyString => EmptyString
       | String c s' => String c (remove_first pat s')
       end.

(** ASCII white space skipped by [parseInt]. *)
Definition is_space (c : ascii) : bool :=
  let n := N_of_ascii c in
  (((9 <=? n) && (n <=? 13)) || (n =? 32))%N.

Fixpoint trim_start (s : string) : string :=
  match s with
  | String c s' => if is_space c then trim_start s' else s
  | EmptyString => s
  end.

Definition digit_value (c : ascii) : option Z :=
  let n := Z.of_N (N_of_ascii c) in
  if (48 <=? n) && (n <=? 57) then Some (n - 48)
  else if (97 <=? n) && (n <=? 122) then Some (n - 87)
  else if (65 <=? n) && (n <=? 90) then Some (n - 55)
  else None.

(** Value of the longest prefix of radix digits; [None] when there is
    no digit. *)
Fixpoint digits_prefix (radix : Z) (s : string) (acc : option Z) : option Z :=
  match s with
  | EmptyString => acc
  | String c s' =>
      match digit_value c with
      | Some d =>
          if d <? radix then digits_prefix radix s' (Some (radix * default 0 acc + d))
          else acc
      | None => acc
      end
  end.

(** [parseInt(s)] without a radix argument: leading white space, an
    optional sign, an optional [0x] prefix, then the longest run of
    digits; NaN when there is none. *)
Definition parseInt (s : string) : number :=
  let s := trim_start s in
  let '(neg, s) :=
    match s with
    | String "-" s' => (true, s')
    | String "+" s' => (false, s')
    | _ => (false, s)
    end in
  let '(radix, s) :=
    match s with
    | String "0" (String "x" s') => (16, s')
    | String "0" (String "X" s') => (16, s')
    | _ => (10, s)
    end in
  match digits_prefix radix s None with
  | None => NaN
  | Some v => if (neg : bool) then SFopp (of_Z v) else of_Z v
  end.

(** [parseInt(a[i])]: a missing element is [undefined], which
    [parseInt] reads as the text "undefined". *)
Definition parseInt_nth (a : list string) (i : nat) : number :=
  match nth_error a i with
  | Some s => parseInt s
  | None => parseInt "undefined"
  end.

End Js.

(** ** Clock, randomness and identifiers supplied to one request *)

Record Env := {
  now : Z;          (* Date.now(), also the store's default timestamp *)
  year : Z;         (* new Date().getFullYear() *)
  rand1000 : Z;     (* Math.floor(Math.random() * 1000) *)
  randPin : Z;      (* Math.floor(10000000 + Math.random() * 90000000) *)
  newId : string;   (* identifier the store gives to a created row *)
}.

(** ** utils/points.ts *)

(** The decimal literals [1.1], [1.4], [1.7], [1.0] and [100] of the
    source: each is the double nearest to the decimal it is written
    as. *)
Definition lit_1_1 : Js.number := Eval vm_compute in Js.div (Js.of_Z 11) (Js.of_Z 10).
Definition lit_1_4 : Js.number := Eval vm_compute in Js.div (Js.of_Z 14) (Js.of_Z 10).
Definition lit_1_7 : Js.number := Eval vm_compute in Js.div (Js.of_Z 17) (Js.of_Z 10).
Definition lit_1_0 : Js.number := Eval vm_compute in Js.of_Z 1.
Definition lit_100 : Js.number := Eval vm_compute in Js.of_Z 100.

(** The own properties of the object literal [multipliers]. *)
Definition multipliers : gmap string Js.number :=
  list_to_map
    [ ("NORMAL", lit_1_1); ("LOYAL", lit_1_4); ("OWNER", lit_1_7); ("ADMIN", lit_1_0) ].

(** [Math.floor(basePoints * (multipliers[role] || 1.0))] with
    [basePoints = Math.floor(amount / 100)]. *)
Definition calculatePoints (amount : Js.number) (role : string) : Js.number :=
  let basePoints := Js.Math_floor (Js.div amount lit_100) in
  Js.Math_floor (Js.times basePoints (Js.or_else (Js.get multipliers role) lit_1_0)).

(** [`CUST${String(lastId + 1).padStart(3, '0')}`] *)
Definition generateLoyaltyId (lastId : Js.number) : string :=
  "CUST" ++ Js.padStart 3 "0" (Js.String_of_number (Js.add lastId (Js.of_Z 1))).

(** [Math.floor(10000000 + Math.random() * 90000000).toString()] *)
Definition generatePinCode (env : Env) : string :=
  Js.String_of_Z (randPin env).

(** [`COUP-${year}-${String(lastId + 1).padStart(3, '0')}`]; the year
    is read from the clock of the request. *)
Definition generateCouponCode (env : Env) (lastId : Js.number) : string :=
  "COUP-" ++ Js.String_of_Z (year env) ++ "-"
  ++ Js.padStart 3 "0" (Js.String_of_number (Js.add lastId (Js.of_Z 1))).

(** [`RCP-${timestamp}-${random}`] *)
Definition generateReceiptNumber (env : Env) : string :=
  "RCP-" ++ Js.String_of_Z (now env) ++ "-" ++ Js.String_of_Z (rand1000 env).

(** ** The relational store *)

(** Modelled from the spec: [prisma/schema.prisma] is not part of the
    sources.  The data model makes [role] an enumerated variant, gives a
    new customer zero points, spending and visits, makes [points],
    [visitCount] and [pointsEarned] integers, starts a coupon
    unredeemed, and puts a uniqueness constraint on customer ids,
    [loyaltyId], [email] and the coupon [code].  A write that breaks a
    constraint, names a missing row or carries a value of the wrong type
    is refused; the controller's [catch] then answers 500 and nothing is
    written. *)
Inductive Role := NORMAL | LOYAL | OWNER | ADMIN.

Definition Role_name (r : Role) : string :=
  match r with
  | NORMAL => "NORMAL"
  | LOYAL => "LOYAL"
  | OWNER => "OWNER"
  | ADMIN => "ADMIN"
  end.

Definition Role_of_name (s : string) : option Role :=
  if String.eqb s "NORMAL" then Some NORMAL
  else if String.eqb s "LOYAL" then Some LOYAL
  else if String.eqb s "OWNER" then Some OWNER
  else if String.eqb s "ADMIN" then Some ADMIN
  else None.

(** A customer row; the table is indexed by [id]. *)
Record Customer := {
  loyaltyId : string;
  name : string;
  email : string;
  phone : string;
  pinCode : string;
  points : Z;
  totalSpent : Z;
  visitCount : Z;
  role : Role;
  createdAt : Z;
}.

Record Purchase := {
  purchaseId : string;
  purchaseCustomer : string;
  amount : Z;
  pointsEarned : Z;
  receiptNumber : string;
  timestamp : Z;
}.

(** A coupon row; the table is indexed by [code]. *)
Record Coupon := {
  couponId : string;
  couponCustomer : string;
  value : Z;
  couponCreatedAt : Z;
  redeemed : bool;
  redeemedAt : option Z;
}.

Record Store := {
  customers : gmap string Customer;
  purchases : list Purchase;
  coupons : gmap string Coupon;
}.

(** [findFirst({ orderBy: { col: 'desc' } })]: the row whose column is
    last in string order. *)
Definition findLast {A} (col : A -> string) (rows : list A) : option A :=
  foldr (fun r acc =>
           match acc with
           | None => Some r
           | Some best => if String.ltb (col best) (col r) then Some r else Some best
           end) None rows.

Definition lastCoupon (st : Store) : option (string * Coupon) :=
  findLast fst (map_to_list (coupons st)).

Definition lastCustomer (st : Store) : option (string * Customer) :=
  findLast (fun kc => loyaltyId (snd kc))
    (filter (fun kc => String.prefix "CUST" (loyaltyId (snd kc)) = true)
       (map_to_list (customers st))).

(** [findUnique({ where: { email } })] *)
Definition customerByEmail (st : Store) (e : string) : option (string * Customer) :=
  List.find (fun kc => String.eqb (email (snd kc)) e) (map_to_list (customers st)).

Definition customerByLoyaltyId (st : Store) (l : string) : option (string * Customer) :=
  List.find (fun kc => String.eqb (loyaltyId (snd kc)) l) (map_to_list (customers st)).

(** Does another row than [id] already hold this email? *)
Definition emailTakenByOther (st : Store) (id e : string) : bool :=
  existsb (fun kc => String.eqb (email (snd kc)) e && negb (String.eqb (fst kc) id))
    (map_to_list (customers st)).

(** ** Requests and responses *)

(** [req.user], as put there by the [authenticate] middleware. *)
Record User := {
  userId : string;
  userLoyaltyId : string;
  userRole : string;
}.

(** The body of [POST /customers]. *)
Record CreateCustomerBody := {
  newName : string;
  newEmail : string;
  newPhone : string;
  newPinCode : option string;
}.

(** The body of [PUT /customers/:id] when it has no other keys than
    the five [updateCustomerSchema] knows; each may be absent.  The
    [validate] middleware checks the body and passes it on as it
    arrived, and [updateCustomer] hands it to the store whole, so a
    body with further keys would have them written as well: such
    bodies are not represented, and what is proved of an update is
    proved of the bodies with these five keys only. *)
Record UpdateCustomerBody := {
  setName : option string;
  setEmail : option string;
  setPhone : option string;
  setPoints : option Z;
  setRole : option string;
}.

(** The body of [POST /purchases]: [customerId], [amount] and the
    optional [receiptNumber].  Amounts are whole currency units, as
    section 6 of the specification has them and as every amount of the
    seed is; [createPurchaseSchema] would let a fraction through as
    well, which is not represented. *)
Record CreatePurchaseBody := {
  forCustomer : string;
  paid : Z;
  receipt : option string;
}.

(** What a controller passes to [res.json]. *)
Inductive Json :=
| ErrorJson (error : string)
| CustomerJson (id : string) (c : Customer) (pin : option string)
| PurchaseJson (p : Purchase) (newPoints newVisitCount : Z) (newRole : Role)
| CouponJson (code : string) (c : Coupon)
| MessageJson (message : string).

Record Response := {
  status : Z;
  json : Json;
}.

Definition respond (code : Z) (j : Json) : Response := {| status := code; json := j |}.

Definition AccessDenied := respond 403 (ErrorJson "Access denied").
Definition OnlyAdminCanChangeRole := respond 403 (ErrorJson "Only admin can change role").
Definition CustomerNotFound := respond 404 (ErrorJson "Customer not found").
Definition CouponNotFound := respond 404 (ErrorJson "Coupon not found").
Definition InsufficientPoints :=
  respond 400 (ErrorJson "Not enough points. Need 100 points to create a coupon.").
Definition AlreadyRedeemed := respond 400 (ErrorJson "Coupon already redeemed").
Definition EmailAlreadyRegistered := respond 400 (ErrorJson "Email already registered").
Definition ValidationFailed := respond 400 (ErrorJson "Validation failed").
Definition InternalServerError := respond 500 (ErrorJson "Internal server error").

(** ** controllers/purchaseController.ts *)

(** The role written by [createPurchase], lines 40-42: the inline
    [visitCount + 1 >= 50 ? 'OWNER' : visitCount + 1 >= 20 ? 'LOYAL' :
    customer.role], with [newVisitCount] standing for
    [customer.visitCount + 1]. *)
Definition roleAfterVisit (currentRole : Role) (newVisitCount : Z) : Role :=
  if 50 <=? newVisitCount then OWNER
  else if 20 <=? newVisitCount then LOYAL
  else currentRole.

(** [receiptNumber || generateReceiptNumber()] *)
Definition receiptOrGenerated (env : Env) (r : option string) : string :=
  match r with
  | Some s => if String.eqb s "" then generateReceiptNumber env else s
  | None => generateReceiptNumber env
  end.

(** [createPurchase], lines 6-68.  The purchase insert and the customer
    update are one transaction; a [pointsEarned] that is not an integer
    is refused by the store. *)
Definition createPurchase (env : Env) (body : CreatePurchaseBody) (st : Store)
  : Response * Store :=
  match customers st !! forCustomer body with
  | None => (CustomerNotFound, st)
  | Some customer =>
      let earned := calculatePoints (Js.of_Z (paid body)) (Role_name (role customer)) in
      let rcpt := receiptOrGenerated env (receipt body) in
      match Js.to_Z earned with
      | None => (InternalServerError, st)
      | Some pts =>
          let purchase :=
            {| purchaseId := newId env;
               purchaseCustomer := forCustomer body;
               amount := paid body;
               pointsEarned := pts;
               receiptNumber := rcpt;
               timestamp := now env |} in
          let updatedCustomer :=
            {| loyaltyId := loyaltyId customer;
               name := name customer;
               email := email customer;
               phone := phone customer;
               pinCode := pinCode customer;
               points := points customer + pts;
               totalSpent := totalSpent customer + paid body;
               visitCount := visitCount customer + 1;
               role := roleAfterVisit (role customer) (visitCount customer + 1);
               createdAt := createdAt customer |} in
          (respond 201
             (PurchaseJson purchase (points updatedCustomer)
                (visitCount updatedCustomer) (role updatedCustomer)),
           {| customers := <[forCustomer body := updatedCustomer]> (customers st);
              purchases := purchase :: purchases st;
              coupons := coupons st |})
      end
  end.

(** ** controllers/couponController.ts *)

(** [lastCoupon ? parseInt(lastCoupon.code.split('-')[2]) : 0] *)
Definition lastCouponNumber (st : Store) : Js.number :=
  match lastCoupon st with
  | Some (code, _) => Js.parseInt_nth (Js.split "-" code) 2
  | None => Js.of_Z 0
  end.

(** The row with its balance replaced. *)
Definition withPoints (c : Customer) (p : Z) : Customer :=
  {| loyaltyId := loyaltyId c; name := name c; email := email c; phone := phone c;
     pinCode := pinCode c; points := p; totalSpent := totalSpent c;
     visitCount := visitCount c; role := role c; createdAt := createdAt c |}.

(** [createCoupon], lines 6-65.  The insert of the coupon and the
    decrement of the balance are one transaction; a code that is already
    in the table is refused by the store. *)
Definition createCoupon (env : Env) (user : User) (customerId : string) (st : Store)
  : Response * Store :=
  if negb (String.eqb (userRole user) "ADMIN") && negb (String.eqb (userId user) customerId)
  then (AccessDenied, st)
  else
    match customers st !! customerId with
    | None => (CustomerNotFound, st)
    | Some customer =>
        if points customer <? 100 then (InsufficientPoints, st)
        else
          let couponCode := generateCouponCode env (lastCouponNumber st) in
          match coupons st !! couponCode with
          | Some _ => (InternalServerError, st)
          | None =>
              let coupon :=
                {| couponId := newId env;
                   couponCustomer := customerId;
                   value := 1000;
                   couponCreatedAt := now env;
                   redeemed := false;
                   redeemedAt := None |} in
              (respond 201 (CouponJson couponCode coupon),
               {| customers :=
                    <[customerId := withPoints customer (points customer - 100)]>
                      (customers st);
                  purchases := purchases st;
                  coupons := <[couponCode := coupon]> (coupons st) |})
          end
    end.

(** [redeemCoupon], lines 119-151. *)
Definition redeemCoupon (env : Env) (code : string) (st : Store) : Response * Store :=
  match coupons st !! code with
  | None => (CouponNotFound, st)
  | Some coupon =>
      if redeemed coupon then (AlreadyRedeemed, st)
      else
        let updatedCoupon :=
          {| couponId := couponId coupon;
             couponCustomer := couponCustomer coupon;
             value := value coupon;
             couponCreatedAt := couponCreatedAt coupon;
             redeemed := true;
             redeemedAt := Some (now env) |} in
        (respond 200 (CouponJson code updatedCoupon),
         {| customers := customers st;
            purchases := purchases st;
            coupons := <[code := updatedCoupon]> (coupons st) |})
  end.

(** ** controllers/customerController.ts, middleware and routes *)

Section Backend.

(** [utils/password.ts] (bcrypt) and zod's email check are outside the
    sources; the backend is read for any choice of them. *)
Variable hashPassword : string -> string.
Variable isEmail : string -> bool.

(** [lastCustomer ? parseInt(lastCustomer.loyaltyId.replace('CUST', '')) : 0] *)
Definition lastCustomerNumber (st : Store) : Js.number :=
  match lastCustomer st with
  | Some (_, c) => Js.parseInt (Js.remove_first "CUST" (loyaltyId c))
  | None => Js.of_Z 0
  end.

(** [pinCode || generatePinCode()] *)
Definition pinOrGenerated (env : Env) (p : option string) : string :=
  match p with
  | Some s => if String.eqb s "" then generatePinCode env else s
  | None => generatePinCode env
  end.

(** [createCustomer], lines 71-131. *)
Definition createCustomer (env : Env) (body : CreateCustomerBody) (st : Store)
  : Response * Store :=
  match customerByEmail st (newEmail body) with
  | Some _ => (EmailAlreadyRegistered, st)
  | None =>
      let newLoyaltyId := generateLoyaltyId (lastCustomerNumber st) in
      let pin := pinOrGenerated env (newPinCode body) in
      let hashedPin := hashPassword pin in
      match customers st !! newId env, customerByLoyaltyId st newLoyaltyId with
      | None, None =>
          let customer :=
            {| loyaltyId := newLoyaltyId;
               name := newName body;
               email := newEmail body;
               phone := newPhone body;
               pinCode := hashedPin;
               points := 0;
               totalSpent := 0;
               visitCount := 0;
               role := NORMAL;
               createdAt := now env |} in
          (respond 201 (CustomerJson (newId env) customer (Some pin)),
           {| customers := <[newId env := customer]> (customers st);
              purchases := purchases st;
              coupons := coupons st |})
      | _, _ => (InternalServerError, st)
      end
  end.

(** Truthiness of an optional string field. *)
Definition present (f : option string) : bool :=
  match f with
  | Some s => negb (String.eqb s "")
  | None => false
  end.

(** The row after [update({ data: updates })]; [None] when [role] is
    not a value of the enumeration. *)
Definition applyUpdates (updates : UpdateCustomerBody) (c : Customer) : option Customer :=
  match
    match setRole updates with
    | Some r => Role_of_name r
    | None => Some (role c)
    end
  with
  | None => None
  | Some r =>
      Some {| loyaltyId := loyaltyId c;
              name := default (name c) (setName updates);
              email := default (email c) (setEmail updates);
              phone := default (phone c) (setPhone updates);
              pinCode := pinCode c;
              points := default (points c) (setPoints updates);
              totalSpent := totalSpent c;
              visitCount := visitCount c;
              role := r;
              createdAt := createdAt c |}
  end.

(** [updateCustomer], lines 133-173. *)
Definition updateCustomer (user : User) (id : string) (updates : UpdateCustomerBody)
    (st : Store) : Response * Store :=
  if negb (String.eqb (userRole user) "ADMIN") && negb (String.eqb (userId user) id)
  then (AccessDenied, st)
  else if present (setRole updates) && negb (String.eqb (userRole user) "ADMIN")
  then (OnlyAdminCanChangeRole, st)
  else
    match customers st !! id with
    | None => (InternalServerError, st)
    | Some c =>
        match applyUpdates updates c with
        | None => (InternalServerError, st)
        | Some c' =>
            if match setEmail updates with
               | Some e => emailTakenByOther st id e
               | None => false
               end
            then (InternalServerError, st)
            else
              (respond 200 (CustomerJson id c' None),
               {| customers := <[id := c']> (customers st);
                  purchases := purchases st;
                  coupons := coupons st |})
        end
    end.

(** Modelled from the spec: [prisma/schema.prisma] is not part of the
    sources.  Purchases and coupons are owned by their customer, and
    deleting the customer deletes them too (section 3, strong
    composition with cascading delete). *)
Definition deleteCascade (id : string) (st : Store) : Store :=
  {| customers := delete id (customers st);
     purchases := filter (fun p => purchaseCustomer p <> id) (purchases st);
     coupons := filter (fun kc => couponCustomer (snd kc) <> id) (coupons st) |}.

Definition CustomerDeleted := respond 200 (MessageJson "Customer deleted successfully").

(** [deleteCustomer], lines 175-189: [prisma.customer.delete] throws
    when no row has the id. *)
Definition deleteCustomer (id : string) (st : Store) : Response * Store :=
  match customers st !! id with
  | None => (InternalServerError, st)
  | Some _ => (CustomerDeleted, deleteCascade id st)
  end.

(** *** middleware/validation.ts *)

Definition isDigit (c : ascii) : bool :=
  let n := N_of_ascii c in ((48 <=? n) && (n <=? 57))%N.

Definition allDigits (s : string) : bool :=
  forallb isDigit (list_ascii_of_string s).

(** [/^\d{8}$/] *)
Definition isPin (s : string) : bool :=
  allDigits s && (String.length s =? 8)%nat.

(** [/^\+?[0-9]{10,15}$/] *)
Definition isPhone (s : string) : bool :=
  let digits := match s with String "+" s' => s' | _ => s end in
  allDigits digits && (10 <=? String.length digits)%nat && (String.length digits <=? 15)%nat.

Definition optional {A} (check : A -> bool) (f : option A) : bool :=
  match f with
  | Some x => check x
  | None => true
  end.

Definition createCustomerSchema (b : CreateCustomerBody) : bool :=
  (2 <=? String.length (newName b))%nat && isEmail (newEmail b) && isPhone (newPhone b)
  && optional isPin (newPinCode b).

Definition updateCustomerSchema (b : UpdateCustomerBody) : bool :=
  optional (fun s => (2 <=? String.length s)%nat) (setName b)
  && optional isEmail (setEmail b)
  && optional isPhone (setPhone b)
  && optional (fun p => 0 <=? p) (setPoints b)
  && optional (fun r => bool_decide (is_Some (Role_of_name r))) (setRole b).

Definition createPurchaseSchema (b : CreatePurchaseBody) : bool :=
  (1 <=? String.length (forCustomer b))%nat && (0 <? paid b).

(** *** middleware/auth.ts *)

(** Modelled from the spec: [middleware/auth.ts] is not part of the
    sources.  Only an administrator may create customers, record
    purchases and redeem coupons; anyone else is refused with a 403
    and nothing is written. *)
Definition requireAdmin (user : User) : bool := String.eqb (userRole user) "ADMIN".

Definition AdminRequired := respond 403 (ErrorJson "Admin access required").

(** *** routes *)

(** The six writing routes of [routes/customers.ts],
    [routes/purchases.ts] and [routes/coupons.ts], each with the user
    [authenticate] found in the token. *)
Inductive Request :=
| PostCustomers (user : User) (body : CreateCustomerBody)
| PutCustomer (user : User) (id : string) (body : UpdateCustomerBody)
| DeleteCustomer (user : User) (id : string)
| PostPurchases (user : User) (body : CreatePurchaseBody)
| PostCoupons (user : User) (customerId : string)
| PutCouponRedeem (user : User) (code : string).

(** A request goes through the middleware of its route, in the order
    the route lists it, and then to the controller. *)
Definition handle (env : Env) (req : Request) (st : Store) : Response * Store :=
  match req with
  | PostCustomers user body =>
      if negb (requireAdmin user) then (AdminRequired, st)
      else if negb (createCustomerSchema body) then (ValidationFailed, st)
      else createCustomer env body st
  | PutCustomer user id body =>
      if negb (updateCustomerSchema body) then (ValidationFailed, st)
      else updateCustomer user id body st
  | DeleteCustomer user id =>
      if negb (requireAdmin user) then (AdminRequired, st)
      else deleteCustomer id st
  | PostPurchases user body =>
      if negb (requireAdmin user) then (AdminRequired, st)
      else if negb (createPurchaseSchema body) then (ValidationFailed, st)
      else createPurchase env body st
  | PostCoupons user customerId => createCoupon env user customerId st
  | PutCouponRedeem user code =>
      if negb (requireAdmin user) then (AdminRequired, st)
      else redeemCoupon env code st
  end.

(** The store after a sequence of requests, each with its own clock
    and randomness. *)
Fixpoint run (reqs : list (Env * Request)) (st : Store) : Store :=
  match reqs with
  | [] => st
  | (env, req) :: rest => run rest (snd (handle env req st))
  end.

(** Every store met on the way, the first one included. *)
Fixpoint trace (reqs : list (Env * Request)) (st : Store) : list Store :=
  match reqs with
  | [] => [st]
  | (env, req) :: rest => st :: trace rest (snd (handle env req st))
  end.

End Backend.

(** ** The rules as the specification words them *)

(** The role multiplier of section 4.2 in tenths: 1.1, 1.4, 1.7, and 1.0
    for [ADMIN] and for a role that is not recognised. *)
Definition tenths (role : string) : Z :=
  if String.eqb role "NORMAL" then 11
  else if String.eqb role "LOYAL" then 14
  else if String.eqb role "OWNER" then 17
  else 10.

(** [pointsForPurchase] of section 4.2 in exact arithmetic:
    [floor (floor (amount / 100) * multiplier)]. *)
Definition pointsForPurchase (amountMinor : Z) (role : string) : Z :=
  (amountMinor / 100) * tenths role / 10.

(** The promotion order [NORMAL < LOYAL < OWNER]; [ADMIN] stands apart. *)
Definition rank (r : Role) : option nat :=
  match r with
  | NORMAL => Some 0%nat
  | LOYAL => Some 1%nat
  | OWNER => Some 2%nat
  | ADMIN => None
  end.

(** [r'] is not lower than [r]: an administrator stays one, and a
    customer tier does not go down. *)
Definition notLower (r r' : Role) : Prop :=
  match rank r, rank r' with
  | Some a, Some b => (a <= b)%nat
  | None, None => True
  | _, _ => False
  end.

(** [roleAfterVisit] as section 4.2 states it. *)
Definition roleAfterVisit_spec (currentRole : Role) (newVisitCount : Z) : Role :=
  match currentRole with
  | ADMIN => ADMIN
  | _ => if 50 <=? newVisitCount then OWNER
         else if 20 <=? newVisitCount then LOYAL
         else currentRole
  end.

(** ** Rounding on a grid *)

(** Where [X / D] lies between two consecutive integers: on the lower
    one, or below, at or above the midpoint. *)
Definition loc_of (X D : Z) : location :=
  if X mod D =? 0 then loc_Exact else loc_Inexact (2 * (X mod D) ?= D).

(** The integer nearest to [X / G], ties to even. *)
Definition RNE (X G : Z) : Z := round_nearest_even (X / G) (loc_of X G).

(** A number that is not negative: NaN, a zero, or a value with a clear
    sign bit. *)
Definition unsigned (x : Js.number) : Prop :=
  match x with
  | S754_finite true _ _ | S754_infinity true => False
  | _ => True
  end.

(** ** utils/seed.ts *)

Section Seed.

Variable hashPassword : string -> string.

Definition seedTime : Z := 1704967200000.
Definition days (n : Z) : Z := n * 24 * 60 * 60 * 1000.

Definition seedCustomers : gmap string Customer :=
  list_to_map
    [ ("id-admin",
       {| loyaltyId := "ADMIN001"; name := "Admin User"; email := "admin@fastfood.hu";
          phone := "+36301234567"; pinCode := hashPassword "12345678";
          points := 0; totalSpent := 0; visitCount := 0; role := ADMIN;
          createdAt := seedTime |});
      ("id-1",
       {| loyaltyId := "CUST001"; name := "Nagy Peter"; email := "peter.nagy@email.hu";
          phone := "+36301111111"; pinCode := hashPassword "11111111";
          points := 85; totalSpent := 12500; visitCount := 12; role := NORMAL;
          createdAt := seedTime |});
      ("id-2",
       {| loyaltyId := "CUST002"; name := "Kovacs Anna"; email := "anna.kovacs@email.hu";
          phone := "+36302222222"; pinCode := hashPassword "22222222";
          points := 140; totalSpent := 32000; visitCount := 25; role := LOYAL;
          createdAt := seedTime |});
      ("id-3",
       {| loyaltyId := "CUST003"; name := "Szabo Janos"; email := "janos.szabo@email.hu";
          phone := "+36303333333"; pinCode := hashPassword "33333333";
          points := 220; totalSpent := 65000; visitCount := 45; role := OWNER;
          createdAt := seedTime |}) ].

Definition seedPurchases : list Purchase :=
  [ {| purchaseId := "id-p1"; purchaseCustomer := "id-1"; amount := 2500;
       pointsEarned := 27; receiptNumber := "RCP-001"; timestamp := seedTime - days 2 |};
    {| purchaseId := "id-p2"; purchaseCustomer := "id-2"; amount := 3200;
       pointsEarned := 44; receiptNumber := "RCP-002"; timestamp := seedTime - days 5 |};
    {| purchaseId := "id-p3"; purchaseCustomer := "id-3"; amount := 4500;
       pointsEarned := 76; receiptNumber := "RCP-003"; timestamp := seedTime - days 7 |} ].

Definition seedCoupons : gmap string Coupon :=
  list_to_map
    [ ("COUP-2024-001",
       {| couponId := "id-c1"; couponCustomer := "id-2"; value := 1000;
          couponCreatedAt := seedTime - days 10; redeemed := false; redeemedAt := None |});
      ("COUP-2024-002",
       {| couponId := "id-c2"; couponCustomer := "id-3"; value := 1000;
          couponCreatedAt := seedTime - days 20; redeemed := true;
          redeemedAt := Some (seedTime - days 15) |}) ].

Definition seed : Store :=
  {| customers := seedCustomers; purchases := seedPurchases; coupons := seedCoupons |}.

End Seed.

(** ** Sample requests *)

(** A request served in 2026. *)
Definition env2026 : Env :=
  {| now := 1767261600000; year := 2026; rand1000 := 7; randPin := 12345678;
     newId := "id-new" |}.

Definition plain (s : string) : string := s.
Definition anyEmail (s : string) : bool := true.

Definition adminUser : User :=
  {| userId := "id-admin"; userLoyaltyId := "ADMIN001"; userRole := "ADMIN" |}.
Definition peter : User :=
  {| userId := "id-1"; userLoyaltyId := "CUST001"; userRole := "NORMAL" |}.
Definition anna : User :=
  {| userId := "id-2"; userLoyaltyId := "CUST002"; userRole := "LOYAL" |}.

(** A store in which the year's coupon numbers have passed 999. *)
Definition crowded : Store :=
  {| customers := seedCustomers plain;
     purchases := [];
     coupons :=
       list_to_map
         [ ("COUP-2026-999",
            {| couponId := "id-c999"; couponCustomer := "id-3"; value := 1000;
               couponCreatedAt := 1767000000000; redeemed := false; redeemedAt := None |});
           ("COUP-2026-1000",
            {| couponId := "id-c1000"; couponCustomer := "id-3"; value := 1000;
               couponCreatedAt := 1767000000001; redeemed := false; redeemedAt := None |}) ] |}.

(** Coupons of two years side by side. *)
Definition twoYears : Store :=
  {| customers := seedCustomers plain;
     purchases := [];
     coupons :=
       list_to_map
         [ ("COUP-2024-099",
            {| couponId := "id-c99"; couponCustomer := "id-3"; value := 1000;
               couponCreatedAt := 1704000000000; redeemed := false; redeemedAt := None |});
           ("COUP-2025-001",
            {| couponId := "id-c1"; couponCustomer := "id-3"; value := 1000;
               couponCreatedAt := 1736000000000; redeemed := false; redeemedAt := None |}) ] |}.

(** ** Properties of a store *)

(** Every balance is a non-negative integer. *)
Definition pointsNonneg (st : Store) : Prop :=
  map_Forall (fun _ c => 0 <= points c) (customers st).

(** Whether the product of [b] base points with the double nearest to
    1.4 rounds below the integer [7 k] it should reach: [b = 5 k] and
    [4 k] is above the largest power of two that [7 k] reaches. *)
Definition loyalShort (b : Z) : bool :=
  (b mod 5 =? 0) && (2 ^ Z.log2 (7 * (b / 5)) <? 4 * (b / 5)).

(** The code [createCoupon] assigns for a last number [n]. *)
Definition couponCodeFor (env : Env) (n : Z) : string :=
  "COUP-" ++ Js.String_of_Z (year env) ++ "-" ++ Js.padStart 3 "0" (Js.String_of_Z (n + 1)).


(** The loyalty id whose number is [i]. *)
Definition loyaltyIdOf (i : Z) : string :=
  "CUST" ++ Js.padStart 3 "0" (Js.String_of_Z i).

(** The loyalty ids that start with CUST are among CUST001 ... and the
    one numbered [n] is in use (when [n] is positive). *)
Definition custNumbered (st : Store) (n : Z) : Prop :=
  (forall k c, customers st !! k = Some c ->
               String.prefix "CUST" (loyaltyId c) = true ->
               exists i, 1 <= i <= n /\ loyaltyId c = loyaltyIdOf i) /\
  (0 < n -> exists k c, customers st !! k = Some c /\ loyaltyId c = loyaltyIdOf n).
(** A store in which the loyalty ids have reached CUST1000. *)
Definition thousand : Store :=
  {| customers :=
       list_to_map
         [ ("id-999",
            {| loyaltyId := "CUST999"; name := "Kiss Eva"; email := "eva.kiss@email.hu";
               phone := "+36309990999"; pinCode := "99999999";
               points := 0; totalSpent := 0; visitCount := 0; role := NORMAL;
               createdAt := 1767000000000 |});
           ("id-1000",
            {| loyaltyId := "CUST1000"; name := "Toth Bela"; email := "bela.toth@email.hu";
               phone := "+36301000100"; pinCode := "10001000";
               points := 0; totalSpent := 0; visitCount := 0; role := NORMAL;
               createdAt := 1767000000001 |}) ];
     purchases := [];
     coupons := ∅ |}.

(** A registration form. *)
Definition newcomer : CreateCustomerBody :=
  {| newName := "Varga Dora"; newEmail := "dora.varga@email.hu";
     newPhone := "+36304444444"; newPinCode := Some "44444444" |}.
(** ** Reading controllers *)

(** What a reading controller sends: an error response, or a status
    with the value passed to [res.json]. *)
Inductive Sent (A : Type) :=
| Refused (r : Response)
| Replied (code : Z) (payload : A).

Arguments Refused {A} r.
Arguments Replied {A} code payload.

(** The order of [orderBy: { col: 'desc' }] on a time column: a row
    comes before every row with an earlier time. *)
Definition newerFirst {A} (col : A -> Z) : relation A :=
  fun a b => col b <= col a.

(** [findMany({ orderBy: { col: 'desc' } })].  Rows with equal times
    come in an order the store chooses; here it is the one a merge sort
    leaves. *)
Definition orderByDesc {A} (col : A -> Z) (rows : list A) : list A :=
  @merge_sort A (newerFirst col) (fun a b => decide (col b <= col a)) rows.

(** [getPurchasesByCustomer], purchaseController.ts lines 70-90. *)
Definition getPurchasesByCustomer (user : User) (customerId : string) (st : Store)
  : Sent (list Purchase) :=
  if negb (String.eqb (userRole user) "ADMIN") && negb (String.eqb (userId user) customerId)
  then Refused AccessDenied
  else
    Replied 200
      (orderByDesc timestamp
         (filter (fun p => purchaseCustomer p = customerId) (purchases st))).

(** [getCouponsByCustomer], couponController.ts lines 67-87; a coupon
    is sent with its code. *)
Definition getCouponsByCustomer (user : User) (customerId : string) (st : Store)
  : Sent (list (string * Coupon)) :=
  if negb (String.eqb (userRole user) "ADMIN") && negb (String.eqb (userId user) customerId)
  then Refused AccessDenied
  else
    Replied 200
      (orderByDesc (fun kc => couponCreatedAt (snd kc))
         (filter (fun kc => couponCustomer (snd kc) = customerId)
            (map_to_list (coupons st)))).

(** The fields of the owner that [lookupCoupon] selects. *)
Record CouponOwner := {
  ownerId : string;
  ownerLoyaltyId : string;
  ownerName : string;
  ownerPhone : string;
}.

Definition ownerOf (id : string) (c : Customer) : CouponOwner :=
  {| ownerId := id; ownerLoyaltyId := loyaltyId c; ownerName := name c;
     ownerPhone := phone c |}.

(** [lookupCoupon], couponController.ts lines 89-117: the coupon with
    the selected fields of its customer. *)
Definition lookupCoupon (code : string) (st : Store)
  : Sent (Coupon * option CouponOwner) :=
  match coupons st !! code with
  | None => Refused CouponNotFound
  | Some coupon =>
      Replied 200
        (coupon,
         ownerOf (couponCustomer coupon) <$> customers st !! couponCustomer coupon)
  end.

(** The fields the customer controllers select: all but the PIN hash. *)
Record CustomerView := {
  viewId : string;
  viewLoyaltyId : string;
  viewName : string;
  viewEmail : string;
  viewPhone : string;
  viewPoints : Z;
  viewTotalSpent : Z;
  viewVisitCount : Z;
  viewRole : Role;
  viewCreatedAt : Z;
}.

Definition selectCustomer (kc : string * Customer) : CustomerView :=
  {| viewId := fst kc; viewLoyaltyId := loyaltyId (snd kc); viewName := name (snd kc);
     viewEmail := email (snd kc); viewPhone := phone (snd kc);
     viewPoints := points (snd kc); viewTotalSpent := totalSpent (snd kc);
     viewVisitCount := visitCount (snd kc); viewRole := role (snd kc);
     viewCreatedAt := createdAt (snd kc) |}.

(** [getAllCustomers], customerController.ts lines 7-30. *)
Definition getAllCustomers (st : Store) : Sent (list CustomerView) :=
  Replied 200
    (orderByDesc viewCreatedAt (selectCustomer <$> map_to_list (customers st))).

(** [getCustomerById], customerController.ts lines 32-69. *)
Definition getCustomerById (user : User) (id : string) (st : Store) : Sent CustomerView :=
  if negb (String.eqb (userRole user) "ADMIN") && negb (String.eqb (userId user) id)
  then Refused AccessDenied
  else
    match customers st !! id with
    | None => Refused CustomerNotFound
    | Some customer => Replied 200 (selectCustomer (id, customer))
    end.

(** ** The authentication controller *)

(** What [login] signs into a token. *)
Record TokenPayload := {
  tokenId : string;
  tokenLoyaltyId : string;
  tokenRole : Role;
}.

(** The [user] object of a login response. *)
Record LoginUser := {
  loginId : string;
  loginLoyaltyId : string;
  loginName : string;
  loginEmail : string;
  loginPhone : string;
  loginPoints : Z;
  loginVisitCount : Z;
  loginRole : Role;
}.

Record LoginReply := {
  accessToken : string;
  refreshToken : string;
  loggedIn : LoginUser;
}.

Definition InvalidCredentials := respond 401 (ErrorJson "Invalid loyalty ID or PIN code").

Section Auth.

(** [utils/password.ts] and [utils/jwt.ts] are outside the sources; the
    controller is read for any choice of them.  A token depends on the
    clock of the request that signs it. *)
Variable comparePassword : string -> string -> bool.
Variable generateAccessToken : Env -> TokenPayload -> string.
Variable generateRefreshToken : Env -> TokenPayload -> string.

(** [login], customerController.ts lines 195-242 (the authentication
    controller). *)
Definition login (env : Env) (id pin : string) (st : Store) : Sent LoginReply :=
  match customerByLoyaltyId st id with
  | None => Refused InvalidCredentials
  | Some (key, customer) =>
      if negb (comparePassword pin (pinCode customer)) then Refused InvalidCredentials
      else
        let tokenPayload :=
          {| tokenId := key; tokenLoyaltyId := loyaltyId customer;
             tokenRole := role customer |} in
        Replied 200
          {| accessToken := generateAccessToken env tokenPayload;
             refreshToken := generateRefreshToken env tokenPayload;
             loggedIn :=
               {| loginId := key; loginLoyaltyId := loyaltyId customer;
                  loginName := name customer; loginEmail := email customer;
                  loginPhone := phone customer; loginPoints := points customer;
                  loginVisitCount := visitCount customer; loginRole := role customer |} |}
  end.

End Auth.

(** [loginSchema] of middleware/validation.ts. *)
Definition loginSchema (id pin : string) : bool :=
  (1 <=? String.length id)%nat && isPin pin.

(** [lookupCouponSchema] of middleware/validation.ts. *)
Definition lookupCouponSchema (code : string) : bool :=
  (1 <=? String.length code)%nat.
(** ** The admin page (frontend, pages/Admin.tsx) *)

(** [loadData], lines 81-92: the customers kept in the page's state are
    those of [GET /customers] that are not administrators; a refused
    request leaves none. *)
Definition loadData (st : Store) : list CustomerView :=
  match getAllCustomers st with
  | Replied _ data => List.filter (fun c => match viewRole c with ADMIN => false | _ => true end) data
  | Refused _ => []
  end.

(** [calculatePointsPreview], lines 287-299: the points shown under
    the purchase form.  Its [multipliers] literal is the one of
    [calculatePoints]; the role of a listed customer is one of its
    keys. *)
Definition calculatePointsPreview (customers : list CustomerView) (amount : Js.number)
    (customerId : string) : Js.number :=
  match List.find (fun c => String.eqb (viewId c) customerId) customers with
  | None => Js.of_Z 0
  | Some customer =>
      Js.Math_floor
        (Js.times (Js.div amount lit_100)
           (Js.get multipliers (Role_name (viewRole customer))))
  end.

(** ** Browser storage (frontend, lib/storage.ts) *)

Module Browser.

(** [localStorage], as far as the helpers depend on it: either every
    call is served, and it is a map from keys to strings, or every call
    throws (storage switched off).  A store that takes some writes and
    refuses others (a full quota) is not represented. *)
Inductive LocalStorage :=
| Working (items : gmap string string)
| Blocked.

(** The page's storage: [localStorage] and the [memoryStorage] object
    of the module. *)
Record Storage := {
  localStorage : LocalStorage;
  memoryStorage : gmap string string;
}.

(** What a read gives: [null], a string, or a function or object
    inherited from [Object.prototype] by the [memoryStorage] literal. *)
Inductive Item :=
| Null
| Text (s : string)
| Inherited.

Definition probe : string := "__localStorage_test__".

(** [isLocalStorageAvailable]: writes and removes the probe key; the
    answer comes with the [localStorage] this leaves. *)
Definition isLocalStorageAvailable (ls : LocalStorage) : bool * LocalStorage :=
  match ls with
  | Working items => (true, Working (delete probe (<[probe := probe]> items)))
  | Blocked => (false, Blocked)
  end.

(** [localStorage.getItem(key)] on a working store. *)
Definition getItem (items : gmap string string) (key : string) : Item :=
  match items !! key with
  | Some s => Text s
  | None => Null
  end.

(** [memoryStorage[key] || null] *)
Definition memoryItem (memory : gmap string string) (key : string) : Item :=
  match memory !! key with
  | Some s => if String.eqb s "" then Null else Text s
  | None => if bool_decide (key ∈ Js.Object_prototype) then Inherited else Null
  end.

(** [memoryStorage[key] = value]: assigning a string to [__proto__]
    leaves the object as it is. *)
Definition memorySet (memory : gmap string string) (key value : string)
  : gmap string string :=
  if String.eqb key "__proto__" then memory else <[key := value]> memory.

(** [safeGetItem] *)
Definition safeGetItem (key : string) (s : Storage) : Item * Storage :=
  match isLocalStorageAvailable (localStorage s) with
  | (true, Working items) =>
      (getItem items key,
       {| localStorage := Working items; memoryStorage := memoryStorage s |})
  | (_, ls) =>
      (memoryItem (memoryStorage s) key,
       {| localStorage := ls; memoryStorage := memoryStorage s |})
  end.

(** [safeSetItem] *)
Definition safeSetItem (key value : string) (s : Storage) : Storage :=
  match isLocalStorageAvailable (localStorage s) with
  | (true, Working items) =>
      {| localStorage := Working (<[key := value]> items);
         memoryStorage := memorySet (memoryStorage s) key value |}
  | (_, ls) =>
      {| localStorage := ls; memoryStorage := memorySet (memoryStorage s) key value |}
  end.

(** [safeRemoveItem] *)
Definition safeRemoveItem (key : string) (s : Storage) : Storage :=
  match isLocalStorageAvailable (localStorage s) with
  | (true, Working items) =>
      {| localStorage := Working (delete key items);
         memoryStorage := delete key (memoryStorage s) |}
  | (_, ls) =>
      {| localStorage := ls; memoryStorage := delete key (memoryStorage s) |}
  end.

Section Session.

(** [JSON.stringify] and [JSON.parse] on the stored user; [None] when
    [JSON.parse] throws. *)
Variable Account : Type.
Variable JSON_stringify : Account -> string.
Variable JSON_parse : string -> option Account.

(** [setAuth] *)
Definition setAuth (user : Account) (s : Storage) : Storage :=
  safeSetItem "currentUser" (JSON_stringify user) s.

(** [getAuth]: [null] when nothing usable is stored; a value that is
    not a string does not parse. *)
Definition getAuth (s : Storage) : option Account * Storage :=
  match safeGetItem "currentUser" s with
  | (Text userStr, s') => (if String.eqb userStr "" then None else JSON_parse userStr, s')
  | (_, s') => (None, s')
  end.

(** [clearAuth] *)
Definition clearAuth (s : Storage) : Storage :=
  safeRemoveItem "refreshToken" (safeRemoveItem "accessToken" (safeRemoveItem "currentUser" s)).

End Session.

End Browser.
(** ** Bookkeeping of a balance *)

(** The points a customer earned with the purchases on record. *)
Definition earned (st : Store) (id : string) : Z :=
  foldr (fun p acc => pointsEarned p + acc) 0
    (filter (fun p => purchaseCustomer p = id) (purchases st)).

(** The number of coupons on record for a customer. *)
Definition couponsOf (st : Store) (id : string) : Z :=
  Z.of_nat (length (filter (fun kc => couponCustomer (snd kc) = id)
                      (map_to_list (coupons st)))).

(** A coupon row [c'] continues [c]: same id, owner, value and creation
    time, and unchanged altogether once [c] is redeemed. *)
Definition continues (c c' : Coupon) : Prop :=
  couponId c' = couponId c /\ couponCustomer c' = couponCustomer c /\
  value c' = value c /\ couponCreatedAt c' = couponCreatedAt c /\
  (redeemed c = true -> c' = c).

(** The requests that leave the ledger of customer [id] to purchases
    and coupons: every request but the update of a customer and the
    deletion of [id]. *)
Definition ledgerRequest (id : string) (req : Request) : Prop :=
  match req with
  | PutCustomer _ _ _ => False
  | DeleteCustomer _ key => key <> id
  | _ => True
  end.
(** * Facts about binary64 arithmetic

    [SpecFloat] defines the operations; the lemmas below say what they
    compute on the values the backend meets: integers below 2^53, their
    quotient by 100 and their product with a multiplier. *)

(** The number of binary digits of a positive integer. *)
Lemma digits2_pos_bounds (p : positive) :
  2 ^ (Zpos (digits2_pos p) - 1) <= Zpos p < 2 ^ Zpos (digits2_pos p).
Proof.
  induction p as [p IH|p IH|]; cbn [digits2_pos].
  - rewrite Pos2Z.inj_succ, Z.pow_succ_r by lia.
    replace (Z.succ (Zpos (digits2_pos p)) - 1) with (Z.succ (Zpos (digits2_pos p) - 1)) by lia.
    rewrite Z.pow_succ_r by lia. lia.
  - rewrite Pos2Z.inj_succ, Z.pow_succ_r by lia.
    replace (Z.succ (Zpos (digits2_pos p)) - 1) with (Z.succ (Zpos (digits2_pos p) - 1)) by lia.
    rewrite Z.pow_succ_r by lia. lia.
  - cbn. lia.
Qed.

Lemma Zdigits2_log2 (m : Z) : 0 < m -> Zdigits2 m = Z.log2 m + 1.
Proof.
  destruct m as [|p|p]; try lia. intros _. cbn [Zdigits2].
  pose proof (digits2_pos_bounds p) as H.
  rewrite (Z.log2_unique (Zpos p) (Zpos (digits2_pos p) - 1)); [lia|lia|].
  replace (Z.succ (Zpos (digits2_pos p) - 1)) with (Zpos (digits2_pos p)) by lia. exact H.
Qed.

Lemma Zdigits2_unique (m d : Z) : 0 < d -> 2 ^ (d - 1) <= m < 2 ^ d -> Zdigits2 m = d.
Proof.
  intros Hd H. assert (0 < m) by (pose proof (Z.pow_pos_nonneg 2 (d - 1)); lia).
  rewrite Zdigits2_log2 by lia. rewrite (Z.log2_unique m (d - 1)); [lia|lia|].
  replace (Z.succ (d - 1)) with d by lia. exact H.
Qed.


(** Shifting right keeps the quotient and the position of the exact
    value between two consecutive quotients. *)
Lemma iter_pos_nat {A} (f : A -> A) (p : positive) (x : A) :
  SpecFloat.iter_pos f p x = Nat.iter (Pos.to_nat p) f x.
Proof.
  revert x. induction p as [p IH|p IH|]; intros x; cbn [SpecFloat.iter_pos].
  - rewrite !IH, Pos2Nat.inj_xI.
    replace (S (2 * Pos.to_nat p))%nat with (Pos.to_nat p + (Pos.to_nat p + 1))%nat by lia.
    rewrite !Nat.iter_add. reflexivity.
  - rewrite !IH, Pos2Nat.inj_xO.
    replace (2 * Pos.to_nat p)%nat with (Pos.to_nat p + Pos.to_nat p)%nat by lia.
    rewrite Nat.iter_add. reflexivity.
  - reflexivity.
Qed.

Lemma shr_1_spec (X D : Z) (mrs : shr_record) :
  0 < D -> 0 <= X ->
  shr_m mrs = X / D -> loc_of_shr_record mrs = loc_of X D ->
  shr_m (shr_1 mrs) = X / (2 * D) /\ loc_of_shr_record (shr_1 mrs) = loc_of X (2 * D).
Proof.
  intros HD HX Hm Hl.
  assert (Hq : 0 <= X / D) by (apply Z.div_pos; lia).
  pose proof (Z.div_mod X D ltac:(lia)) as E1.
  pose proof (Z.mod_pos_bound X D HD) as B1.
  pose proof (Z.div_mod X (2 * D) ltac:(lia)) as E2.
  pose proof (Z.mod_pos_bound X (2 * D) ltac:(lia)) as B2.
  destruct mrs as [m r s]. cbn [shr_m] in Hm. subst m.
  unfold loc_of in *.
  assert (Hs : orb r s = negb (X mod D =? 0)).
  { destruct (X mod D =? 0); destruct r, s; cbn in Hl |- *; congruence. }
  cbn [shr_1]. rewrite Hs. clear Hl Hs.
  destruct (X / D) as [|p|p] eqn:Ep; [| |lia].
  - assert (X / (2 * D) = 0) by nia.
    assert (X mod (2 * D) = X mod D) by nia.
    cbn [shr_m loc_of_shr_record]. split; [lia|].
    rewrite H0. destruct (Z.eqb_spec (X mod D) 0); cbn; [reflexivity|].
    f_equal. symmetry. apply Z.compare_lt_iff. lia.
  - destruct p as [p|p|].
    + assert (X / (2 * D) = Zpos p) by nia.
      assert (X mod (2 * D) = D + X mod D) by nia.
      cbn [shr_m loc_of_shr_record]. split; [lia|].
      rewrite H0. destruct (Z.eqb_spec (D + X mod D) 0); [lia|].
      destruct (Z.eqb_spec (X mod D) 0) as [e0|e0]; cbn.
      * f_equal. symmetry. apply Z.compare_eq_iff. lia.
      * f_equal. symmetry. apply Z.compare_gt_iff. lia.
    + assert (X / (2 * D) = Zpos p) by nia.
      assert (X mod (2 * D) = X mod D) by nia.
      cbn [shr_m loc_of_shr_record]. split; [lia|].
      rewrite H0. destruct (Z.eqb_spec (X mod D) 0); cbn; [reflexivity|].
      f_equal. symmetry. apply Z.compare_lt_iff. lia.
    + assert (X / (2 * D) = 0) by nia.
      assert (X mod (2 * D) = D + X mod D) by nia.
      cbn [shr_m loc_of_shr_record]. split; [lia|].
      rewrite H0. destruct (Z.eqb_spec (D + X mod D) 0); [lia|].
      destruct (Z.eqb_spec (X mod D) 0) as [e0|e0]; cbn.
      * f_equal. symmetry. apply Z.compare_eq_iff. lia.
      * f_equal. symmetry. apply Z.compare_gt_iff. lia.
Qed.

Lemma shr_iter_spec (n : nat) (X D : Z) (mrs : shr_record) :
  0 < D -> 0 <= X ->
  shr_m mrs = X / D -> loc_of_shr_record mrs = loc_of X D ->
  shr_m (Nat.iter n shr_1 mrs) = X / (2 ^ Z.of_nat n * D) /\
  loc_of_shr_record (Nat.iter n shr_1 mrs) = loc_of X (2 ^ Z.of_nat n * D).
Proof.
  intros HD HX Hm Hl. induction n as [|n IH].
  - cbn [Nat.iter]. change (2 ^ Z.of_nat 0) with 1. rewrite Z.mul_1_l. auto.
  - cbn [Nat.iter]. destruct IH as [IHm IHl].
    rewrite Nat2Z.inj_succ, Z.pow_succ_r by lia.
    rewrite <- Z.mul_assoc.
    apply shr_1_spec; auto. pose proof (Z.pow_pos_nonneg 2 (Z.of_nat n)). nia.
Qed.

Lemma shr_record_of_loc_m (m : Z) (l : location) : shr_m (shr_record_of_loc m l) = m.
Proof. destruct l as [|[]]; reflexivity. Qed.

Lemma loc_of_shr_record_of_loc (m : Z) (l : location) :
  loc_of_shr_record (shr_record_of_loc m l) = l.
Proof. destruct l as [|[]]; reflexivity. Qed.

Lemma shr_spec (X D e n : Z) :
  0 < D -> 0 <= X -> 0 <= n ->
  let '(mrs, e') := shr (shr_record_of_loc (X / D) (loc_of X D)) e n in
  shr_m mrs = X / (2 ^ n * D) /\ loc_of_shr_record mrs = loc_of X (2 ^ n * D) /\ e' = e + n.
Proof.
  intros HD HX Hn. unfold shr. destruct n as [|p|p]; [| |lia].
  - change (2 ^ 0) with 1. rewrite Z.mul_1_l, Z.add_0_r.
    rewrite shr_record_of_loc_m, loc_of_shr_record_of_loc. auto.
  - rewrite iter_pos_nat.
    destruct (shr_iter_spec (Pos.to_nat p) X D (shr_record_of_loc (X / D) (loc_of X D)))
      as [H1 H2]; auto using shr_record_of_loc_m, loc_of_shr_record_of_loc.
    rewrite positive_nat_Z in H1, H2. auto.
Qed.


(** [RNE] is one of the two neighbours, the nearer one when there is
    one. *)
Lemma RNE_cases (X G : Z) :
  0 < G ->
  (2 * (X mod G) < G -> RNE X G = X / G) /\
  (G < 2 * (X mod G) -> RNE X G = X / G + 1) /\
  (RNE X G = X / G \/ RNE X G = X / G + 1).
Proof.
  intros HG. pose proof (Z.mod_pos_bound X G HG) as B.
  unfold RNE, loc_of, round_nearest_even.
  destruct (Z.eqb_spec (X mod G) 0) as [E|E]; [lia|].
  destruct (Z.compare_spec (2 * (X mod G)) G); try lia.
  destruct (Z.even (X / G)); lia.
Qed.

(** Outside the subnormal range the exponent leaves 53 digits. *)
Lemma fexp_normal (x : Z) : -1021 <= x -> fexp Js.prec Js.emax x = x - 53.
Proof. intros H. unfold fexp, emin, Js.prec, Js.emax. lia. Qed.

(** Rounding to 53 digits: a quotient [X / D] of at least 53 digits,
    with the position of the exact value, becomes [RNE X G] on the grid
    [G] of the multiples of [2^n * D]. *)
Lemma binary_round_aux_spec (X D e : Z) :
  0 < D -> 0 <= X -> 2 ^ 52 <= X / D -> -1074 <= e ->
  let n := Zdigits2 (X / D) - 53 in
  e + n + 1 <= 971 ->
  let R := RNE X (2 ^ n * D) in
  0 <= n /\ 2 ^ (52 + n) <= X / D < 2 ^ (53 + n) /\ 2 ^ 52 <= R <= 2 ^ 53 /\
  binary_round_aux Js.prec Js.emax false (X / D) e (loc_of X D) =
    if R <? 2 ^ 53 then S754_finite false (Z.to_pos R) (e + n)
    else S754_finite false (Z.to_pos (2 ^ 52)) (e + n + 1).
Proof.
  intros HD HX Hq He n Hn R.
  assert (Hq0 : 0 < X / D) by lia.
  pose proof (Zdigits2_log2 (X / D) Hq0) as Hd.
  assert (Hlog : 52 <= Z.log2 (X / D)) by (apply Z.log2_le_pow2; lia).
  assert (Hn0 : 0 <= n) by (unfold n; lia).
  destruct (Z.log2_spec (X / D) Hq0) as [Hlo Hhi].
  assert (Hrange : 2 ^ (52 + n) <= X / D < 2 ^ (53 + n)).
  { unfold n. rewrite Hd.
    replace (52 + (Z.log2 (X / D) + 1 - 53)) with (Z.log2 (X / D)) by lia.
    replace (53 + (Z.log2 (X / D) + 1 - 53)) with (Z.succ (Z.log2 (X / D))) by lia. lia. }
  assert (HG : 0 < 2 ^ n * D) by (pose proof (Z.pow_pos_nonneg 2 n); nia).
  assert (HQ : 2 ^ 52 <= X / (2 ^ n * D) < 2 ^ 53).
  { rewrite Z.mul_comm, <- Z.div_div by (pose proof (Z.pow_pos_nonneg 2 n); lia).
    rewrite !Z.pow_add_r in Hrange by lia.
    pose proof (Z.pow_pos_nonneg 2 n ltac:(lia) Hn0) as Hp.
    split.
    - apply Z.div_le_lower_bound; lia.
    - apply Z.div_lt_upper_bound; lia. }
  destruct (RNE_cases X (2 ^ n * D) HG) as (_ & _ & HR). fold R in HR.
  assert (HRr : 2 ^ 52 <= R <= 2 ^ 53) by lia.
  split; [exact Hn0|]. split; [exact Hrange|]. split; [exact HRr|].
  unfold binary_round_aux, shr_fexp.
  rewrite fexp_normal by lia.
  replace (Zdigits2 (X / D) + e - 53 - e) with n by (unfold n; lia).
  pose proof (shr_spec X D e n HD HX Hn0) as Hs.
  destruct (shr (shr_record_of_loc (X / D) (loc_of X D)) e n) as [mrs e'].
  destruct Hs as (Hm & Hl & He'). subst e'.
  rewrite Hm, Hl. fold (RNE X (2 ^ n * D)). fold R.
  destruct (Z.ltb_spec R (2 ^ 53)) as [Hlt|Hge].
  - rewrite (Zdigits2_unique R 53) by (change (53 - 1) with 52; lia).
    rewrite fexp_normal by lia.
    replace (53 + (e + n) - 53 - (e + n)) with 0 by lia.
    cbn [shr shr_record_of_loc shr_m].
    destruct R as [|r|r]; try lia.
    cbn [Z.to_pos]. unfold Js.prec, Js.emax.
    destruct (Z.leb_spec (e + n) (1024 - 53)); [reflexivity|lia].
  - assert (R = 2 ^ 53) by lia. rewrite H.
    change (Zdigits2 (2 ^ 53)) with 54.
    rewrite fexp_normal by lia.
    replace (54 + (e + n) - 53 - (e + n)) with 1 by lia.
    cbn. unfold Js.prec, Js.emax.
    destruct (Z.leb_spec (e + n + 1) (1024 - 53)); [reflexivity|lia].
Qed.


Lemma loc_of_1 (X : Z) : loc_of X 1 = loc_Exact.
Proof. unfold loc_of. rewrite Z.mod_1_r. reflexivity. Qed.

Lemma RNE_1 (X : Z) : RNE X 1 = X.
Proof. unfold RNE. rewrite loc_of_1, Z.div_1_r. reflexivity. Qed.

Lemma binary_round_aux_exact (X e : Z) :
  2 ^ 52 <= X -> -1074 <= e ->
  let n := Zdigits2 X - 53 in
  e + n + 1 <= 971 ->
  let R := RNE X (2 ^ n) in
  0 <= n /\ 2 ^ (52 + n) <= X < 2 ^ (53 + n) /\ 2 ^ 52 <= R <= 2 ^ 53 /\
  binary_round_aux Js.prec Js.emax false X e loc_Exact =
    if R <? 2 ^ 53 then S754_finite false (Z.to_pos R) (e + n)
    else S754_finite false (Z.to_pos (2 ^ 52)) (e + n + 1).
Proof.
  intros HX He n Hn R.
  pose proof (binary_round_aux_spec X 1 e ltac:(lia) ltac:(lia)) as H.
  rewrite Z.div_1_r, loc_of_1 in H. cbv zeta in H.
  rewrite Z.mul_1_r in H. apply H; auto.
Qed.

(** Aligning a mantissa on a lower exponent. *)
Lemma shl_align_spec (m : positive) (e e' : Z) :
  e' <= e -> shl_align m e e' = (Z.to_pos (Zpos m * 2 ^ (e - e')), e').
Proof.
  intros He. unfold shl_align.
  destruct (e' - e) as [|q|q] eqn:E; try lia.
  - replace (e - e') with 0 by lia. rewrite Z.mul_1_r. cbn [Z.to_pos]. f_equal. lia.
  - replace (e - e') with (Zpos q) by lia. f_equal.
    change (Pos.iter xO m q) with (shift_pos q m).
    apply Pos2Z.inj. rewrite shift_pos_correct.
    change (Zpower_pos 2 q) with (2 ^ Zpos q).
    pose proof (Z.pow_pos_nonneg 2 (Zpos q) ltac:(lia) ltac:(lia)).
    rewrite Z2Pos.id; lia.
Qed.

(** An integer below 2^53 is held exactly, with a mantissa of 53
    digits. *)
Lemma of_Z_pos (a : Z) :
  0 < a < 2 ^ 53 ->
  let k := 53 - Zdigits2 a in
  0 <= k /\ 2 ^ 52 <= a * 2 ^ k < 2 ^ 53 /\
  Js.of_Z a = S754_finite false (Z.to_pos (a * 2 ^ k)) (- k).
Proof.
  intros Ha k.
  destruct a as [|p|p]; try lia.
  pose proof (digits2_pos_bounds p) as Hb.
  assert (Hd : Zpos (digits2_pos p) <= 53).
  { destruct (Z.le_gt_cases (Zpos (digits2_pos p)) 53) as [|Hgt]; [assumption|].
    assert (2 ^ 53 <= 2 ^ (Zpos (digits2_pos p) - 1)) by (apply Z.pow_le_mono_r; lia). lia. }
  assert (Hk : 0 <= k) by (unfold k; cbn [Zdigits2]; lia).
  assert (Hr : 2 ^ 52 <= Zpos p * 2 ^ k < 2 ^ 53).
  { unfold k. cbn [Zdigits2].
    replace (2 ^ 52) with (2 ^ (Zpos (digits2_pos p) - 1) * 2 ^ (53 - Zpos (digits2_pos p)))
      by (rewrite <- Z.pow_add_r by lia; f_equal; lia).
    replace (2 ^ 53) with (2 ^ Zpos (digits2_pos p) * 2 ^ (53 - Zpos (digits2_pos p)))
      by (rewrite <- Z.pow_add_r by lia; f_equal; lia).
    pose proof (Z.pow_pos_nonneg 2 (53 - Zpos (digits2_pos p)) ltac:(lia) ltac:(lia)). nia. }
  split; [exact Hk|]. split; [exact Hr|].
  unfold Js.of_Z, binary_normalize, binary_round.
  rewrite Z.add_0_r, fexp_normal by lia.
  assert (Hsh : shl_align p 0 (Zpos (digits2_pos p) - 53) = (Z.to_pos (Zpos p * 2 ^ k), - k)).
  { rewrite shl_align_spec by lia. unfold k. cbn [Zdigits2].
    replace (0 - (Zpos (digits2_pos p) - 53)) with (53 - Zpos (digits2_pos p)) by lia.
    f_equal. lia. }
  rewrite Hsh.
  assert (Hpos : 0 < Zpos p * 2 ^ k) by lia.
  destruct (Zpos p * 2 ^ k) as [|m|m] eqn:Em; try lia.
  cbn [Z.to_pos].
  assert (Hdm : Zdigits2 (Zpos m) = 53).
  { apply Zdigits2_unique; [lia|]. change (53 - 1) with 52. lia. }
  assert (Hk52 : k <= 52) by (unfold k; cbn [Zdigits2]; lia).
  pose proof (binary_round_aux_exact (Zpos m) (- k)) as H. cbv zeta in H.
  rewrite Hdm in H. change (53 - 53) with 0 in H. change (2 ^ 0) with 1 in H.
  rewrite RNE_1 in H.
  destruct H as (_ & _ & _ & Hres); try lia.
  rewrite Hres.
  destruct (Z.ltb_spec (Zpos m) (2 ^ 53)); [|lia].
  rewrite Z.add_0_r. reflexivity.
Qed.


Lemma Math_floor_pos (m : positive) (e : Z) :
  e < 0 -> Js.Math_floor (S754_finite false m e) = Js.of_Z (Zpos m / 2 ^ (- e)).
Proof.
  intros He. unfold Js.Math_floor, Js.of_Z.
  destruct (Z.leb_spec 0 e); [lia|].
  cbn [cond_Zopp]. rewrite Z.shiftr_div_pow2 by lia. reflexivity.
Qed.

Lemma to_Z_of_Z (a : Z) : 0 <= a < 2 ^ 53 -> Js.to_Z (Js.of_Z a) = Some a.
Proof.
  intros Ha. destruct (Z.eq_dec a 0) as [->|Hne]; [reflexivity|].
  destruct (of_Z_pos a ltac:(lia)) as (Hk & Hr & ->).
  set (k := 53 - Zdigits2 a) in *.
  pose proof (Z.pow_pos_nonneg 2 k ltac:(lia) Hk) as Hp.
  unfold Js.to_Z. rewrite Z2Pos.id by lia.
  destruct (Z.leb_spec 0 (- k)).
  - assert (k = 0) as -> by lia. cbn [cond_Zopp]. change (- 0) with 0.
    change (2 ^ 0) with 1. f_equal. lia.
  - replace (- - k) with k by lia.
    rewrite Z.mod_mul, Z.div_mul by lia. reflexivity.
Qed.

(** [Math.floor] of a rounded positive value with mantissa [R], or with
    mantissa [2^52] one binade up when rounding carried to [2^53]. *)
Lemma Math_floor_rounded (R e j : Z) :
  2 ^ 52 <= R <= 2 ^ 53 -> 2 <= j -> e = - j ->
  Js.Math_floor
    (if R <? 2 ^ 53 then S754_finite false (Z.to_pos R) e
     else S754_finite false (Z.to_pos (2 ^ 52)) (e + 1))
  = Js.of_Z (R / 2 ^ j).
Proof.
  intros HR Hj ->.
  destruct (Z.ltb_spec R (2 ^ 53)) as [Hlt|Hge].
  - rewrite Math_floor_pos by lia. rewrite Z2Pos.id by lia.
    replace (- - j) with j by lia. reflexivity.
  - assert (HR53 : R = 2 ^ 53) by lia.
    rewrite Math_floor_pos by lia. rewrite Z2Pos.id by lia.
    replace (- (- j + 1)) with (j - 1) by lia.
    rewrite HR53. f_equal.
    replace (2 ^ 53) with (2 ^ 52 * 2) by reflexivity.
    assert (Hj2 : 2 ^ j = 2 ^ (j - 1) * 2).
    { replace j with (j - 1 + 1) at 1 by lia. rewrite Z.pow_add_r by lia. reflexivity. }
    rewrite Hj2.
    pose proof (Z.pow_pos_nonneg 2 (j - 1) ltac:(lia) ltac:(lia)).
    rewrite Z.div_mul_cancel_r by lia. reflexivity.
Qed.

(** The integer part of a value rounded on a grid that contains the integers. *)
Lemma floor_RNE_lower (X G S N : Z) :
  0 < G -> 0 < S -> (G | S) ->
  2 * (N * S - X) < G ->
  N <= (RNE X G * G) / S.
Proof.
  intros HG HS [t Ht] Hlow.
  apply Z.div_le_lower_bound; [lia|].
  destruct (RNE_cases X G HG) as (Hlt & Hgt & Hor).
  pose proof (Z.div_mod X G ltac:(lia)) as E.
  pose proof (Z.mod_pos_bound X G HG) as B.
  assert (Ht0 : 0 < t) by nia.
  subst S.
  destruct (Z.le_gt_cases (N * t) (X / G)) as [Hle|Hgt'].
  - nia.
  - assert (N * t = X / G + 1) by nia.
    assert (G < 2 * (X mod G)) by nia.
    rewrite (Hgt H0). nia.
Qed.

Lemma floor_RNE_upper (X G S N : Z) :
  0 < G -> 0 < S ->
  G < 2 * ((N + 1) * S - X) ->
  (RNE X G * G) / S <= N.
Proof.
  intros HG HS Hup.
  enough ((RNE X G * G) / S < N + 1) by lia.
  apply Z.div_lt_upper_bound; [lia|].
  destruct (RNE_cases X G HG) as (Hlt & Hgt & Hor).
  pose proof (Z.div_mod X G ltac:(lia)) as E.
  pose proof (Z.mod_pos_bound X G HG) as B.
  destruct Hor as [-> | HR]; [nia|].
  assert (~ 2 * (X mod G) < G) by (intros Hc; specialize (Hlt Hc); lia).
  rewrite HR. nia.
Qed.

Lemma floor_RNE_tie (X G S N : Z) :
  0 < G -> 0 < S -> (G | S) ->
  2 * (N * S - X) = G -> Z.even (N * S / G) = true ->
  N <= (RNE X G * G) / S.
Proof.
  intros HG HS [t Ht] Htie Heven.
  apply Z.div_le_lower_bound; [lia|].
  assert (Ht0 : 0 < t) by nia.
  subst S. rewrite !Z.mul_assoc in *.
  rewrite Z.div_mul in Heven by lia.
  assert (Hq : X / G = N * t - 1).
  { symmetry. apply (Z.div_unique X G (N * t - 1) (N * t * G - X)); lia. }
  assert (Hm : X mod G = N * t * G - X).
  { symmetry. apply (Z.mod_unique X G (N * t - 1) (N * t * G - X)); lia. }
  unfold RNE, loc_of, round_nearest_even. rewrite Hq, Hm.
  destruct (Z.eqb_spec (N * t * G - X) 0); [lia|].
  rewrite (proj2 (Z.compare_eq_iff (2 * (N * t * G - X)) G)) by lia.
  replace (N * t - 1) with (Z.pred (N * t)) by lia.
  rewrite Z.even_pred, <- Z.negb_even, Heven. cbn. lia.
Qed.


(** Division of a 53-digit mantissa by 100. *)
Lemma Zdigits2_le (q d : Z) : 0 < q < 2 ^ d -> Zdigits2 q <= d.
Proof.
  intros Hq. rewrite Zdigits2_log2 by lia.
  assert (0 < d).
  { destruct (Z.lt_trichotomy d 0) as [Hd|[Hd|Hd]]; [|subst d; cbn in Hq; lia|lia].
    rewrite Z.pow_neg_r in Hq; lia. }
  enough (Z.log2 q < d) by lia. apply Z.log2_lt_pow2; lia.
Qed.


Lemma SFdiv_by_100 (m : positive) (k : Z) :
  2 ^ 52 <= Zpos m < 2 ^ 53 -> 0 <= k <= 52 ->
  Js.div (S754_finite false m (- k)) lit_100 =
  binary_round_aux Js.prec Js.emax false
    ((Zpos m * 2 ^ 53) / 7036874417766400) (- 7 - k)
    (loc_of (Zpos m * 2 ^ 53) 7036874417766400).
Proof.
  intros Hm Hk. unfold lit_100, Js.div, SFdiv, SFdiv_core_binary.
  rewrite (Zdigits2_unique (Zpos m) 53) by (change (53 - 1) with 52; lia).
  change (Zdigits2 7036874417766400) with 53.
  replace (53 + - k - (53 + -46)) with (46 - k) by lia.
  rewrite fexp_normal by lia.
  replace (Z.min (46 - k - 53) (- k - -46)) with (- 7 - k) by lia.
  replace (- k - -46 - (- 7 - k)) with 53 by lia.
  rewrite Z.shiftl_mul_pow2 by lia.
  unfold Z.div, Z.modulo, loc_of.
  destruct (Z.div_eucl (Zpos m * 2 ^ 53) 7036874417766400) as [q r] eqn:E.
  cbn [xorb fst snd].
  unfold new_location. change (Z.even 7036874417766400) with true.
  cbv iota. unfold new_location_even.
  unfold Z.modulo. rewrite E. reflexivity.
Qed.

(** [Math.floor(a / 100)] is the integer quotient. *)
Lemma floor_div_100 (a : Z) :
  0 < a < 2 ^ 53 ->
  Js.Math_floor (Js.div (Js.of_Z a) lit_100) = Js.of_Z (a / 100).
Proof.
  intros Ha.
  destruct (of_Z_pos a Ha) as (Hk & Hr & ->).
  set (k := 53 - Zdigits2 a) in *.
  assert (Hk52 : k <= 52).
  { unfold k. rewrite Zdigits2_log2 by lia. pose proof (Z.log2_nonneg a). lia. }
  set (P := 2 ^ k) in *.
  assert (HP : 0 < P) by (apply Z.pow_pos_nonneg; lia).
  assert (HaP : 0 < a * P) by lia.
  destruct (a * P) as [|m|m] eqn:Em; try lia. cbn [Z.to_pos].
  rewrite SFdiv_by_100 by lia.
  set (X := Zpos m * 2 ^ 53). set (D := 7036874417766400).
  assert (HD : 0 < D) by (unfold D; lia).
  assert (HX : 0 <= X) by (unfold X; lia).
  assert (Hq : 2 ^ 52 <= X / D < 2 ^ 54).
  { split.
    - apply Z.div_le_lower_bound; [lia|]. unfold X, D. lia.
    - apply Z.div_lt_upper_bound; [lia|]. unfold X, D. lia. }
  assert (Hdig : Zdigits2 (X / D) <= 54) by (apply Zdigits2_le; lia).
  destruct (binary_round_aux_spec X D (- 7 - k) HD HX ltac:(lia) ltac:(lia) ltac:(lia))
    as (Hn & Hrange & HR & ->).
  set (n := Zdigits2 (X / D) - 53) in *.
  assert (Hn1 : n <= 1) by (unfold n; lia).
  set (G := 2 ^ n * D) in *. set (R := RNE X G) in *.
  assert (HG : 0 < G) by (unfold G; pose proof (Z.pow_pos_nonneg 2 n); lia).
  set (j := 7 + k - n).
  assert (Hj : 1 <= j) by (unfold j; lia).
  set (S := D * 2 ^ (7 + k)).
  assert (HS : 0 < S) by (unfold S; pose proof (Z.pow_pos_nonneg 2 (7 + k)); lia).
  assert (HSG : S = G * 2 ^ j).
  { unfold S, G, j. replace (7 + k) with (n + (7 + k - n)) by lia.
    rewrite Z.pow_add_r by lia. replace (n + (7 + k - n) - n) with (7 + k - n) by lia. ring. }
  assert (Hpj : 0 < 2 ^ j) by (apply Z.pow_pos_nonneg; lia).
  assert (Hval : (R * G) / S = R / 2 ^ j).
  { rewrite HSG, (Z.mul_comm G (2 ^ j)). apply Z.div_mul_cancel_r; lia. }
  assert (HSP : S = 100 * 2 ^ 53 * P).
  { unfold S, D, P. replace (7 + k) with (k + 7) by lia. rewrite Z.pow_add_r by lia. lia. }
  assert (HXa : X = a * P * 2 ^ 53) by (unfold X; lia).
  assert (HGb : G <= 200 * 2 ^ 46).
  { unfold G, D. assert (n = 0 \/ n = 1) as [-> | ->] by lia; cbn; lia. }
  assert (Hres : R / 2 ^ j = a / 100).
  { rewrite <- Hval.
    pose proof (Z.div_mod a 100 ltac:(lia)) as Ea.
    pose proof (Z.mod_pos_bound a 100 ltac:(lia)) as Ba.
    apply Z.le_antisymm.
    - apply floor_RNE_upper; try assumption. rewrite HSP, HXa. nia.
    - apply floor_RNE_lower; try assumption.
      + exists (2 ^ j). lia.
      + rewrite HSP, HXa. nia. }
  rewrite (Math_floor_rounded R (- 7 - k + n) j) by (unfold j; lia).
  rewrite Hres. reflexivity.
Qed.


(** [Math.floor(b * m)] for a double [m = M / 2^52] in [[1, 2)]: it is
    an integer [r] that is at least every [N] the exact product does
    not miss by half a grid step, and at most every [N] whose successor
    is more than half a step above the exact product. *)
Lemma floor_fmul_grid (b : Z) (M : positive) :
  0 < b < 2 ^ 47 -> 2 ^ 52 <= Zpos M < 2 ^ 53 ->
  exists K G r : Z,
    64 <= K /\ 2 ^ 52 <= b * K < 2 ^ 53 /\
    2 ^ 52 <= G <= 2 ^ 53 /\ G * 2 ^ 52 = 2 ^ Z.log2 (b * Zpos M) * K /\
    0 <= r < 2 ^ 53 /\
    Js.Math_floor (Js.mul (Js.of_Z b) (S754_finite false M (-52))) = Js.of_Z r /\
    (forall N, 2 * (K * (N * 2 ^ 52 - b * Zpos M)) < G -> N <= r) /\
    (forall N, G < 2 * (K * ((N + 1) * 2 ^ 52 - b * Zpos M)) -> r <= N) /\
    (forall N, 2 * (K * (N * 2 ^ 52 - b * Zpos M)) = G ->
               Z.even (N * (K * 2 ^ 52) / G) = true -> N <= r).
Proof.
  intros Hb HM.
  set (k := 53 - Zdigits2 b). set (K := 2 ^ k).
  pose proof (of_Z_pos b ltac:(lia)) as H. cbv zeta in H. fold k in H. fold K in H.
  destruct H as (Hk & Hr & HofZ).
  assert (Hk6 : 6 <= k <= 52).
  { unfold k. pose proof (Zdigits2_le b 47 ltac:(lia)).
    rewrite Zdigits2_log2 in * by lia. pose proof (Z.log2_nonneg b). lia. }
  assert (HK : 64 <= K).
  { unfold K. change 64 with (2 ^ 6). apply Z.pow_le_mono_r; lia. }
  rewrite HofZ.
  destruct (b * K) as [|mb|mb] eqn:Emb; try lia. cbn [Z.to_pos].
  unfold Js.mul, SFmul. cbn [xorb]. rewrite Pos2Z.inj_mul.
  set (X := Zpos mb * Zpos M).
  assert (HX : 2 ^ 104 <= X < 2 ^ 106) by (unfold X; nia).
  assert (Hdhi : Zdigits2 X <= 106) by (apply Zdigits2_le; lia).
  assert (Hdlo : 105 <= Zdigits2 X).
  { rewrite Zdigits2_log2 by lia.
    enough (104 <= Z.log2 X) by lia. apply Z.log2_le_pow2; lia. }
  destruct (binary_round_aux_exact X (- k + -52) ltac:(lia) ltac:(lia) ltac:(lia))
    as (Hn & Hrange & HR & ->).
  set (n := Zdigits2 X - 53) in *.
  set (G := 2 ^ n) in *. set (R := RNE X G) in *.
  assert (HGr : 2 ^ 52 <= G <= 2 ^ 53).
  { unfold G. assert (n = 52 \/ n = 53) as [-> | ->] by lia; lia. }
  set (j := k + 52 - n).
  assert (Hj : 5 <= j) by (unfold j; lia).
  set (S := K * 2 ^ 52).
  assert (HSG : S = G * 2 ^ j).
  { unfold S, K, G, j. rewrite <- !Z.pow_add_r by lia. f_equal. lia. }
  assert (Hpj : 32 <= 2 ^ j).
  { change 32 with (2 ^ 5). apply Z.pow_le_mono_r; lia. }
  assert (Hval : (R * G) / S = R / 2 ^ j).
  { rewrite HSG, (Z.mul_comm G (2 ^ j)). apply Z.div_mul_cancel_r; lia. }
  assert (HXb : X = K * (b * Zpos M)) by (unfold X; lia).
  assert (HGlog : G * 2 ^ 52 = 2 ^ Z.log2 (b * Zpos M) * K).
  { assert (HbM : 0 < b * Zpos M) by lia.
    assert (Hlog : Z.log2 X = k + Z.log2 (b * Zpos M)).
    { rewrite HXb, Z.mul_comm. unfold K. apply Z.log2_mul_pow2; lia. }
    pose proof (Z.log2_nonneg (b * Zpos M)) as Hl0.
    assert (Hn' : n = k + Z.log2 (b * Zpos M) - 52).
    { unfold n. rewrite Zdigits2_log2, Hlog by lia. lia. }
    unfold G, K. rewrite <- !Z.pow_add_r by lia. f_equal. lia. }
  exists K, G, (R / 2 ^ j).
  split; [exact HK|]. split; [lia|]. split; [exact HGr|]. split; [exact HGlog|]. split.
  { split; [apply Z.div_pos; lia|]. apply Z.div_lt_upper_bound; lia. }
  split.
  { apply (Math_floor_rounded R (- k + -52 + n) j); unfold j; lia. }
  split; [|split].
  - intros N HN. rewrite <- Hval.
    apply floor_RNE_lower; try lia; exists (2 ^ j); lia.
  - intros N HN. rewrite <- Hval.
    apply floor_RNE_upper; lia.
  - intros N HN Heven. rewrite <- Hval.
    apply floor_RNE_tie; try lia; try (exists (2 ^ j); lia); exact Heven.
Qed.


(** The four multipliers. *)
Lemma floor_fmul_1_1 (b : Z) : 0 < b < 2 ^ 47 ->
  Js.Math_floor (Js.mul (Js.of_Z b) lit_1_1) = Js.of_Z (11 * b / 10).
Proof.
  intros Hb. unfold lit_1_1.
  destruct (floor_fmul_grid b 4953959590107546%positive Hb ltac:(lia))
    as (K & G & r & HK & HbK & HG & _ & Hr & -> & Hlo & Hhi & _).
  f_equal.
  pose proof (Z.div_mod (11 * b) 10 ltac:(lia)) as E.
  pose proof (Z.mod_pos_bound (11 * b) 10 ltac:(lia)) as B.
  apply Z.le_antisymm.
  - apply Hhi. nia.
  - apply Hlo. nia.
Qed.

Lemma floor_fmul_1_7 (b : Z) : 0 < b < 2 ^ 47 ->
  Js.Math_floor (Js.mul (Js.of_Z b) lit_1_7) = Js.of_Z (17 * b / 10).
Proof.
  intros Hb. unfold lit_1_7.
  destruct (floor_fmul_grid b 7656119366529843%positive Hb ltac:(lia))
    as (K & G & r & HK & HbK & HG & _ & Hr & -> & Hlo & Hhi & _).
  f_equal.
  pose proof (Z.div_mod (17 * b) 10 ltac:(lia)) as E.
  pose proof (Z.mod_pos_bound (17 * b) 10 ltac:(lia)) as B.
  apply Z.le_antisymm.
  - apply Hhi. nia.
  - apply Hlo. nia.
Qed.

Lemma floor_fmul_1_0 (b : Z) : 0 < b < 2 ^ 47 ->
  Js.Math_floor (Js.mul (Js.of_Z b) lit_1_0) = Js.of_Z b.
Proof.
  intros Hb. unfold lit_1_0.
  destruct (floor_fmul_grid b 4503599627370496%positive Hb ltac:(lia))
    as (K & G & r & HK & HbK & HG & _ & Hr & -> & Hlo & Hhi & _).
  f_equal.
  apply Z.le_antisymm.
  - apply Hhi. nia.
  - apply Hlo. nia.
Qed.

Lemma pow2_mod_7 (e : Z) : 0 <= e -> 2 ^ e mod 7 <> 0.
Proof.
  intros He. pattern e. apply natlike_ind; [discriminate| |exact He].
  clear e He. intros e He IH. rewrite Z.pow_succ_r by lia.
  pose proof (Z.div_mod (2 ^ e) 7 ltac:(lia)).
  pose proof (Z.mod_pos_bound (2 ^ e) 7 ltac:(lia)).
  pose proof (Z.div_mod (2 * 2 ^ e) 7 ltac:(lia)).
  pose proof (Z.mod_pos_bound (2 * 2 ^ e) 7 ltac:(lia)).
  lia.
Qed.

Lemma floor_fmul_1_4 (b : Z) : 0 < b < 2 ^ 47 ->
  Js.Math_floor (Js.mul (Js.of_Z b) lit_1_4)
  = Js.of_Z (14 * b / 10 - (if loyalShort b then 1 else 0)).
Proof.
  intros Hb. unfold lit_1_4.
  destruct (floor_fmul_grid b 6305039478318694%positive Hb ltac:(lia))
    as (K & G & r & HK & HbK & HG & HGlog & Hr & -> & Hlo & Hhi & Htie).
  f_equal. unfold loyalShort.
  pose proof (Z.div_mod (14 * b) 10 ltac:(lia)) as E.
  pose proof (Z.mod_pos_bound (14 * b) 10 ltac:(lia)) as B.
  destruct (Z.eqb_spec (b mod 5) 0) as [H5|H5]; cbn [andb].
  2:{ rewrite Z.sub_0_r. clear HGlog Htie.
      assert (Hup : r <= 14 * b / 10) by (apply Hhi; nia).
      assert (2 <= (14 * b) mod 10).
      { pose proof (Z.div_mod b 5 ltac:(lia)).
        pose proof (Z.mod_pos_bound b 5 ltac:(lia)). lia. }
      apply Z.le_antisymm; [exact Hup|]. apply Hlo. nia. }
  clear E B.
  assert (Hbk : b = 5 * (b / 5)).
  { pose proof (Z.div_mod b 5 ltac:(lia)). lia. }
  set (k := b / 5) in *. clearbody k. clear H5. subst b.
  assert (Hk : 0 < k < 2 ^ 47) by lia.
  assert (HN : 14 * (5 * k) / 10 = 7 * k).
  { replace (14 * (5 * k)) with (7 * k * 10) by lia. apply Z.div_mul. lia. }
  rewrite HN.
  set (e := Z.log2 (7 * k)) in *.
  assert (He : 0 <= e) by apply Z.log2_nonneg.
  destruct (Z.log2_spec (7 * k) ltac:(lia)) as [Hlo7 Hhi7]. fold e in Hlo7, Hhi7.
  rewrite Z.pow_succ_r in Hhi7 by lia.
  pose proof (pow2_mod_7 e He) as Hm.
  set (P := 2 ^ e) in *.
  assert (HP7 : P <> 7 * k).
  { intros HP. rewrite HP, Z.mul_comm, Z.mod_mul in Hm; lia. }
  assert (Hlog : Z.log2 (5 * k * 6305039478318694) = e + 52).
  { apply Z.log2_unique; [lia|].
    replace (Z.succ (e + 52)) with (Z.succ e + 52) by lia.
    rewrite !Z.pow_add_r, Z.pow_succ_r by lia. fold P. lia. }
  rewrite Hlog, Z.pow_add_r in HGlog by lia. fold P in HGlog.
  assert (HGP : G = P * K) by lia.
  clear HGlog Hlog HbK Hb HN. subst G.
  assert (HkK : 0 < k * K) by (apply Z.mul_pos_pos; lia).
  assert (HPK : P * K <= 2 ^ 50 * K) by (apply Z.mul_le_mono_nonneg_r; lia).
  assert (HkK' : 4 * k * K <= 2 ^ 50 * K) by (apply Z.mul_le_mono_nonneg_r; lia).
  destruct (Z.ltb_spec P (4 * k)) as [Hshort|Hfull].
  - assert (P * K < 4 * k * K) by (apply Z.mul_lt_mono_pos_r; lia).
    apply Z.le_antisymm; [apply Hhi; lia|apply Hlo; lia].
  - rewrite Z.sub_0_r. apply Z.le_antisymm; [apply Hhi; lia|].
    destruct (Z.eq_dec P (4 * k)) as [Htie4|Hne].
    + apply Htie; [rewrite Htie4; lia|].
      replace (7 * k * (K * 2 ^ 52)) with (7 * 2 ^ 50 * (P * K)) by (rewrite Htie4; lia).
      rewrite Z.div_mul by lia. reflexivity.
    + assert (4 * k * K < P * K) by (apply Z.mul_lt_mono_pos_r; lia).
      apply Hlo. lia.
Qed.



(** Adding one to an integer, and printing it. *)
Lemma Zdigits2_mul_pow2 (p j : Z) : 0 < p -> 0 <= j -> Zdigits2 (p * 2 ^ j) = Zdigits2 p + j.
Proof.
  intros Hp Hj.
  pose proof (Zdigits2_log2 p Hp) as Hd.
  destruct (Z.log2_spec p Hp) as [Hlo Hhi].
  pose proof (Z.log2_nonneg p) as Hl0.
  pose proof (Z.pow_pos_nonneg 2 j ltac:(lia) Hj) as Hpj.
  apply Zdigits2_unique; [lia|].
  rewrite Hd.
  replace (Z.log2 p + 1 + j - 1) with (Z.log2 p + j) by lia.
  replace (Z.log2 p + 1 + j) with (Z.succ (Z.log2 p) + j) by lia.
  rewrite !Z.pow_add_r by lia. nia.
Qed.

Lemma add_1 (n : Z) :
  0 <= n -> n + 1 < 2 ^ 53 -> Js.add (Js.of_Z n) (Js.of_Z 1) = Js.of_Z (n + 1).
Proof.
  intros Hn Hn1. destruct (Z.eq_dec n 0) as [->|Hne]; [reflexivity|].
  pose proof (of_Z_pos n ltac:(lia)) as H. cbv zeta in H.
  set (k := 53 - Zdigits2 n) in *. destruct H as (Hk & Hr & ->).
  assert (Hk52 : k <= 52).
  { unfold k. rewrite Zdigits2_log2 by lia. pose proof (Z.log2_nonneg n). lia. }
  pose proof (of_Z_pos (n + 1) ltac:(lia)) as H. cbv zeta in H.
  set (k' := 53 - Zdigits2 (n + 1)) in *. destruct H as (Hk' & Hr' & ->).
  assert (Hk52' : k' <= 52).
  { unfold k'. rewrite Zdigits2_log2 by lia. pose proof (Z.log2_nonneg (n + 1)). lia. }
  pose proof (Z.pow_pos_nonneg 2 k ltac:(lia) Hk) as Hpk.
  destruct (n * 2 ^ k) as [|m|m] eqn:Em; try lia. cbn [Z.to_pos].
  change (Js.of_Z 1) with (S754_finite false 4503599627370496 (-52)).
  unfold Js.add, SFadd.
  replace (Z.min (- k) (-52)) with (-52) by lia.
  rewrite !shl_align_spec by lia. cbn [fst cond_Zopp].
  replace (-52 - -52) with 0 by lia. rewrite Z.mul_1_r.
  replace (- k - -52) with (52 - k) by lia.
  pose proof (Z.pow_pos_nonneg 2 (52 - k) ltac:(lia) ltac:(lia)) as Hp52.
  rewrite Z2Pos.id by lia. cbn [Z.to_pos].
  assert (Hsum : Zpos m * 2 ^ (52 - k) + 4503599627370496 = (n + 1) * 2 ^ 52).
  { rewrite <- Em, <- Z.mul_assoc, <- Z.pow_add_r by lia.
    replace (k + (52 - k)) with 52 by lia. lia. }
  rewrite Hsum.
  assert (Hdig : Zdigits2 ((n + 1) * 2 ^ 52) = Zdigits2 (n + 1) + 52)
    by (apply Zdigits2_mul_pow2; lia).
  assert (Hd1 : 1 <= Zdigits2 (n + 1)).
  { rewrite Zdigits2_log2 by lia. pose proof (Z.log2_nonneg (n + 1)). lia. }
  destruct ((n + 1) * 2 ^ 52) as [|p|p] eqn:Ep; try lia.
  unfold binary_normalize, binary_round.
  change (Zpos (digits2_pos p)) with (Zdigits2 (Zpos p)). rewrite Hdig.
  rewrite fexp_normal by lia.
  assert (Hsh : shl_align p (-52) (Zdigits2 (n + 1) + 52 + -52 - 53) = (p, -52)).
  { unfold shl_align.
    destruct (Zdigits2 (n + 1) + 52 + -52 - 53 - -52) eqn:E; try reflexivity. lia. }
  rewrite Hsh.
  pose proof (binary_round_aux_exact (Zpos p) (-52)) as H. cbv zeta in H.
  rewrite Hdig in H.
  replace (Zdigits2 (n + 1) + 52 - 53) with (52 - k') in H by (unfold k'; lia).
  assert (Hpk' : 0 < 2 ^ k') by (apply Z.pow_pos_nonneg; lia).
  assert (Hp52' : 0 < 2 ^ (52 - k')) by (apply Z.pow_pos_nonneg; lia).
  assert (Hsplit : Zpos p = ((n + 1) * 2 ^ k') * 2 ^ (52 - k')).
  { rewrite <- Ep, <- Z.mul_assoc, <- Z.pow_add_r by lia.
    replace (k' + (52 - k')) with 52 by lia. reflexivity. }
  assert (HR : RNE (Zpos p) (2 ^ (52 - k')) = (n + 1) * 2 ^ k').
  { unfold RNE, loc_of. rewrite Hsplit, Z.mod_mul, Z.div_mul by lia. reflexivity. }
  rewrite HR in H.
  destruct H as (_ & _ & _ & Hres); try lia.
  rewrite Hres.
  destruct (Z.ltb_spec ((n + 1) * 2 ^ k') (2 ^ 53)); [|lia].
  f_equal. lia.
Qed.

Lemma String_of_number_of_Z (n : Z) :
  0 <= n < 2 ^ 53 -> Js.String_of_number (Js.of_Z n) = Js.String_of_Z n.
Proof.
  intros Hn. pose proof (to_Z_of_Z n Hn) as Hz.
  destruct (Z.eq_dec n 0) as [->|Hne]; [reflexivity|].
  destruct (of_Z_pos n ltac:(lia)) as (_ & _ & E).
  rewrite E in *. unfold Js.String_of_number. rewrite Hz. reflexivity.
Qed.

(** * Facts about strings and the order of rows *)

Lemma String_compare_refl (a : string) : String.compare a a = Eq.
Proof.
  induction a as [|x a IH]; cbn; [reflexivity|].
  unfold Ascii.compare. rewrite N.compare_refl. exact IH.
Qed.

Lemma String_compare_lt_trans (a b c : string) :
  String.compare a b = Lt -> String.compare b c = Lt -> String.compare a c = Lt.
Proof.
  revert b c. induction a as [|x a IH]; intros [|y b] [|z c]; cbn; try discriminate; auto.
  unfold Ascii.compare.
  destruct (N.compare_spec (N_of_ascii x) (N_of_ascii y)) as [Exy|Lxy|Gxy]; try discriminate;
    destruct (N.compare_spec (N_of_ascii y) (N_of_ascii z)) as [Eyz|Lyz|Gyz]; try discriminate;
    intros H1 H2.
  - rewrite Exy, Eyz, N.compare_refl. eauto.
  - rewrite Exy. apply N.compare_lt_iff in Lyz. rewrite Lyz. reflexivity.
  - rewrite <- Eyz. apply N.compare_lt_iff in Lxy. rewrite Lxy. reflexivity.
  - assert (L : (N_of_ascii x < N_of_ascii z)%N) by lia.
    apply N.compare_lt_iff in L. rewrite L. reflexivity.
Qed.

Lemma String_ltb_irrefl (a : string) : String.ltb a a = false.
Proof. unfold String.ltb. rewrite String_compare_refl. reflexivity. Qed.

(** Above a smaller string nothing new is above: if [a < b] and [c] is
    not above [a], then [c] is not above [b]. *)
Lemma String_ltb_le_trans (a b c : string) :
  String.ltb a b = true -> String.ltb a c = false -> String.ltb b c = false.
Proof.
  unfold String.ltb. intros Hab Hac.
  destruct (String.compare a b) eqn:Eab; try discriminate.
  destruct (String.compare b c) eqn:Ebc; try reflexivity.
  rewrite (String_compare_lt_trans a b c Eab Ebc) in Hac. discriminate.
Qed.

(** [findLast] returns a row no other row exceeds. *)
Lemma findLast_cons {A} (col : A -> string) (r : A) (rest : list A) :
  findLast col (r :: rest) =
    match findLast col rest with
    | None => Some r
    | Some best => if String.ltb (col best) (col r) then Some r else Some best
    end.
Proof. reflexivity. Qed.

Lemma findLast_nil_iff {A} (col : A -> string) (rows : list A) :
  findLast col rows = None <-> rows = [].
Proof.
  destruct rows as [|r rest]; [split; reflexivity|].
  rewrite findLast_cons. split; [|discriminate].
  destruct (findLast col rest) as [best|]; [|discriminate].
  destruct (String.ltb (col best) (col r)); discriminate.
Qed.

Lemma findLast_spec {A} (col : A -> string) (rows : list A) (best : A) :
  findLast col rows = Some best ->
  best ∈ rows /\ forall r, r ∈ rows -> String.ltb (col best) (col r) = false.
Proof.
  revert best. induction rows as [|r rest IH]; intros best; [discriminate|].
  rewrite findLast_cons.
  destruct (findLast col rest) as [b0|] eqn:E.
  - destruct (IH b0 eq_refl) as [Hin Hmax].
    destruct (String.ltb (col b0) (col r)) eqn:Hlt; intros [= <-].
    + split; [left|]. intros r' Hr'. apply elem_of_cons in Hr' as [->|Hr'].
      * apply String_ltb_irrefl.
      * eapply String_ltb_le_trans; eauto.
    + split; [right; exact Hin|]. intros r' Hr'. apply elem_of_cons in Hr' as [->|Hr']; auto.
  - intros [= <-]. apply findLast_nil_iff in E. subst rest.
    split; [left|]. intros r' Hr'. apply elem_of_cons in Hr' as [->|Hr'].
    + apply String_ltb_irrefl.
    + inversion Hr'.
Qed.

Lemma lastCoupon_None (st : Store) : lastCoupon st = None <-> coupons st = ∅.
Proof.
  unfold lastCoupon. rewrite findLast_nil_iff. apply map_to_list_empty_iff.
Qed.

Lemma lastCoupon_Some (st : Store) (code : string) (c : Coupon) :
  lastCoupon st = Some (code, c) ->
  coupons st !! code = Some c /\
  forall code' c', coupons st !! code' = Some c' -> String.ltb code code' = false.
Proof.
  unfold lastCoupon. intros H. apply findLast_spec in H as [Hin Hmax].
  split; [apply elem_of_map_to_list in Hin; exact Hin|].
  intros code' c' H'. apply (Hmax (code', c')). apply elem_of_map_to_list. exact H'.
Qed.

(** * Facts about signs *)

(** Rounding, division, multiplication and [Math.floor] keep a clear
    sign bit. *)
Lemma binary_round_aux_unsigned (m e : Z) (l : location) :
  unsigned (binary_round_aux Js.prec Js.emax false m e l).
Proof.
  unfold binary_round_aux.
  destruct (shr_fexp Js.prec Js.emax m e l) as [mrs' e'].
  destruct (shr_fexp Js.prec Js.emax _ e' loc_Exact) as [mrs'' e''].
  destruct (shr_m mrs''); cbn; auto.
  destruct (e'' <=? Js.emax - Js.prec); cbn; auto.
Qed.

Lemma of_Z_unsigned (z : Z) : 0 <= z -> unsigned (Js.of_Z z).
Proof.
  intros Hz. unfold Js.of_Z, binary_normalize. destruct z as [|p|p]; [exact I| |lia].
  unfold binary_round. destruct (shl_align p 0 _) as [mz ez].
  apply binary_round_aux_unsigned.
Qed.

Lemma Math_floor_unsigned (x : Js.number) : unsigned x -> unsigned (Js.Math_floor x).
Proof.
  destruct x as [s|s| |s m e]; cbn; auto.
  destruct s; [tauto|]. intros _.
  destruct (0 <=? e); [exact I|]. cbn [cond_Zopp].
  apply (of_Z_unsigned (Z.shiftr (Zpos m) (- e))). apply Z.shiftr_nonneg. lia.
Qed.

Lemma div_unsigned (x : Js.number) (m : positive) (e : Z) :
  unsigned x -> unsigned (Js.div x (S754_finite false m e)).
Proof.
  destruct x as [s|s| |s mx ex]; cbn; auto.
  - destruct s; cbn; tauto.
  - destruct s; [tauto|]. intros _.
    destruct (SFdiv_core_binary Js.prec Js.emax (Zpos mx) ex (Zpos m) e) as [[mz ez] lz].
    apply binary_round_aux_unsigned.
Qed.

Lemma mul_unsigned (x : Js.number) (m : positive) (e : Z) :
  unsigned x -> unsigned (Js.mul x (S754_finite false m e)).
Proof.
  destruct x as [s|s| |s mx ex]; cbn; auto.
  - destruct s; cbn; tauto.
  - destruct s; [tauto|]. intros _. apply binary_round_aux_unsigned.
Qed.

Lemma to_Z_unsigned (x : Js.number) (z : Z) : unsigned x -> Js.to_Z x = Some z -> 0 <= z.
Proof.
  destruct x as [s|s| |s m e]; cbn; try discriminate.
  - intros _ [= <-]. lia.
  - destruct s; [tauto|]. intros _. cbn [cond_Zopp].
    destruct (0 <=? e) eqn:He.
    + intros [= <-]. apply Z.leb_le in He. pose proof (Z.pow_nonneg 2 e ltac:(lia)). lia.
    + destruct (Zpos m mod 2 ^ (- e) =? 0); [|discriminate].
      intros [= <-]. apply Z.div_pos; [lia|]. apply Z.pow_pos_nonneg; lia.
Qed.

(** * Facts about [calculatePoints] *)

(** [multipliers[role] || 1.0], case by case. *)
Lemma multiplier_cases (role : string) :
  Js.or_else (Js.get multipliers role) lit_1_0 =
    if String.eqb role "NORMAL" then Js.Number lit_1_1
    else if String.eqb role "LOYAL" then Js.Number lit_1_4
    else if String.eqb role "OWNER" then Js.Number lit_1_7
    else if String.eqb role "ADMIN" then Js.Number lit_1_0
    else if bool_decide (role ∈ Js.Object_prototype) then Js.Inherited
    else Js.Number lit_1_0.
Proof.
  destruct (String.eqb_spec role "NORMAL") as [->|H1]; [reflexivity|].
  destruct (String.eqb_spec role "LOYAL") as [->|H2]; [reflexivity|].
  destruct (String.eqb_spec role "OWNER") as [->|H3]; [reflexivity|].
  destruct (String.eqb_spec role "ADMIN") as [->|H4]; [reflexivity|].
  unfold Js.get, multipliers. cbn [list_to_map foldr curry fst snd uncurry].
  rewrite !lookup_insert_ne, lookup_empty by congruence.
  destruct (bool_decide (role ∈ Js.Object_prototype)); reflexivity.
Qed.

(** Closes [x ∉ l] for a closed string [x] and a closed list [l]. *)
Ltac not_listed :=
  vm_compute; let H := fresh in
  intros H; repeat (let H' := fresh in inversion H as [|? ? ? H']; subst; clear H; rename H' into H).

Lemma Role_name_own (r : Role) : Role_name r ∉ Js.Object_prototype.
Proof. destruct r; not_listed. Qed.

Lemma calculatePoints_base (a : Z) (role : string) :
  0 < a < 2 ^ 53 ->
  calculatePoints (Js.of_Z a) role =
  Js.Math_floor (Js.times (Js.of_Z (a / 100)) (Js.or_else (Js.get multipliers role) lit_1_0)).
Proof. intros Ha. unfold calculatePoints. rewrite floor_div_100 by lia. reflexivity. Qed.

Lemma base_range (a : Z) : 0 < a < 2 ^ 53 -> 0 <= a / 100 < 2 ^ 47.
Proof.
  intros Ha. split; [apply Z.div_pos; lia|]. apply Z.div_lt_upper_bound; lia.
Qed.

(** What [calculatePoints] returns for an integral amount, against the
    exact rule. *)
Lemma calculatePoints_value (a : Z) (role : string) :
  0 < a < 2 ^ 53 -> role ∉ Js.Object_prototype ->
  exists p : Z,
    calculatePoints (Js.of_Z a) role = Js.of_Z p /\
    0 <= p < 2 ^ 53 /\
    (role <> "LOYAL" -> p = pointsForPurchase a role) /\
    (role = "LOYAL" ->
       p = pointsForPurchase a role - (if loyalShort (a / 100) then 1 else 0)).
Proof.
  intros Ha Hrole. rewrite calculatePoints_base by lia.
  pose proof (base_range a Ha) as Hb. set (b := a / 100) in *.
  rewrite multiplier_cases. unfold pointsForPurchase, tenths. fold b.
  destruct (Z.eq_dec b 0) as [Hb0|Hb0].
  { exists 0. rewrite Hb0.
    split.
    - destruct (String.eqb role "NORMAL"); [reflexivity|].
      destruct (String.eqb role "LOYAL"); [reflexivity|].
      destruct (String.eqb role "OWNER"); [reflexivity|].
      destruct (String.eqb role "ADMIN"); [reflexivity|].
      rewrite bool_decide_eq_false_2 by exact Hrole. reflexivity.
    - split; [lia|]. split; intros _.
      + rewrite Z.mul_0_l. reflexivity.
      + rewrite Z.mul_0_l. reflexivity. }
  assert (Hbpos : 0 < b < 2 ^ 47) by lia.
  destruct (String.eqb_spec role "NORMAL") as [->|H1].
  { exists (11 * b / 10). cbn [Js.times]. rewrite floor_fmul_1_1 by lia.
    split; [reflexivity|]. split.
    - split; [apply Z.div_pos; lia|]. apply Z.div_lt_upper_bound; lia.
    - split; [intros _; f_equal; lia|discriminate]. }
  destruct (String.eqb_spec role "LOYAL") as [->|H2].
  { exists (14 * b / 10 - (if loyalShort b then 1 else 0)).
    cbn [Js.times]. rewrite floor_fmul_1_4 by lia.
    assert (1 <= 14 * b / 10 < 2 ^ 53).
    { split; [apply Z.div_le_lower_bound; lia|apply Z.div_lt_upper_bound; lia]. }
    split; [reflexivity|]. split; [destruct (loyalShort b); lia|].
    split; [congruence|]. intros _. do 2 f_equal. lia. }
  destruct (String.eqb_spec role "OWNER") as [->|H3].
  { exists (17 * b / 10). cbn [Js.times]. rewrite floor_fmul_1_7 by lia.
    split; [reflexivity|]. split.
    - split; [apply Z.div_pos; lia|]. apply Z.div_lt_upper_bound; lia.
    - split; [intros _; f_equal; lia|discriminate]. }
  assert (Hone : Js.Math_floor (Js.times (Js.of_Z b)
            (if String.eqb role "ADMIN" then Js.Number lit_1_0
             else if bool_decide (role ∈ Js.Object_prototype) then Js.Inherited
                  else Js.Number lit_1_0)) = Js.of_Z b).
  { rewrite bool_decide_eq_false_2 by exact Hrole.
    destruct (String.eqb role "ADMIN"); cbn [Js.times]; apply floor_fmul_1_0; lia. }
  exists b. rewrite Hone. split; [reflexivity|]. split; [lia|].
  split; [intros _|congruence].
  rewrite Z.div_mul by lia. reflexivity.
Qed.

(** For a role named like an inherited property the product is NaN. *)
Lemma calculatePoints_inherited (amount : Js.number) (role : string) :
  role ∈ Js.Object_prototype -> calculatePoints amount role = Js.NaN.
Proof.
  intros Hrole. unfold calculatePoints. rewrite multiplier_cases.
  assert (role <> "NORMAL" /\ role <> "LOYAL" /\ role <> "OWNER" /\ role <> "ADMIN") as (H1 & H2 & H3 & H4).
  { repeat split; intros ->; revert Hrole; not_listed. }
  apply String.eqb_neq in H1, H2, H3, H4. rewrite H1, H2, H3, H4.
  rewrite bool_decide_eq_true_2 by exact Hrole. reflexivity.
Qed.

(** Whatever the amount, the points earned are not negative. *)
Lemma calculatePoints_unsigned (a : Z) (role : string) :
  0 <= a -> unsigned (calculatePoints (Js.of_Z a) role).
Proof.
  intros Ha. unfold calculatePoints. apply Math_floor_unsigned.
  assert (Hbase : unsigned (Js.Math_floor (Js.div (Js.of_Z a) lit_100))).
  { apply Math_floor_unsigned. unfold lit_100. apply div_unsigned, of_Z_unsigned, Ha. }
  rewrite multiplier_cases.
  repeat match goal with
         | |- context [if ?c then _ else _] => destruct c
         end; cbn [Js.times]; try exact I;
    first [apply (mul_unsigned _ _ _ Hbase)].
Qed.

Lemma calculatePoints_nonneg (a pts : Z) (role : string) :
  0 <= a -> Js.to_Z (calculatePoints (Js.of_Z a) role) = Some pts -> 0 <= pts.
Proof. intros Ha. apply to_Z_unsigned, calculatePoints_unsigned, Ha. Qed.

(** For a stored role and an amount below 2^53 the points earned are an
    integer. *)
Lemma calculatePoints_Role (a : Z) (r : Role) :
  0 < a < 2 ^ 53 ->
  exists p : Z, Js.to_Z (calculatePoints (Js.of_Z a) (Role_name r)) = Some p /\ 0 <= p.
Proof.
  intros Ha.
  destruct (calculatePoints_value a (Role_name r) Ha (Role_name_own r)) as (p & -> & Hp & _).
  exists p. split; [apply to_Z_of_Z; lia|lia].
Qed.

(** * The claims *)

(** ** C1: points for a purchase *)

Example calculatePoints_2500 :
  calculatePoints (Js.of_Z 2500) "NORMAL" = Js.of_Z 27 /\
  calculatePoints (Js.of_Z 2500) "LOYAL" = Js.of_Z 35 /\
  calculatePoints (Js.of_Z 2500) "OWNER" = Js.of_Z 42.
Proof. repeat split; vm_compute; reflexivity. Qed.

Lemma calculatePoints_99 (role : string) :
  role ∉ Js.Object_prototype -> calculatePoints (Js.of_Z 99) role = Js.of_Z 0.
Proof.
  intros Hrole.
  destruct (calculatePoints_value 99 role ltac:(lia) Hrole) as (p & -> & Hp & Hne & Heq).
  f_equal. destruct (String.eqb_spec role "LOYAL") as [E|E].
  - rewrite (Heq E), E. reflexivity.
  - rewrite (Hne E). unfold pointsForPurchase. change (99 / 100) with 0.
    rewrite Z.mul_0_l. reflexivity.
Qed.

Example calculatePoints_constructor :
  calculatePoints (Js.of_Z 99) "constructor" = Js.NaN.
Proof. vm_compute. reflexivity. Qed.

(** C1, counterexample: for amount 4500 and role LOYAL the code returns
    62, while floor(floor(4500 / 100) * 1.4) is 63. *)
Lemma C1_loyal_4500 :
  Js.to_Z (calculatePoints (Js.of_Z 4500) "LOYAL") = Some 62 /\
  pointsForPurchase 4500 "LOYAL" = 63.
Proof. split; vm_compute; reflexivity. Qed.

(** C1, as amended: for every integral amount between 1 and 2^53 and
    every role that is not a property name inherited from
    [Object.prototype], [calculatePoints] returns the integer part of
    the binary64 product of [b = floor(amount / 100)] and the double
    nearest to the role's multiplier (1.0 for an unrecognised role).
    That integer is [floor(b * m)] for every role but LOYAL; for LOYAL
    it is [floor(b * 1.4)], less one exactly when [b = 5 k] and [4 k]
    is above the largest power of two up to [7 k]. *)
Theorem C1_calculatePoints_binary64 (amount : Z) (role : string) :
  0 < amount < 2 ^ 53 -> role ∉ Js.Object_prototype ->
  exists p : Z,
    calculatePoints (Js.of_Z amount) role = Js.of_Z p /\
    Js.of_Z p =
      Js.Math_floor
        (Js.times (Js.of_Z (amount / 100)) (Js.or_else (Js.get multipliers role) lit_1_0)) /\
    Js.to_Z (calculatePoints (Js.of_Z amount) role) = Some p /\
    0 <= p /\
    (role <> "LOYAL" -> p = pointsForPurchase amount role) /\
    (role = "LOYAL" ->
       p = pointsForPurchase amount role - (if loyalShort (amount / 100) then 1 else 0)) /\
    pointsForPurchase amount role - 1 <= p <= pointsForPurchase amount role.
Proof.
  intros Ha Hrole.
  destruct (calculatePoints_value amount role Ha Hrole) as (p & E & Hp & Hne & Heq).
  exists p. split; [exact E|]. split; [rewrite <- E; apply calculatePoints_base; lia|].
  split; [rewrite E; apply to_Z_of_Z; lia|]. split; [lia|].
  split; [exact Hne|]. split; [exact Heq|].
  destruct (String.eqb_spec role "LOYAL") as [Hl|Hl].
  - rewrite (Heq Hl). destruct (loyalShort (amount / 100)); lia.
  - rewrite (Hne Hl). lia.
Qed.

Lemma C1_calculatePoints_binary64_witness :
  0 < 2500 < 2 ^ 53 /\ ("NORMAL" ∉ Js.Object_prototype) /\
  exists p : Z,
    calculatePoints (Js.of_Z 2500) "NORMAL" = Js.of_Z p /\
    Js.to_Z (calculatePoints (Js.of_Z 2500) "NORMAL") = Some p /\
    p = 27.
Proof.
  assert (Ha : 0 < 2500 < 2 ^ 53) by lia.
  assert (Hrole : "NORMAL" ∉ Js.Object_prototype) by not_listed.
  split; [exact Ha|]. split; [exact Hrole|].
  destruct (C1_calculatePoints_binary64 2500 "NORMAL" Ha Hrole)
    as (p & E & _ & Hz & _ & Hne & _).
  exists p. split; [exact E|]. split; [exact Hz|].
  rewrite Hne by discriminate. reflexivity.
Defined.

(** ** C2 and C3: the role written when a purchase is recorded *)

(** The written role is lower than the current one exactly for an OWNER
    whose new visit count is between 20 and 49, and an ADMIN stops being
    one from 20 visits on. *)
Lemma roleAfterVisit_lowers (r : Role) (n : Z) :
  ~ notLower r (roleAfterVisit r n) <->
  (r = OWNER /\ 20 <= n < 50) \/ (r = ADMIN /\ 20 <= n).
Proof.
  unfold roleAfterVisit, notLower.
  destruct (Z.leb_spec 50 n), (Z.leb_spec 20 n), r; cbn;
    intuition (try discriminate; try lia).
Qed.

(** C2, at the failing input: the seeded customer CUST003 is an OWNER
    with 45 visits; the next purchase makes the visit count 46 and the
    role LOYAL, which is lower in the order NORMAL < LOYAL < OWNER. *)
Theorem C2_owner_downgraded :
  roleAfterVisit OWNER 46 = LOYAL /\
  ~ notLower OWNER (roleAfterVisit OWNER 46) /\
  role <$> (customers (seed plain) !! "id-3") = Some OWNER /\
  role <$> (customers
              (snd (createPurchase env2026
                      {| forCustomer := "id-3"; paid := 2500; receipt := None |}
                      (seed plain))) !! "id-3") = Some LOYAL.
Proof.
  split; [reflexivity|]. split; [cbn; lia|]. split; vm_compute; reflexivity.
Qed.

(** C3, at the failing input: an ADMIN whose visit count reaches 20
    becomes LOYAL, where the rule of the specification keeps ADMIN; for
    the three customer tiers the code and the rule agree at every visit
    count. *)
Theorem C3_admin_promoted :
  roleAfterVisit ADMIN 20 = LOYAL /\
  roleAfterVisit_spec ADMIN 20 = ADMIN /\
  roleAfterVisit NORMAL 19 = NORMAL /\
  roleAfterVisit NORMAL 20 = LOYAL /\
  forall n : Z,
    roleAfterVisit NORMAL n = roleAfterVisit_spec NORMAL n /\
    roleAfterVisit LOYAL n = roleAfterVisit_spec LOYAL n /\
    roleAfterVisit OWNER n = roleAfterVisit_spec OWNER n /\
    roleAfterVisit ADMIN n =
      (if 50 <=? n then OWNER else if 20 <=? n then LOYAL else ADMIN).
Proof. repeat split; reflexivity. Qed.

(** ** C4: creating a coupon *)

Lemma createCoupon_gate_open (user : User) (customerId : string) :
  userRole user = "ADMIN" \/ userId user = customerId ->
  negb (String.eqb (userRole user) "ADMIN") && negb (String.eqb (userId user) customerId)
  = false.
Proof.
  intros [H|H]; rewrite H, String.eqb_refl; cbn; [reflexivity|].
  apply andb_false_r.
Qed.

Lemma createCoupon_insufficient (env : Env) (user : User) (customerId : string)
    (st : Store) (customer : Customer) :
  userRole user = "ADMIN" \/ userId user = customerId ->
  customers st !! customerId = Some customer ->
  points customer < 100 ->
  createCoupon env user customerId st = (InsufficientPoints, st).
Proof.
  intros Hauth Hc Hp. unfold createCoupon.
  rewrite (createCoupon_gate_open _ _ Hauth), Hc.
  destruct (Z.ltb_spec (points customer) 100); [reflexivity|lia].
Qed.

Lemma createCoupon_created (env : Env) (user : User) (customerId : string)
    (st : Store) (customer : Customer) :
  userRole user = "ADMIN" \/ userId user = customerId ->
  customers st !! customerId = Some customer ->
  100 <= points customer ->
  coupons st !! generateCouponCode env (lastCouponNumber st) = None ->
  createCoupon env user customerId st =
    (respond 201
       (CouponJson (generateCouponCode env (lastCouponNumber st))
          {| couponId := newId env; couponCustomer := customerId; value := 1000;
             couponCreatedAt := now env; redeemed := false; redeemedAt := None |}),
     {| customers :=
          <[customerId := withPoints customer (points customer - 100)]> (customers st);
        purchases := purchases st;
        coupons :=
          <[generateCouponCode env (lastCouponNumber st) :=
              {| couponId := newId env; couponCustomer := customerId; value := 1000;
                 couponCreatedAt := now env; redeemed := false; redeemedAt := None |}]>
            (coupons st) |}).
Proof.
  intros Hauth Hc Hp Hfresh. unfold createCoupon.
  rewrite (createCoupon_gate_open _ _ Hauth), Hc.
  destruct (Z.ltb_spec (points customer) 100); [lia|].
  rewrite Hfresh. reflexivity.
Qed.

Lemma createCoupon_collision (env : Env) (user : User) (customerId : string)
    (st : Store) (customer : Customer) :
  userRole user = "ADMIN" \/ userId user = customerId ->
  customers st !! customerId = Some customer ->
  100 <= points customer ->
  coupons st !! generateCouponCode env (lastCouponNumber st) <> None ->
  createCoupon env user customerId st = (InternalServerError, st).
Proof.
  intros Hauth Hc Hp Htaken. unfold createCoupon.
  rewrite (createCoupon_gate_open _ _ Hauth), Hc.
  destruct (Z.ltb_spec (points customer) 100); [lia|].
  destruct (coupons st !! generateCouponCode env (lastCouponNumber st)); [reflexivity|congruence].
Qed.

(** C4, counterexample: Anna has 140 points, but the last code in
    string order is COUP-2026-999 while COUP-2026-1000 already exists;
    the code generated for her is COUP-2026-1000 again, the store
    refuses the duplicate, and the request ends in the 500 handler
    without creating a coupon. *)
Lemma C4_duplicate_code :
  (points <$> customers crowded !! "id-2") = Some 140 /\
  generateCouponCode env2026 (lastCouponNumber crowded) = "COUP-2026-1000" /\
  createCoupon env2026 anna "id-2" crowded = (InternalServerError, crowded).
Proof. repeat split; vm_compute; reflexivity. Qed.

(** C4, as amended: for every customer and every caller allowed to act
    for them, [createCoupon] answers InsufficientPoints exactly when the
    customer's points are below 100, and then leaves the store as it
    was; when the points are at least 100 and the generated code is not
    held by an existing coupon, it answers 201 with a coupon of value
    1000, not redeemed, and takes exactly 100 points from the customer,
    changing nothing else.  With exactly 100 points the balance becomes
    0 and a second request is rejected with InsufficientPoints. *)
Theorem C4_createCoupon (env : Env) (user : User) (customerId : string)
    (st : Store) (customer : Customer) :
  userRole user = "ADMIN" \/ userId user = customerId ->
  customers st !! customerId = Some customer ->
  let code := generateCouponCode env (lastCouponNumber st) in
  let result := createCoupon env user customerId st in
  (fst result = InsufficientPoints <-> points customer < 100) /\
  (points customer < 100 -> result = (InsufficientPoints, st)) /\
  (100 <= points customer -> coupons st !! code = None ->
     exists coupon : Coupon,
       fst result = respond 201 (CouponJson code coupon) /\
       value coupon = 1000 /\ redeemed coupon = false /\ redeemedAt coupon = None /\
       couponCustomer coupon = customerId /\
       customers (snd result) !! customerId
         = Some (withPoints customer (points customer - 100)) /\
       (forall id, id <> customerId -> customers (snd result) !! id = customers st !! id) /\
       purchases (snd result) = purchases st /\
       coupons (snd result) !! code = Some coupon /\
       (forall code', code' <> code -> coupons (snd result) !! code' = coupons st !! code') /\
       (points customer = 100 ->
          (points <$> customers (snd result) !! customerId) = Some 0 /\
          forall env', createCoupon env' user customerId (snd result)
                       = (InsufficientPoints, snd result))).
Proof.
  intros Hauth Hc code result. subst result.
  split; [|split].
  - split.
    + intros Hres. destruct (Z.lt_ge_cases (points customer) 100) as [|Hge]; [assumption|].
      exfalso. destruct (coupons st !! code) eqn:Ecode.
      * rewrite (createCoupon_collision env user customerId st customer) in Hres;
          auto; [discriminate|]. fold code. rewrite Ecode. discriminate.
      * rewrite (createCoupon_created env user customerId st customer) in Hres;
          auto. discriminate.
    + intros Hlt. rewrite (createCoupon_insufficient _ _ _ _ _ Hauth Hc Hlt). reflexivity.
  - intros Hlt. apply (createCoupon_insufficient _ _ _ _ _ Hauth Hc Hlt).
  - intros Hge Hfresh.
    rewrite (createCoupon_created _ _ _ _ _ Hauth Hc Hge Hfresh). fold code.
    eexists. cbn [fst snd customers purchases coupons].
    split; [reflexivity|]. cbn [value redeemed redeemedAt couponCustomer].
    repeat (split; [reflexivity|]).
    split; [apply lookup_insert_eq|].
    split; [intros id Hid; apply lookup_insert_ne; congruence|].
    split; [reflexivity|].
    split; [apply lookup_insert_eq|].
    split; [intros code' Hcode'; apply lookup_insert_ne; congruence|].
    intros H100. rewrite lookup_insert_eq. cbn. split; [f_equal; lia|].
    intros env'. apply (createCoupon_insufficient env' user customerId _
                          (withPoints customer (points customer - 100))); auto.
    + cbn. apply lookup_insert_eq.
    + cbn. lia.
Qed.

Lemma C4_createCoupon_witness :
  let result := createCoupon env2026 anna "id-2" (seed plain) in
  userId anna = "id-2" /\
  (points <$> customers (seed plain) !! "id-2") = Some 140 /\
  fst result =
    respond 201
      (CouponJson "COUP-2026-003"
         {| couponId := "id-new"; couponCustomer := "id-2"; value := 1000;
            couponCreatedAt := 1767261600000; redeemed := false; redeemedAt := None |}) /\
  (points <$> customers (snd result) !! "id-2") = Some 40.
Proof.
  pose proof (C4_createCoupon env2026 anna "id-2" (seed plain)
                {| loyaltyId := "CUST002"; name := "Kovacs Anna";
                   email := "anna.kovacs@email.hu"; phone := "+36302222222";
                   pinCode := "22222222"; points := 140; totalSpent := 32000;
                   visitCount := 25; role := LOYAL; createdAt := seedTime |}
                (or_intror eq_refl) eq_refl) as H.
  cbv zeta in H. destruct H as (_ & _ & H).
  destruct (H ltac:(cbn; lia) eq_refl) as (coupon & Hres & _ & _ & _ & _ & Hcust & _).
  cbv zeta. split; [reflexivity|]. split; [reflexivity|]. split.
  - vm_compute. reflexivity.
  - rewrite Hcust. reflexivity.
Defined.

(** ** C5: redeeming a coupon *)

(** C5: [redeemCoupon] answers NotFound when no coupon has the code and
    AlreadyRedeemed when the coupon is already redeemed, leaving the
    store as it was in both cases; otherwise it sets [redeemed] and
    [redeemedAt] on that coupon and nothing else: no customer and no
    purchase changes, and a second redemption of the code answers
    AlreadyRedeemed and changes nothing. *)
Theorem C5_redeemCoupon (env : Env) (code : string) (st : Store) :
  let result := redeemCoupon env code st in
  (coupons st !! code = None /\ result = (CouponNotFound, st)) \/
  (exists c, coupons st !! code = Some c /\ redeemed c = true /\
             result = (AlreadyRedeemed, st)) \/
  (exists c c',
     coupons st !! code = Some c /\ redeemed c = false /\
     fst result = respond 200 (CouponJson code c') /\
     redeemed c' = true /\ redeemedAt c' = Some (now env) /\
     couponId c' = couponId c /\ couponCustomer c' = couponCustomer c /\
     value c' = value c /\ couponCreatedAt c' = couponCreatedAt c /\
     customers (snd result) = customers st /\
     purchases (snd result) = purchases st /\
     coupons (snd result) = <[code := c']> (coupons st) /\
     forall env', redeemCoupon env' code (snd result) = (AlreadyRedeemed, snd result)).
Proof.
  cbv zeta. unfold redeemCoupon.
  destruct (coupons st !! code) as [c|] eqn:Ec; [|left; auto].
  right. destruct (redeemed c) eqn:Er; [left; eauto|].
  right. eexists c, _. cbn [fst snd customers purchases coupons].
  split; [reflexivity|]. split; [exact Er|]. split; [reflexivity|].
  cbn [redeemed redeemedAt couponId couponCustomer value couponCreatedAt].
  repeat (split; [reflexivity|]).
  intros env'. rewrite lookup_insert_eq. reflexivity.
Qed.

Example redeem_twice :
  let redeemedOnce := snd (redeemCoupon env2026 "COUP-2024-001" (seed plain)) in
  status (fst (redeemCoupon env2026 "COUP-2024-001" (seed plain))) = 200 /\
  redeemCoupon env2026 "COUP-2024-001" redeemedOnce = (AlreadyRedeemed, redeemedOnce) /\
  redeemCoupon env2026 "COUP-2024-002" (seed plain) = (AlreadyRedeemed, seed plain) /\
  redeemCoupon env2026 "COUP-2024-003" (seed plain) = (CouponNotFound, seed plain).
Proof. repeat split; vm_compute; reflexivity. Qed.

(** ** C8: the code of a new coupon *)

Lemma generateCouponCode_of_Z (env : Env) (n : Z) :
  0 <= n -> n + 1 < 2 ^ 53 -> generateCouponCode env (Js.of_Z n) = couponCodeFor env n.
Proof.
  intros Hn Hn1. unfold generateCouponCode, couponCodeFor.
  rewrite add_1, String_of_number_of_Z by lia. reflexivity.
Qed.

Lemma createCoupon_code (env : Env) (user : User) (customerId : string) (st : Store)
    (code : string) (coupon : Coupon) :
  fst (createCoupon env user customerId st) = respond 201 (CouponJson code coupon) ->
  code = generateCouponCode env (lastCouponNumber st).
Proof.
  unfold createCoupon.
  destruct (negb _ && negb _); [discriminate|].
  destruct (customers st !! customerId) as [customer|]; [|discriminate].
  destruct (points customer <? 100); [discriminate|].
  destruct (coupons st !! generateCouponCode env (lastCouponNumber st)); [discriminate|].
  cbn [fst]. intros [= <- _]. reflexivity.
Qed.

(** C8: whenever [createCoupon] creates a coupon, its code is "COUP-",
    the current year, "-" and the successor, padded with zeros to three
    digits, of the number [n] parsed from the third dash-separated
    segment of the last existing code; the last code is the one no other
    code exceeds in string order, and [n] is 0 when there is no coupon
    yet.  ([n + 1] is below 2^53, the range in which a number holds
    every integer.) *)
Theorem C8_couponCode (env : Env) (user : User) (customerId : string) (st : Store)
    (code : string) (coupon : Coupon) :
  fst (createCoupon env user customerId st) = respond 201 (CouponJson code coupon) ->
  (lastCoupon st = None -> code = couponCodeFor env 0) /\
  (forall last c,
     lastCoupon st = Some (last, c) ->
     coupons st !! last = Some c /\
     (forall code' c', coupons st !! code' = Some c' -> String.ltb last code' = false) /\
     (forall n : Z,
        0 <= n -> n + 1 < 2 ^ 53 ->
        Js.parseInt_nth (Js.split "-" last) 2 = Js.of_Z n ->
        code = couponCodeFor env n)).
Proof.
  intros Hres. apply createCoupon_code in Hres. subst code.
  unfold lastCouponNumber. split.
  - intros ->. apply generateCouponCode_of_Z; lia.
  - intros last c Hlast. rewrite Hlast.
    destruct (lastCoupon_Some st last c Hlast) as [Hin Hmax].
    split; [exact Hin|]. split; [exact Hmax|].
    intros n Hn Hn1 ->. apply generateCouponCode_of_Z; lia.
Qed.

Lemma C8_couponCode_witness :
  fst (createCoupon env2026 anna "id-2" (seed plain)) =
    respond 201
      (CouponJson "COUP-2026-003"
         {| couponId := "id-new"; couponCustomer := "id-2"; value := 1000;
            couponCreatedAt := 1767261600000; redeemed := false; redeemedAt := None |}) /\
  lastCoupon (seed plain) =
    Some ("COUP-2024-002",
          {| couponId := "id-c2"; couponCustomer := "id-3"; value := 1000;
             couponCreatedAt := seedTime - days 20; redeemed := true;
             redeemedAt := Some (seedTime - days 15) |}) /\
  "COUP-2026-003" = couponCodeFor env2026 2.
Proof.
  assert (Hres : fst (createCoupon env2026 anna "id-2" (seed plain)) =
    respond 201
      (CouponJson "COUP-2026-003"
         {| couponId := "id-new"; couponCustomer := "id-2"; value := 1000;
            couponCreatedAt := 1767261600000; redeemed := false; redeemedAt := None |}))
    by (vm_compute; reflexivity).
  assert (Hlast : lastCoupon (seed plain) =
    Some ("COUP-2024-002",
          {| couponId := "id-c2"; couponCustomer := "id-3"; value := 1000;
             couponCreatedAt := seedTime - days 20; redeemed := true;
             redeemedAt := Some (seedTime - days 15) |}))
    by (vm_compute; reflexivity).
  split; [exact Hres|]. split; [exact Hlast|].
  destruct (C8_couponCode _ _ _ _ _ _ Hres) as [_ H].
  destruct (H _ _ Hlast) as (_ & _ & Hcode).
  apply (Hcode 2); [lia|lia|vm_compute; reflexivity].
Defined.

(** The last code is taken in string order, not by its number: with
    COUP-2024-099 and COUP-2025-001 in the store the last number is 1,
    and past 999 the last code stays COUP-2026-999. *)
Example last_code_by_string_order :
  fst <$> lastCoupon twoYears = Some "COUP-2025-001" /\
  generateCouponCode env2026 (lastCouponNumber twoYears) = "COUP-2026-002" /\
  fst <$> lastCoupon crowded = Some "COUP-2026-999".
Proof. repeat split; vm_compute; reflexivity. Qed.

(** ** C10: an administrator creates a coupon for a customer *)

(** C10, counterexample: an administrator asks for a coupon for
    CUST003, who exists and has 220 points; the code generated is
    COUP-2026-1000, which is taken, and the request ends in the 500
    handler with no coupon created and no points deducted. *)
Lemma C10_admin_duplicate_code :
  userRole adminUser = "ADMIN" /\
  (points <$> customers crowded !! "id-3") = Some 220 /\
  is_Some (coupons crowded !! generateCouponCode env2026 (lastCouponNumber crowded)) /\
  createCoupon env2026 adminUser "id-3" crowded = (InternalServerError, crowded).
Proof.
  split; [reflexivity|]. split; [reflexivity|]. split; [|vm_compute; reflexivity].
  eexists. vm_compute. reflexivity.
Qed.

(** C10, as amended: for a caller whose role is ADMIN the ownership
    check of [createCoupon] does not apply: whatever the target, the
    answer is never the 403 of that check and is the one the customer
    would get on their own request; for an existing customer with at
    least 100 points, when the generated code is not held by a coupon
    already, a coupon owned by that customer is created and 100 of
    that customer's points are taken. *)
Theorem C10_admin_createCoupon (env : Env) (admin : User) (customerId : string)
    (st : Store) :
  userRole admin = "ADMIN" ->
  let result := createCoupon env admin customerId st in
  fst result <> AccessDenied /\
  (forall self, userId self = customerId ->
                createCoupon env self customerId st = result) /\
  (forall customer,
     customers st !! customerId = Some customer ->
     100 <= points customer ->
     coupons st !! generateCouponCode env (lastCouponNumber st) = None ->
     exists code coupon,
       fst result = respond 201 (CouponJson code coupon) /\
       couponCustomer coupon = customerId /\
       coupons (snd result) !! code = Some coupon /\
       customers (snd result) !! customerId
         = Some (withPoints customer (points customer - 100))).
Proof.
  intros Hadmin result. subst result. split; [|split].
  - unfold createCoupon. rewrite Hadmin. cbn [String.eqb negb andb].
    change ("ADMIN" =? "ADMIN")%string with true. cbn [negb andb].
    destruct (customers st !! customerId) as [customer|]; [|discriminate].
    destruct (points customer <? 100); [discriminate|].
    destruct (coupons st !! _); discriminate.
  - intros self Hself. unfold createCoupon.
    rewrite (createCoupon_gate_open admin customerId (or_introl Hadmin)).
    rewrite (createCoupon_gate_open self customerId (or_intror Hself)). reflexivity.
  - intros customer Hc Hp Hfresh.
    rewrite (createCoupon_created env admin customerId st customer (or_introl Hadmin) Hc Hp Hfresh).
    eexists _, _. cbn [fst snd customers coupons couponCustomer].
    split; [reflexivity|]. split; [reflexivity|].
    split; apply lookup_insert_eq.
Qed.

Lemma C10_admin_createCoupon_witness :
  userRole adminUser = "ADMIN" /\
  status (fst (createCoupon env2026 adminUser "id-3" (seed plain))) = 201 /\
  fst (createCoupon env2026 adminUser "id-3" (seed plain)) <> AccessDenied /\
  (points <$> customers (snd (createCoupon env2026 adminUser "id-3" (seed plain))) !! "id-3")
  = Some 120.
Proof.
  destruct (C10_admin_createCoupon env2026 adminUser "id-3" (seed plain) eq_refl)
    as (Hne & _ & H).
  split; [reflexivity|]. split; [vm_compute; reflexivity|]. split; [exact Hne|].
  destruct (H {| loyaltyId := "CUST003"; name := "Szabo Janos";
                 email := "janos.szabo@email.hu"; phone := "+36303333333";
                 pinCode := "33333333"; points := 220; totalSpent := 65000;
                 visitCount := 45; role := OWNER; createdAt := seedTime |}
              eq_refl ltac:(cbn; lia) eq_refl) as (code & coupon & _ & _ & _ & Hcust).
  rewrite Hcust. reflexivity.
Defined.

(** ** C6 and C7: recording a purchase, and the balance over time *)

Section Requests.

Variable hashPassword : string -> string.
Variable isEmail : string -> bool.




Lemma applyUpdates_points (b : UpdateCustomerBody) (c c' : Customer) :
  applyUpdates b c = Some c' -> points c' = default (points c) (setPoints b).
Proof.
  unfold applyUpdates.
  destruct (match setRole b with Some r => Role_of_name r | None => Some (role c) end);
    [|discriminate].
  intros [= <-]. reflexivity.
Qed.

Lemma updateCustomerSchema_points (b : UpdateCustomerBody) (p : Z) :
  updateCustomerSchema isEmail b = true -> setPoints b = Some p -> 0 <= p.
Proof.
  unfold updateCustomerSchema. intros H Hp. rewrite Hp in H.
  repeat (apply andb_prop in H as [H ?]). cbn in *. lia.
Qed.

Lemma handle_pointsNonneg (env : Env) (req : Request) (st : Store) :
  pointsNonneg st -> pointsNonneg (snd (handle hashPassword isEmail env req st)).
Proof.
  unfold pointsNonneg. intros Hst.
  destruct req as [u b|u id b|u id|u b|u cid|u code]; cbn [handle].
  - destruct (negb (requireAdmin u)); [exact Hst|].
    destruct (negb (createCustomerSchema isEmail b)); [exact Hst|].
    unfold createCustomer. destruct (customerByEmail st (newEmail b)); [exact Hst|].
    destruct (customers st !! newId env); [exact Hst|].
    destruct (customerByLoyaltyId st _); [exact Hst|].
    cbn. apply map_Forall_insert_2; [cbn; lia|exact Hst].
  - destruct (negb (updateCustomerSchema isEmail b)) eqn:Hv; [exact Hst|].
    apply negb_false_iff in Hv.
    unfold updateCustomer. destruct (negb _ && negb _); [exact Hst|].
    destruct (present (setRole b) && _); [exact Hst|].
    destruct (customers st !! id) as [c|] eqn:Ec; [|exact Hst].
    destruct (applyUpdates b c) as [c'|] eqn:Eu; [|exact Hst].
    destruct (match setEmail b with Some e => _ | None => _ end); [exact Hst|].
    cbn. apply map_Forall_insert_2; [|exact Hst].
    rewrite (applyUpdates_points b c c' Eu).
    destruct (setPoints b) as [p|] eqn:Ep; cbn.
    + eapply updateCustomerSchema_points; eauto.
    + apply (Hst id c Ec).
  - destruct (negb (requireAdmin u)); [exact Hst|].
    unfold deleteCustomer. destruct (customers st !! id); [|exact Hst].
    cbn [snd deleteCascade customers]. apply map_Forall_delete, Hst.
  - destruct (negb (requireAdmin u)); [exact Hst|].
    destruct (negb (createPurchaseSchema b)) eqn:Hv; [exact Hst|].
    apply negb_false_iff in Hv. unfold createPurchaseSchema in Hv.
    apply andb_prop in Hv as [_ Hpaid]. apply Z.ltb_lt in Hpaid.
    unfold createPurchase.
    destruct (customers st !! forCustomer b) as [c|] eqn:Ec; [|exact Hst].
    destruct (Js.to_Z _) as [pts|] eqn:Epts; [|exact Hst].
    cbn. apply map_Forall_insert_2; [|exact Hst]. cbn.
    pose proof (calculatePoints_nonneg (paid b) pts _ ltac:(lia) Epts).
    pose proof (Hst _ c Ec). cbn in *. lia.
  - unfold createCoupon. destruct (negb _ && negb _); [exact Hst|].
    destruct (customers st !! cid) as [c|] eqn:Ec; [|exact Hst].
    destruct (Z.ltb_spec (points c) 100); [exact Hst|].
    destruct (coupons st !! _); [exact Hst|].
    cbn. apply map_Forall_insert_2; [cbn; lia|exact Hst].
  - destruct (negb (requireAdmin u)); [exact Hst|].
    unfold redeemCoupon. destruct (coupons st !! code) as [c|]; [|exact Hst].
    destruct (redeemed c); exact Hst.
Qed.

(** C7: along every sequence of requests (creating customers,
    recording purchases, creating and redeeming coupons, updating
    and deleting customers) started from a store in which every balance is
    non-negative, every balance stays a non-negative integer after
    each request. *)
Theorem C7_points_never_negative (reqs : list (Env * Request)) (st : Store) :
  pointsNonneg st -> Forall pointsNonneg (trace hashPassword isEmail reqs st).
Proof.
  revert st. induction reqs as [|[env req] rest IH]; intros st Hst; cbn [trace].
  - constructor; [exact Hst|constructor].
  - constructor; [exact Hst|]. apply IH, handle_pointsNonneg, Hst.
Qed.


End Requests.

Lemma seed_pointsNonneg : pointsNonneg (seed plain).
Proof.
  unfold pointsNonneg, seed, customers, seedCustomers.
  cbn [list_to_map foldr curry fst snd uncurry].
  repeat (apply map_Forall_insert_2; [cbn; lia|]).
  apply map_Forall_empty.
Qed.

Lemma C7_points_never_negative_witness :
  pointsNonneg (seed plain) /\
  Forall pointsNonneg
    (trace plain anyEmail
       [ (env2026, PostPurchases adminUser
                     {| forCustomer := "id-1"; paid := 2500; receipt := None |});
         (env2026, PostCoupons peter "id-1");
         (env2026, PutCustomer peter "id-1"
                     {| setName := None; setEmail := None; setPhone := None;
                        setPoints := Some 0; setRole := None |});
         (env2026, PostCoupons peter "id-1") ]
       (seed plain)).
Proof.
  split; [exact seed_pointsNonneg|].
  apply (C7_points_never_negative plain anyEmail). exact seed_pointsNonneg.
Defined.



(** ** C9: a customer updates their own record *)

Section SelfUpdate.

Variable hashPassword : string -> string.
Variable isEmail : string -> bool.

Lemma updateCustomerSchema_role (b : UpdateCustomerBody) (r : string) :
  updateCustomerSchema isEmail b = true -> setRole b = Some r -> present (setRole b) = true.
Proof.
  unfold updateCustomerSchema. intros H Hr. rewrite Hr in *.
  apply andb_prop in H as [_ H]. cbn in H. apply bool_decide_eq_true in H.
  cbn. destruct (String.eqb_spec r "") as [->|]; [|reflexivity].
  destruct H as [x Hx]. discriminate Hx.
Qed.

(** C9, as amended: for every customer who is not an administrator
    and every update that passes [updateCustomerSchema], the request
    on [PUT /customers/:id] is answered 403 exactly when the update
    has a [role] field or the id is not the customer's own, and then
    nothing is written; an update of their own record without a
    [role] field whose email, if any, is not held by another customer
    is answered 200 and applied as given: [name], [email], [phone] and
    [points] take the values sent, [points] any non-negative integer,
    and every other field stays. *)
Theorem C9_selfUpdate (env : Env) (user : User) (id : string)
    (body : UpdateCustomerBody) (st : Store) (c : Customer) :
  userRole user <> "ADMIN" ->
  customers st !! userId user = Some c ->
  updateCustomerSchema isEmail body = true ->
  let result := handle hashPassword isEmail env (PutCustomer user id body) st in
  (status (fst result) = 403 <-> setRole body <> None \/ id <> userId user) /\
  (status (fst result) = 403 -> snd result = st) /\
  (setRole body = None -> id = userId user ->
   (forall e, setEmail body = Some e -> emailTakenByOther st id e = false) ->
   let c' :=
     {| loyaltyId := loyaltyId c;
        name := default (name c) (setName body);
        email := default (email c) (setEmail body);
        phone := default (phone c) (setPhone body);
        pinCode := pinCode c;
        points := default (points c) (setPoints body);
        totalSpent := totalSpent c;
        visitCount := visitCount c;
        role := role c;
        createdAt := createdAt c |} in
   result =
     (respond 200 (CustomerJson id c' None),
      {| customers := <[id := c']> (customers st);
         purchases := purchases st;
         coupons := coupons st |})).
Proof.
  intros Hrole Hc Hvalid result. subst result. cbn [handle].
  rewrite Hvalid. cbn [negb]. unfold updateCustomer.
  apply String.eqb_neq in Hrole. rewrite Hrole. cbn [negb andb].
  destruct (String.eqb_spec (userId user) id) as [Hid|Hid]; cbn [negb].
  - subst id. rewrite andb_true_r.
    destruct (setRole body) as [r|] eqn:Er.
    + rewrite <- Er, (updateCustomerSchema_role body r Hvalid Er).
      cbn. split; [|split].
      * split; [intros _; left; rewrite Er; discriminate|reflexivity].
      * reflexivity.
      * rewrite Er. discriminate.
    + cbn [present]. rewrite Hc. unfold applyUpdates. rewrite Er.
      split; [|split].
      * split; [|intros [H|H]; congruence].
        destruct (match setEmail body with Some e => _ | None => _ end); cbn; discriminate.
      * destruct (match setEmail body with Some e => _ | None => _ end); cbn; discriminate.
      * intros _ _ Hfree.
        destruct (setEmail body) as [e|]; [rewrite (Hfree e eq_refl)|]; reflexivity.
  - cbn. split; [|split].
    + split; [intros _; right; congruence|reflexivity].
    + reflexivity.
    + intros _ Hown. congruence.
Qed.

End SelfUpdate.

(** C9, counterexample: Peter, a NORMAL customer, sends a well-formed
    update of his own record that sets his email to Anna's; the store
    refuses the duplicate email, the answer is 500 and not 403, and the
    update is not applied. *)
Lemma C9_duplicate_email :
  let body := {| setName := None; setEmail := Some "anna.kovacs@email.hu";
                 setPhone := None; setPoints := None; setRole := None |} in
  updateCustomerSchema anyEmail body = true /\
  handle plain anyEmail env2026 (PutCustomer peter "id-1" body) (seed plain)
  = (InternalServerError, seed plain).
Proof. split; vm_compute; reflexivity. Qed.

Lemma C9_selfUpdate_witness :
  let body := {| setName := None; setEmail := None; setPhone := None;
                 setPoints := Some 1000000; setRole := None |} in
  userRole peter <> "ADMIN" /\
  updateCustomerSchema anyEmail body = true /\
  status (fst (handle plain anyEmail env2026 (PutCustomer peter "id-1" body) (seed plain)))
  = 200 /\
  (points <$> customers
     (snd (handle plain anyEmail env2026 (PutCustomer peter "id-1" body) (seed plain)))
     !! "id-1") = Some 1000000.
Proof.
  cbv zeta.
  pose proof (C9_selfUpdate plain anyEmail env2026 peter "id-1"
                {| setName := None; setEmail := None; setPhone := None;
                   setPoints := Some 1000000; setRole := None |}
                (seed plain)
                {| loyaltyId := "CUST001"; name := "Nagy Peter";
                   email := "peter.nagy@email.hu"; phone := "+36301111111";
                   pinCode := "11111111"; points := 85; totalSpent := 12500;
                   visitCount := 12; role := NORMAL; createdAt := seedTime |}
                ltac:(discriminate) eq_refl eq_refl) as H.
  cbv zeta in H. destruct H as (_ & _ & H).
  specialize (H eq_refl eq_refl ltac:(discriminate)).
  split; [discriminate|]. split; [reflexivity|].
  rewrite H. cbn [fst snd status respond customers].
  split; [reflexivity|]. rewrite lookup_insert_eq. reflexivity.
Defined.

(** * Further properties of the code *)

(** ** Decimal numerals *)

Lemma append_String (c : ascii) (s r : string) : String c s ++ r = String c (s ++ r).
Proof. reflexivity. Qed.

Lemma append_Empty (r : string) : "" ++ r = r.
Proof. reflexivity. Qed.

Lemma digits_prefix_step (c : ascii) (s : string) (acc : option Z) (d : Z) :
  Js.digit_value c = Some d -> d < 10 ->
  Js.digits_prefix 10 (String c s) acc
  = Js.digits_prefix 10 s (Some (10 * default 0 acc + d)).
Proof.
  intros Hc Hd. cbn [Js.digits_prefix]. rewrite Hc.
  destruct (Z.ltb_spec d 10); [reflexivity|lia].
Qed.

Lemma digits_prefix_uint (d d' : Decimal.uint) (rest : string) :
  Js.digits_prefix 10 (NilEmpty.string_of_uint d ++ rest)
    (Some (Z.of_N (DecimalPos.Unsigned.of_lu d')))
  = Js.digits_prefix 10 rest
      (Some (Z.of_N (DecimalPos.Unsigned.of_lu (Decimal.revapp d d')))).
Proof.
  revert d'. induction d; intros d'; try reflexivity;
    cbn [NilEmpty.string_of_uint Decimal.revapp]; rewrite append_String;
    (erewrite digits_prefix_step; [|vm_compute; reflexivity|reflexivity]);
    rewrite <- IHd; do 2 f_equal;
    cbn [default DecimalPos.Unsigned.of_lu]; unfold id; lia.
Qed.

Lemma digits_prefix_pos (p : positive) (rest : string) (acc : option Z) :
  default 0 acc = 0 ->
  Js.digits_prefix 10 (Js.String_of_Z (Zpos p) ++ rest) acc
  = Js.digits_prefix 10 rest (Some (Zpos p)).
Proof.
  intros Hacc. unfold Js.String_of_Z. cbn [Z.to_int NilZero.string_of_int].
  pose proof (DecimalPos.Unsigned.to_uint_nonnil p) as Hnn.
  pose proof (DecimalPos.Unsigned.of_to p) as Hof.
  rewrite DecimalPos.Unsigned.of_uint_alt in Hof. unfold Decimal.rev in Hof.
  assert (E : NilZero.string_of_uint (Pos.to_uint p) = NilEmpty.string_of_uint (Pos.to_uint p)).
  { destruct (Pos.to_uint p); [congruence|reflexivity..]. }
  rewrite E.
  assert (A : Js.digits_prefix 10 (NilEmpty.string_of_uint (Pos.to_uint p) ++ rest) acc
              = Js.digits_prefix 10 (NilEmpty.string_of_uint (Pos.to_uint p) ++ rest)
                  (Some (Z.of_N (DecimalPos.Unsigned.of_lu Decimal.Nil)))).
  { destruct (Pos.to_uint p); [congruence|..];
      cbn [NilEmpty.string_of_uint]; rewrite append_String;
      (erewrite !digits_prefix_step; [|vm_compute; reflexivity|reflexivity|vm_compute; reflexivity|reflexivity]);
      rewrite Hacc; reflexivity. }
  rewrite A, digits_prefix_uint, Hof. reflexivity.
Qed.

Lemma digits_prefix_nonneg (n : Z) (rest : string) (acc : option Z) :
  0 <= n -> default 0 acc = 0 ->
  Js.digits_prefix 10 (Js.String_of_Z n ++ rest) acc
  = Js.digits_prefix 10 rest (Some n).
Proof.
  intros Hn Hacc. destruct n as [|p|p]; [|apply digits_prefix_pos; exact Hacc|lia].
  change (Js.String_of_Z 0) with "0". rewrite append_String, append_Empty.
  erewrite digits_prefix_step; [|vm_compute; reflexivity|reflexivity].
  rewrite Hacc. reflexivity.
Qed.

Lemma digits_prefix_zeros (k : nat) (s : string) (acc : option Z) :
  default 0 acc = 0 -> (0 < k)%nat ->
  Js.digits_prefix 10 (Js.repeat_char "0" k ++ s) acc = Js.digits_prefix 10 s (Some 0).
Proof.
  revert acc. induction k as [|k IH]; intros acc Hacc Hk; [lia|].
  cbn [Js.repeat_char]. rewrite append_String.
  erewrite digits_prefix_step; [|vm_compute; reflexivity|reflexivity].
  rewrite Hacc. destruct k as [|k]; [reflexivity|].
  apply IH; [reflexivity|lia].
Qed.

Lemma isDigit_cases (c : ascii) :
  isDigit c = true ->
  c = "0"%char \/ c = "1"%char \/ c = "2"%char \/ c = "3"%char \/ c = "4"%char \/
  c = "5"%char \/ c = "6"%char \/ c = "7"%char \/ c = "8"%char \/ c = "9"%char.
Proof.
  destruct c as [[] [] [] [] [] [] [] []]; vm_compute; intros H; try discriminate H;
    repeat (first [left; reflexivity | right]); reflexivity.
Qed.

Lemma allDigits_String (c : ascii) (s : string) :
  allDigits (String c s) = isDigit c && allDigits s.
Proof. reflexivity. Qed.

(** [parseInt] of a run of decimal digits is the number they write. *)
Lemma parseInt_decimal (s : string) (v : Z) :
  allDigits s = true -> Js.digits_prefix 10 s None = Some v ->
  Js.parseInt s = Js.of_Z v.
Proof.
  intros Hall Hv. destruct s as [|c s]; [discriminate Hv|].
  rewrite allDigits_String in Hall. apply andb_prop in Hall as [Hc Hs].
  assert (Hx : match s with
               | String c' _ => c' <> "x"%char /\ c' <> "X"%char
               | EmptyString => True
               end).
  { destruct s as [|c' s']; [exact I|].
    rewrite allDigits_String in Hs. apply andb_prop in Hs as [Hc' _].
    split; intros ->; discriminate Hc'. }
  unfold Js.parseInt.
  destruct (isDigit_cases c Hc) as [->|[->|[->|[->|[->|[->|[->|[->|[->| ->]]]]]]]]];
    cbn [Js.trim_start Js.is_space]; cbv beta iota zeta;
    match goal with
    | |- context [Js.is_space ?c] => change (Js.is_space c) with false; cbv iota
    end.
  1:{ destruct s as [|c' s']; [rewrite Hv; reflexivity|].
      destruct Hx as [Hx1 Hx2].
      destruct (Ascii.eqb_spec c' "x"); [contradiction|].
      destruct (Ascii.eqb_spec c' "X"); [contradiction|].
      destruct c' as [[] [] [] [] [] [] [] []]; try contradiction;
        try (rewrite Hv; reflexivity). }
  all: rewrite Hv; reflexivity.
Qed.

Lemma append_Empty_r (s : string) : s ++ "" = s.
Proof. induction s as [|c s IH]; [reflexivity|]. rewrite append_String, IH. reflexivity. Qed.

Lemma allDigits_app (s r : string) : allDigits (s ++ r) = allDigits s && allDigits r.
Proof.
  induction s as [|c s IH]; [reflexivity|].
  rewrite append_String, !allDigits_String, IH, andb_assoc. reflexivity.
Qed.

Lemma allDigits_uint (d : Decimal.uint) : allDigits (NilEmpty.string_of_uint d) = true.
Proof. induction d; [reflexivity|cbn [NilEmpty.string_of_uint]; rewrite allDigits_String, IHd; reflexivity..]. Qed.

Lemma allDigits_String_of_Z (n : Z) : 0 <= n -> allDigits (Js.String_of_Z n) = true.
Proof.
  intros Hn. destruct n as [|p|p]; [reflexivity| |lia].
  unfold Js.String_of_Z. cbn [Z.to_int NilZero.string_of_int].
  pose proof (allDigits_uint (Pos.to_uint p)) as H.
  destruct (Pos.to_uint p); [reflexivity|exact H..].
Qed.

Lemma allDigits_zeros (k : nat) : allDigits (Js.repeat_char "0" k) = true.
Proof. induction k as [|k IH]; [reflexivity|]. cbn [Js.repeat_char]. rewrite allDigits_String, IH. reflexivity. Qed.

Lemma allDigits_padStart (k : nat) (s : string) :
  allDigits s = true -> allDigits (Js.padStart k "0" s) = true.
Proof. intros H. unfold Js.padStart. rewrite allDigits_app, allDigits_zeros, H. reflexivity. Qed.

Lemma digits_prefix_padStart (k : nat) (n : Z) :
  0 <= n -> Js.digits_prefix 10 (Js.padStart k "0" (Js.String_of_Z n)) None = Some n.
Proof.
  intros Hn. unfold Js.padStart.
  destruct (k - String.length (Js.String_of_Z n))%nat as [|j] eqn:E.
  - cbn [Js.repeat_char]. rewrite append_Empty.
    rewrite <- (append_Empty_r (Js.String_of_Z n)).
    rewrite digits_prefix_nonneg by (reflexivity || lia). reflexivity.
  - rewrite digits_prefix_zeros by (reflexivity || lia).
    rewrite <- (append_Empty_r (Js.String_of_Z n)).
    rewrite digits_prefix_nonneg by (reflexivity || lia). reflexivity.
Qed.

(** Reading back a zero-padded decimal rendering. *)
Lemma parseInt_padStart (k : nat) (n : Z) :
  0 <= n -> Js.parseInt (Js.padStart k "0" (Js.String_of_Z n)) = Js.of_Z n.
Proof.
  intros Hn. apply parseInt_decimal.
  - apply allDigits_padStart, allDigits_String_of_Z, Hn.
  - apply digits_prefix_padStart, Hn.
Qed.

Lemma substring_all (n : nat) (s : string) :
  (String.length s <= n)%nat -> substring 0 n s = s.
Proof.
  revert n. induction s as [|c s IH]; intros n Hn; [destruct n; reflexivity|].
  destruct n as [|n]; [cbn in Hn; lia|]. cbn [substring]. rewrite IH; [reflexivity|cbn in Hn; lia].
Qed.

Lemma remove_first_CUST (x : string) : Js.remove_first "CUST" ("CUST" ++ x) = x.
Proof.
  rewrite !append_String, append_Empty.
  unfold Js.remove_first. cbn [String.prefix Ascii.ascii_dec String.length substring].
  change (String.prefix "CUST" (String "C" (String "U" (String "S" (String "T" x))))) with
    (String.prefix "" x).
  replace (String.prefix "" x) with true by (destruct x; reflexivity).
  apply substring_all. lia.
Qed.

Lemma generateLoyaltyId_of_Z (n : Z) :
  0 <= n -> n + 1 < 2 ^ 53 ->
  generateLoyaltyId (Js.of_Z n) = "CUST" ++ Js.padStart 3 "0" (Js.String_of_Z (n + 1)).
Proof.
  intros Hn Hn1. unfold generateLoyaltyId.
  rewrite add_1, String_of_number_of_Z by lia. reflexivity.
Qed.

Lemma split_no_sep (sep : ascii) (s : string) :
  (forall c, In c (list_ascii_of_string s) -> c <> sep) -> Js.split sep s = [s].
Proof.
  induction s as [|c s IH]; intros H; [reflexivity|].
  cbn [Js.split]. destruct (Ascii.eqb_spec c sep) as [->|Hc].
  - exfalso. apply (H sep); [left; reflexivity|reflexivity].
  - rewrite IH; [reflexivity|]. intros c' Hc'. apply H. right. exact Hc'.
Qed.

Lemma split_app_sep (sep : ascii) (a b : string) :
  (forall c, In c (list_ascii_of_string a) -> c <> sep) ->
  Js.split sep (a ++ String sep b) = a :: Js.split sep b.
Proof.
  induction a as [|c a IH]; intros H.
  - rewrite append_Empty. cbn [Js.split]. rewrite Ascii.eqb_refl. reflexivity.
  - rewrite append_String. cbn [Js.split]. destruct (Ascii.eqb_spec c sep) as [->|Hc].
    + exfalso. apply (H sep); [left; reflexivity|reflexivity].
    + rewrite IH; [reflexivity|]. intros c' Hc'. apply H. right. exact Hc'.
Qed.

Lemma allDigits_no_dash (s : string) :
  allDigits s = true -> forall c, In c (list_ascii_of_string s) -> c <> "-"%char.
Proof.
  unfold allDigits. rewrite forallb_forall. intros H c Hc ->.
  specialize (H _ Hc). discriminate H.
Qed.

Lemma split_couponCode (y p : string) :
  allDigits y = true -> allDigits p = true ->
  Js.split "-" ("COUP-" ++ y ++ "-" ++ p) = ["COUP"; y; p].
Proof.
  intros Hy Hp.
  change ("COUP-" ++ y ++ "-" ++ p) with ("COUP" ++ String "-" (y ++ String "-" p)).
  rewrite split_app_sep.
  2:{ intros c Hc. cbn in Hc. intuition (subst; discriminate). }
  rewrite split_app_sep by (apply allDigits_no_dash, Hy).
  rewrite split_no_sep by (apply allDigits_no_dash, Hp). reflexivity.
Qed.

(** ** Looking rows up *)

Lemma find_None_map {A} (f : string * A -> bool) (m : gmap string A) :
  List.find f (map_to_list m) = None <-> forall k a, m !! k = Some a -> f (k, a) = false.
Proof.
  split.
  - intros H k a Hk. apply (find_none _ _ H (k, a)).
    apply list_elem_of_In, elem_of_map_to_list, Hk.
  - intros H. destruct (List.find f (map_to_list m)) as [[k a]|] eqn:E; [|reflexivity].
    apply find_some in E as [Hin Hf].
    apply list_elem_of_In, elem_of_map_to_list in Hin. rewrite (H _ _ Hin) in Hf. discriminate.
Qed.

Lemma find_Some_map {A} (f : string * A -> bool) (m : gmap string A) (k : string) (a : A) :
  List.find f (map_to_list m) = Some (k, a) -> m !! k = Some a /\ f (k, a) = true.
Proof.
  intros E. apply find_some in E as [Hin Hf]. split; [|exact Hf].
  apply elem_of_map_to_list, list_elem_of_In, Hin.
Qed.

Lemma customerByEmail_None (st : Store) (e : string) :
  customerByEmail st e = None <->
  forall k c, customers st !! k = Some c -> email c <> e.
Proof.
  unfold customerByEmail. rewrite find_None_map. split; intros H k c Hk.
  - specialize (H k c Hk). cbn in H. intros E. rewrite E, String.eqb_refl in H. discriminate.
  - cbn. apply String.eqb_neq, (H k c Hk).
Qed.

Lemma customerByLoyaltyId_None (st : Store) (l : string) :
  customerByLoyaltyId st l = None <->
  forall k c, customers st !! k = Some c -> loyaltyId c <> l.
Proof.
  unfold customerByLoyaltyId. rewrite find_None_map. split; intros H k c Hk.
  - specialize (H k c Hk). cbn in H. intros E. rewrite E, String.eqb_refl in H. discriminate.
  - cbn. apply String.eqb_neq, (H k c Hk).
Qed.

Lemma lastCustomer_Some (st : Store) (k : string) (c : Customer) :
  lastCustomer st = Some (k, c) ->
  customers st !! k = Some c /\ String.prefix "CUST" (loyaltyId c) = true /\
  forall k' c', customers st !! k' = Some c' ->
                String.prefix "CUST" (loyaltyId c') = true ->
                String.ltb (loyaltyId c) (loyaltyId c') = false.
Proof.
  unfold lastCustomer. intros H. apply findLast_spec in H as [Hin Hmax].
  apply list_elem_of_filter in Hin as [Hp Hin]. apply elem_of_map_to_list in Hin.
  split; [exact Hin|]. split; [exact Hp|].
  intros k' c' Hk' Hp'. apply (Hmax (k', c')).
  apply list_elem_of_filter. split; [exact Hp'|]. apply elem_of_map_to_list, Hk'.
Qed.

Lemma lastCustomer_None (st : Store) :
  lastCustomer st = None ->
  forall k c, customers st !! k = Some c -> String.prefix "CUST" (loyaltyId c) <> true.
Proof.
  unfold lastCustomer. intros H k c Hk Hp. apply findLast_nil_iff in H.
  assert (Hin : (k, c) ∈ filter (fun kc => String.prefix "CUST" (loyaltyId (snd kc)) = true)
                          (map_to_list (customers st))).
  { apply list_elem_of_filter. split; [exact Hp|]. apply elem_of_map_to_list, Hk. }
  rewrite H in Hin. inversion Hin.
Qed.

(** ** Numbered identifiers *)

Lemma prefix_CUST (x : string) : String.prefix "CUST" ("CUST" ++ x) = true.
Proof.
  rewrite !append_String, append_Empty.
  change (String.prefix "CUST" (String "C" (String "U" (String "S" (String "T" x))))) with
    (String.prefix "" x).
  destruct x; reflexivity.
Qed.

Lemma of_Z_inj (a b : Z) : 0 <= a < 2 ^ 53 -> 0 <= b < 2 ^ 53 -> Js.of_Z a = Js.of_Z b -> a = b.
Proof.
  intros Ha Hb E. pose proof (to_Z_of_Z a Ha) as Ea. pose proof (to_Z_of_Z b Hb) as Eb.
  rewrite E in Ea. congruence.
Qed.

Lemma parse_loyaltyIdOf (i : Z) :
  0 <= i -> Js.parseInt (Js.remove_first "CUST" (loyaltyIdOf i)) = Js.of_Z i.
Proof. intros Hi. unfold loyaltyIdOf. rewrite remove_first_CUST. apply parseInt_padStart, Hi. Qed.

Lemma loyaltyIdOf_inj (i j : Z) :
  0 <= i < 2 ^ 53 -> 0 <= j < 2 ^ 53 -> loyaltyIdOf i = loyaltyIdOf j -> i = j.
Proof.
  intros Hi Hj E. apply of_Z_inj; [exact Hi|exact Hj|].
  rewrite <- (parse_loyaltyIdOf i), <- (parse_loyaltyIdOf j) by lia. rewrite E. reflexivity.
Qed.

Lemma generateLoyaltyId_next (n : Z) :
  0 <= n -> n + 1 < 2 ^ 53 -> generateLoyaltyId (Js.of_Z n) = loyaltyIdOf (n + 1).
Proof. apply generateLoyaltyId_of_Z. Qed.

Lemma loyaltyIdOf_steps :
  forallb (fun i => String.ltb (loyaltyIdOf i) (loyaltyIdOf (i + 1))) (seqZ 1 998) = true.
Proof. vm_compute. reflexivity. Qed.

Lemma String_ltb_trans (a b c : string) :
  String.ltb a b = true -> String.ltb b c = true -> String.ltb a c = true.
Proof.
  unfold String.ltb. intros H1 H2.
  destruct (String.compare a b) eqn:E1; try discriminate.
  destruct (String.compare b c) eqn:E2; try discriminate.
  rewrite (String_compare_lt_trans a b c E1 E2). reflexivity.
Qed.

(** Up to 999 the string order of the padded ids is the order of
    their numbers. *)
Lemma loyaltyIdOf_order (i j : Z) :
  1 <= i -> i < j -> j <= 999 -> String.ltb (loyaltyIdOf i) (loyaltyIdOf j) = true.
Proof.
  intros Hi Hij Hj.
  assert (Hstep : forall k, 1 <= k <= 998 ->
                            String.ltb (loyaltyIdOf k) (loyaltyIdOf (k + 1)) = true).
  { intros k Hk. pose proof loyaltyIdOf_steps as H. rewrite forallb_forall in H.
    apply (H k). apply list_elem_of_In, elem_of_seqZ. lia. }
  replace j with (i + 1 + Z.of_nat (Z.to_nat (j - i - 1))) in * by lia.
  induction (Z.to_nat (j - i - 1)) as [|d IH].
  - rewrite Z.add_0_r. apply Hstep. lia.
  - apply String_ltb_trans with (loyaltyIdOf (i + 1 + Z.of_nat d)); [apply IH; lia|].
    replace (i + 1 + Z.of_nat (S d)) with (i + 1 + Z.of_nat d + 1) by lia.
    apply Hstep. lia.
Qed.

Lemma String_ltb_antisym (a b : string) :
  String.ltb a b = false -> String.ltb b a = false -> a = b.
Proof.
  unfold String.ltb. intros H1 H2. rewrite String.compare_antisym in H2.
  destruct (String.compare a b) eqn:E; try discriminate.
  apply String.compare_eq_iff, E.
Qed.

(** ** Whole hundreds *)

Lemma pow2_scale_unique (b x y : Z) :
  0 < b -> 0 <= x -> 0 <= y ->
  2 ^ 52 <= b * 2 ^ x < 2 ^ 53 -> 2 ^ 52 <= b * 2 ^ y < 2 ^ 53 -> x = y.
Proof.
  assert (H : forall x y, 0 < b -> 0 <= x -> x < y ->
                          2 ^ 52 <= b * 2 ^ x -> b * 2 ^ y < 2 ^ 53 -> False).
  { intros x' y' Hb Hx Hxy H1 H2.
    replace y' with (x' + (y' - x')) in H2 by lia.
    rewrite Z.pow_add_r in H2 by lia.
    pose proof (Z.pow_le_mono_r 2 1 (y' - x') ltac:(lia) ltac:(lia)) as Hd.
    change (2 ^ 1) with 2 in Hd.
    pose proof (Z.pow_pos_nonneg 2 x' ltac:(lia) Hx). nia. }
  intros Hb Hx Hy [H1 H2] [H3 H4].
  destruct (Z.lt_trichotomy x y) as [Hlt|[Heq|Hgt]]; [|exact Heq|].
  - exfalso. exact (H x y Hb Hx Hlt H1 H4).
  - exfalso. exact (H y x Hb Hy Hgt H3 H2).
Qed.

(** A whole number of hundreds divided by 100 is exact. *)
Lemma div_100_exact (b : Z) :
  0 < b -> 100 * b < 2 ^ 53 -> Js.div (Js.of_Z (100 * b)) lit_100 = Js.of_Z b.
Proof.
  intros Hb Hb100.
  destruct (of_Z_pos b ltac:(lia)) as (Hkb & Hrb & ->).
  set (kb := 53 - Zdigits2 b) in *.
  destruct (of_Z_pos (100 * b) ltac:(lia)) as (Hk & Hr & ->).
  set (k := 53 - Zdigits2 (100 * b)) in *.
  assert (Hk52 : k <= 52).
  { unfold k. rewrite Zdigits2_log2 by lia. pose proof (Z.log2_nonneg (100 * b)). lia. }
  set (P := 2 ^ k) in *.
  assert (HP : 0 < P) by (apply Z.pow_pos_nonneg; lia).
  destruct (100 * b * P) as [|m|m] eqn:Em; try lia. cbn [Z.to_pos].
  rewrite SFdiv_by_100 by lia.
  set (X := Zpos m * 2 ^ 53). set (D := 7036874417766400).
  assert (HD : 0 < D) by (unfold D; lia).
  assert (HX : 0 <= X) by (unfold X; lia).
  assert (HXD : X = (b * P * 2 ^ 7) * D) by (unfold X, D; lia).
  assert (Hq : X / D = b * P * 2 ^ 7) by (rewrite HXD; apply Z.div_mul; lia).
  assert (Hq' : 2 ^ 52 <= X / D < 2 ^ 54) by (rewrite Hq; lia).
  assert (Hdig : Zdigits2 (X / D) <= 54) by (apply Zdigits2_le; lia).
  destruct (binary_round_aux_spec X D (- 7 - k) HD HX ltac:(lia) ltac:(lia) ltac:(lia))
    as (Hn & Hrange & HR & ->).
  set (n := Zdigits2 (X / D) - 53) in *.
  assert (Hn1 : n <= 1) by (unfold n; lia).
  set (G := 2 ^ n * D) in *.
  assert (Hpn : 0 < 2 ^ n) by (apply Z.pow_pos_nonneg; lia).
  assert (HG : 0 < G) by (unfold G; lia).
  assert (HXG : X = (b * 2 ^ (k + 7 - n)) * G).
  { rewrite HXD. unfold G, P.
    replace (k + 7 - n) with (k + (7 - n)) by lia. rewrite Z.pow_add_r by lia.
    replace (2 ^ 7) with (2 ^ (7 - n) * 2 ^ n)
      by (rewrite <- Z.pow_add_r by lia; f_equal; lia). ring. }
  assert (Hmod : X mod G = 0) by (rewrite HXG; apply Z.mod_mul; lia).
  assert (HRq : RNE X G = b * 2 ^ (k + 7 - n)).
  { destruct (RNE_cases X G HG) as (Hlow & _ & _).
    rewrite Hlow by lia. rewrite HXG. apply Z.div_mul. lia. }
  rewrite HRq in *.
  assert (Hlt : b * 2 ^ (k + 7 - n) < 2 ^ 53).
  { assert (Hqn : X / D = b * 2 ^ (k + 7 - n) * 2 ^ n).
    { rewrite Hq. unfold P. replace (k + 7 - n) with (k + (7 - n)) by lia.
      rewrite Z.pow_add_r by lia.
      replace (2 ^ 7) with (2 ^ (7 - n) * 2 ^ n)
        by (rewrite <- Z.pow_add_r by lia; f_equal; lia). ring. }
    rewrite Hqn in Hrange. destruct Hrange as [_ Hup].
    replace (53 + n) with (n + 53) in Hup by lia. rewrite Z.pow_add_r in Hup by lia. nia. }
  destruct (Z.ltb_spec (b * 2 ^ (k + 7 - n)) (2 ^ 53)) as [_|Hge]; [|lia].
  assert (Hexp : k + 7 - n = kb).
  { apply (pow2_scale_unique b); try lia. }
  rewrite Hexp. f_equal. lia.
Qed.

(** ** The number of decimal digits *)

Lemma of_lu_lt (d : Decimal.uint) :
  (DecimalPos.Unsigned.of_lu d < 10 ^ DecimalPos.Unsigned.usize d)%N.
Proof.
  induction d; cbn [DecimalPos.Unsigned.of_lu DecimalPos.Unsigned.usize];
    [reflexivity|rewrite N.pow_succ_r'; lia..].
Qed.

Lemma usize_revapp (d d' : Decimal.uint) :
  DecimalPos.Unsigned.usize (Decimal.revapp d d')
  = (DecimalPos.Unsigned.usize d + DecimalPos.Unsigned.usize d')%N.
Proof.
  revert d'. induction d; intros d'; cbn [Decimal.revapp DecimalPos.Unsigned.usize];
    [reflexivity|rewrite IHd; cbn [DecimalPos.Unsigned.usize]; lia..].
Qed.

Lemma usize_rev (d : Decimal.uint) :
  DecimalPos.Unsigned.usize (Decimal.rev d) = DecimalPos.Unsigned.usize d.
Proof. unfold Decimal.rev. rewrite usize_revapp. cbn. lia. Qed.

Lemma length_string_of_uint (d : Decimal.uint) :
  N.of_nat (String.length (NilEmpty.string_of_uint d)) = DecimalPos.Unsigned.usize d.
Proof.
  induction d; cbn [NilEmpty.string_of_uint String.length DecimalPos.Unsigned.usize];
    [reflexivity|rewrite <- IHd; lia..].
Qed.

Lemma to_uint_head (p : positive) :
  match Pos.to_uint p with
  | Decimal.Nil | Decimal.D0 _ => False
  | _ => True
  end.
Proof.
  pose proof (DecimalPos.Unsigned.to_of (Pos.to_uint p)) as H.
  rewrite DecimalPos.Unsigned.of_to in H. cbn [N.to_uint] in H.
  pose proof (DecimalPos.Unsigned.to_uint_nonzero p) as Hnz.
  pose proof (DecimalPos.Unsigned.to_uint_nonnil p) as Hnn.
  destruct (Pos.to_uint p) as [|d| | | | | | | | | ] eqn:E; try exact I; [congruence|].
  rewrite DecimalFacts.unorm_D0 in H. unfold Decimal.unorm in H.
  destruct (Decimal.nzhead d) eqn:En; try discriminate H.
  - exact (Hnz H).
  - exact (DecimalFacts.nzhead_nonzero _ _ En).
Qed.

Lemma of_lu_rev_lower (d : Decimal.uint) :
  match d with
  | Decimal.Nil | Decimal.D0 _ => False
  | _ => True
  end ->
  (10 ^ (DecimalPos.Unsigned.usize d - 1) <= DecimalPos.Unsigned.of_lu (Decimal.rev d))%N.
Proof.
  destruct d; try contradiction; intros _; unfold Decimal.rev; cbn [Decimal.revapp];
    rewrite DecimalPos.Unsigned.of_lu_revapp; cbn [DecimalPos.Unsigned.usize DecimalPos.Unsigned.of_lu];
    replace (N.succ (DecimalPos.Unsigned.usize d) - 1)%N with (DecimalPos.Unsigned.usize d) by lia;
    nia.
Qed.

(** The decimal rendering of a positive integer below [10 ^ n] and not
    below [10 ^ (n - 1)] has [n] characters. *)
Lemma length_String_of_Z (z : Z) (n : nat) :
  10 ^ (Z.of_nat n - 1) <= z < 10 ^ Z.of_nat n -> (0 < n)%nat ->
  String.length (Js.String_of_Z z) = n.
Proof.
  intros Hz Hn.
  assert (Hz0 : 0 < z).
  { pose proof (Z.pow_pos_nonneg 10 (Z.of_nat n - 1) ltac:(lia) ltac:(lia)). lia. }
  destruct z as [|p|p]; try lia.
  unfold Js.String_of_Z. cbn [Z.to_int NilZero.string_of_int].
  pose proof (to_uint_head p) as Hhead.
  pose proof (DecimalPos.Unsigned.of_to p) as Hof.
  rewrite DecimalPos.Unsigned.of_uint_alt in Hof.
  pose proof (of_lu_lt (Decimal.rev (Pos.to_uint p))) as Hup. rewrite usize_rev, Hof in Hup.
  pose proof (of_lu_rev_lower (Pos.to_uint p) Hhead) as Hlow. rewrite Hof in Hlow.
  pose proof (length_string_of_uint (Pos.to_uint p)) as Hlen.
  assert (E : NilZero.string_of_uint (Pos.to_uint p) = NilEmpty.string_of_uint (Pos.to_uint p)).
  { destruct (Pos.to_uint p); [contradiction|reflexivity..]. }
  rewrite E.
  set (len := String.length (NilEmpty.string_of_uint (Pos.to_uint p))) in *.
  rewrite <- Hlen in Hup, Hlow.
  assert (Hlen0 : (0 < len)%nat).
  { destruct len; [|lia]. cbn in Hup. lia. }
  assert (Hup' : Zpos p < 10 ^ Z.of_nat len).
  { apply N2Z.inj_lt in Hup. rewrite N2Z.inj_pow in Hup. cbn in Hup.
    rewrite nat_N_Z in Hup. exact Hup. }
  assert (Hlow' : 10 ^ (Z.of_nat len - 1) <= Zpos p).
  { apply N2Z.inj_le in Hlow. rewrite N2Z.inj_pow in Hlow. cbn in Hlow.
    rewrite N2Z.inj_sub in Hlow by lia. rewrite nat_N_Z in Hlow. exact Hlow. }
  destruct (Nat.lt_trichotomy len n) as [Hlt|[Heq|Hgt]]; [|exact Heq|].
  - exfalso.
    pose proof (Z.pow_le_mono_r 10 (Z.of_nat len) (Z.of_nat n - 1) ltac:(lia) ltac:(lia)). lia.
  - exfalso.
    pose proof (Z.pow_le_mono_r 10 (Z.of_nat n) (Z.of_nat len - 1) ltac:(lia) ltac:(lia)). lia.
Qed.

(** ** Rounding keeps the order *)

Lemma loc_of_scale (X G c : Z) : 0 < G -> 0 < c -> loc_of (X * c) (G * c) = loc_of X G.
Proof.
  intros HG Hc. unfold loc_of.
  rewrite Z.mul_mod_distr_r by lia.
  pose proof (Z.mod_pos_bound X G HG) as Hr.
  destruct (Z.eqb_spec (X mod G) 0) as [E|E].
  - rewrite E, Z.mul_0_l. reflexivity.
  - destruct (Z.eqb_spec (X mod G * c) 0) as [E'|E']; [nia|].
    f_equal.
    destruct (Z.compare_spec (2 * (X mod G * c)) (G * c));
      destruct (Z.compare_spec (2 * (X mod G)) G); try reflexivity; nia.
Qed.

Lemma RNE_scale (X G c : Z) : 0 < G -> 0 < c -> RNE (X * c) (G * c) = RNE X G.
Proof.
  intros HG Hc. unfold RNE. rewrite loc_of_scale by assumption.
  rewrite Z.div_mul_cancel_r by lia. reflexivity.
Qed.

Lemma RNE_mono (X X' G : Z) : 0 < G -> X <= X' -> RNE X G <= RNE X' G.
Proof.
  intros HG HX.
  destruct (RNE_cases X G HG) as (Hlow & Hhigh & Hany).
  destruct (RNE_cases X' G HG) as (Hlow' & Hhigh' & Hany').
  pose proof (Z.div_mod X G ltac:(lia)) as E. pose proof (Z.mod_pos_bound X G HG) as B.
  pose proof (Z.div_mod X' G ltac:(lia)) as E'. pose proof (Z.mod_pos_bound X' G HG) as B'.
  pose proof (Z.div_le_mono X X' G HG HX) as Hq.
  destruct (Z.eq_dec (X / G) (X' / G)) as [Eq|Hne]; [|lia].
  destruct (Z.eq_dec X X') as [->|HXX]; [lia|].
  assert (Hr : X mod G < X' mod G) by nia.
  destruct (Z.lt_trichotomy (2 * (X mod G)) G) as [H|[H|H]].
  - rewrite (Hlow H). lia.
  - rewrite (Hhigh' ltac:(lia)). lia.
  - rewrite (Hhigh H), (Hhigh' ltac:(lia)). lia.
Qed.

Lemma round_range (P : Z) :
  2 ^ 52 <= P ->
  let n := Zdigits2 P - 53 in
  0 <= n /\ 2 ^ (52 + n) <= P < 2 ^ (53 + n) /\
  2 ^ 52 <= RNE P (2 ^ n) <= 2 ^ 53.
Proof.
  intros HP. cbv zeta.
  assert (HP0 : 0 < P) by lia.
  rewrite (Zdigits2_log2 P HP0).
  pose proof (Z.log2_le_mono _ _ HP) as Hl. rewrite Z.log2_pow2 in Hl by lia.
  destruct (Z.log2_spec P HP0) as [Hlo Hhi].
  set (n := Z.log2 P + 1 - 53).
  replace (Z.log2 P) with (52 + n) in Hlo by (unfold n; lia).
  replace (Z.succ (Z.log2 P)) with (53 + n) in Hhi by (unfold n; lia).
  assert (Hn : 0 <= n) by (unfold n; lia).
  split; [exact Hn|]. split; [lia|].
  assert (Hpn : 0 < 2 ^ n) by (apply Z.pow_pos_nonneg; lia).
  rewrite !Z.pow_add_r in Hlo, Hhi by lia.
  assert (Hq : 2 ^ 52 <= P / 2 ^ n < 2 ^ 53).
  { split; [apply Z.div_le_lower_bound; lia|apply Z.div_lt_upper_bound; lia]. }
  destruct (RNE_cases P (2 ^ n) Hpn) as (_ & _ & [-> | ->]); lia.
Qed.

(** The integer parts of two rounded values are in the order of the
    values: [P1 * 2 ^ e1 <= P2 * 2 ^ e2], each rounded to 53 bits and
    then rounded down to an integer. *)
Lemma floor_round_mono (P1 e1 P2 e2 e0 : Z) :
  2 ^ 52 <= P1 -> 2 ^ 52 <= P2 -> e0 <= e1 -> e0 <= e2 ->
  P1 * 2 ^ (e1 - e0) <= P2 * 2 ^ (e2 - e0) ->
  let n1 := Zdigits2 P1 - 53 in
  let n2 := Zdigits2 P2 - 53 in
  0 <= - (e1 + n1) <= 52 -> 0 <= - (e2 + n2) <= 52 ->
  RNE P1 (2 ^ n1) / 2 ^ (- (e1 + n1)) <= RNE P2 (2 ^ n2) / 2 ^ (- (e2 + n2)).
Proof.
  intros HP1 HP2 He1 He2 HV. cbv zeta.
  destruct (round_range P1 HP1) as (Hn1 & [Hlo1 Hhi1] & HR1).
  destruct (round_range P2 HP2) as (Hn2 & [Hlo2 Hhi2] & HR2).
  set (n1 := Zdigits2 P1 - 53) in *. set (n2 := Zdigits2 P2 - 53) in *.
  intros Hj1 Hj2.
  set (R1 := RNE P1 (2 ^ n1)) in *. set (R2 := RNE P2 (2 ^ n2)) in *.
  assert (Hp1 : 0 < 2 ^ (e1 - e0)) by (apply Z.pow_pos_nonneg; lia).
  assert (Hp2 : 0 < 2 ^ (e2 - e0)) by (apply Z.pow_pos_nonneg; lia).
  destruct (Z.lt_trichotomy (e1 + n1) (e2 + n2)) as [Hlt|[Heq|Hgt]].
  - (* the second value lies in a higher binade *)
    apply Z.le_trans with (2 ^ (53 - (- (e1 + n1)))).
    + rewrite Z.pow_sub_r by lia.
      apply Z.div_le_mono; [apply Z.pow_pos_nonneg; lia|lia].
    + apply Z.le_trans with (2 ^ (52 - (- (e2 + n2)))).
      * apply Z.pow_le_mono_r; lia.
      * rewrite Z.pow_sub_r by lia.
        apply Z.div_le_mono; [apply Z.pow_pos_nonneg; lia|lia].
  - (* the same binade: compare on a common grid *)
    rewrite <- Heq. apply Z.div_le_mono; [apply Z.pow_pos_nonneg; lia|].
    unfold R1, R2.
    rewrite <- (RNE_scale P1 (2 ^ n1) (2 ^ (e1 - e0))) by (try apply Z.pow_pos_nonneg; lia).
    rewrite <- (RNE_scale P2 (2 ^ n2) (2 ^ (e2 - e0))) by (try apply Z.pow_pos_nonneg; lia).
    rewrite <- !Z.pow_add_r by lia.
    replace (n2 + (e2 - e0)) with (n1 + (e1 - e0)) by lia.
    apply RNE_mono; [apply Z.pow_pos_nonneg; lia|exact HV].
  - (* impossible: the first value would be the larger one *)
    exfalso.
    assert (H1 : 2 ^ (52 + n1 + (e1 - e0)) <= P1 * 2 ^ (e1 - e0)).
    { rewrite (Z.pow_add_r 2 (52 + n1)) by lia. nia. }
    assert (H2 : P2 * 2 ^ (e2 - e0) < 2 ^ (53 + n2 + (e2 - e0))).
    { rewrite (Z.pow_add_r 2 (53 + n2)) by lia. nia. }
    pose proof (Z.pow_le_mono_r 2 (53 + n2 + (e2 - e0)) (52 + n1 + (e1 - e0))
                  ltac:(lia) ltac:(lia)).
    lia.
Qed.

(** The product of two positive doubles with full mantissas, rounded
    down to an integer. *)
Lemma floor_mul (mx my : positive) (ex ey : Z) :
  2 ^ 52 <= Zpos mx < 2 ^ 53 -> 2 ^ 52 <= Zpos my < 2 ^ 53 ->
  let P := Zpos mx * Zpos my in
  let n := Zdigits2 P - 53 in
  2 <= - (ex + ey + n) <= 1000 ->
  Js.Math_floor (Js.mul (S754_finite false mx ex) (S754_finite false my ey))
  = Js.of_Z (RNE P (2 ^ n) / 2 ^ (- (ex + ey + n))).
Proof.
  intros Hx Hy. cbv zeta. intros Hj.
  change (Js.mul (S754_finite false mx ex) (S754_finite false my ey))
    with (binary_round_aux Js.prec Js.emax false (Zpos (mx * my)) (ex + ey) loc_Exact).
  rewrite Pos2Z.inj_mul.
  assert (HP : 2 ^ 52 <= Zpos mx * Zpos my) by nia.
  destruct (round_range _ HP) as (Hn & [Hlo Hhi] & HR).
  set (P := Zpos mx * Zpos my) in *. set (n := Zdigits2 P - 53) in *.
  assert (Hn54 : n <= 53).
  { assert (P < 2 ^ 106) by (unfold P; nia).
    destruct (Z_le_gt_dec n 53) as [H'|H']; [exact H'|exfalso].
    pose proof (Z.pow_le_mono_r 2 106 (52 + n) ltac:(lia) ltac:(lia)). lia. }
  destruct (binary_round_aux_exact P (ex + ey) HP ltac:(lia) ltac:(lia)) as (_ & _ & _ & ->).
  fold n. apply Math_floor_rounded; [exact HR|lia|lia].
Qed.

Lemma mantissa_product_digits (mx my : positive) :
  2 ^ 52 <= Zpos mx < 2 ^ 53 -> 2 ^ 52 <= Zpos my < 2 ^ 53 ->
  52 <= Zdigits2 (Zpos mx * Zpos my) - 53 <= 53.
Proof.
  intros Hx Hy.
  assert (HP : 2 ^ 52 <= Zpos mx * Zpos my) by nia.
  destruct (round_range _ HP) as (Hn & [Hlo Hhi] & _).
  set (n := Zdigits2 (Zpos mx * Zpos my) - 53) in *.
  assert (H104 : 2 ^ 104 <= Zpos mx * Zpos my) by nia.
  assert (H106 : Zpos mx * Zpos my < 2 ^ 106) by nia.
  split.
  - destruct (Z_le_gt_dec 52 n) as [H|H]; [exact H|exfalso].
    pose proof (Z.pow_le_mono_r 2 (53 + n) 104 ltac:(lia) ltac:(lia)). lia.
  - destruct (Z_le_gt_dec n 53) as [H|H]; [exact H|exfalso].
    pose proof (Z.pow_le_mono_r 2 106 (52 + n) ltac:(lia) ltac:(lia)). lia.
Qed.

(** The double [amount / 100] for an amount of at least 100: a full
    mantissa whose value lies between the whole hundreds and their
    successor. *)
Lemma quotient_repr (a : Z) :
  100 <= a < 2 ^ 53 ->
  exists (mq : positive) (eq : Z),
    Js.div (Js.of_Z a) lit_100 = S754_finite false mq eq /\
    2 ^ 52 <= Zpos mq < 2 ^ 53 /\ -52 <= eq <= -6 /\
    a / 100 * 2 ^ (- eq) <= Zpos mq < (a / 100 + 1) * 2 ^ (- eq).
Proof.
  intros Ha.
  pose proof (floor_div_100 a ltac:(lia)) as Hfloor.
  pose proof (base_range a ltac:(lia)) as Hb.
  assert (Hb1 : 1 <= a / 100) by (apply Z.div_le_lower_bound; lia).
  set (b := a / 100) in *.
  assert (Hrepr : exists (mq : positive) (eq : Z),
             Js.div (Js.of_Z a) lit_100 = S754_finite false mq eq /\
             2 ^ 52 <= Zpos mq < 2 ^ 53 /\ eq < 0).
  { destruct (of_Z_pos a ltac:(lia)) as (Hk & Hr & ->).
    set (k := 53 - Zdigits2 a) in *.
    assert (Hk52 : k <= 52).
    { unfold k. rewrite Zdigits2_log2 by lia. pose proof (Z.log2_nonneg a). lia. }
    set (P := 2 ^ k) in *.
    assert (HP : 0 < P) by (apply Z.pow_pos_nonneg; lia).
    destruct (a * P) as [|m|m] eqn:Em; try lia. cbn [Z.to_pos].
    rewrite SFdiv_by_100 by lia.
    set (X := Zpos m * 2 ^ 53). set (D := 7036874417766400).
    assert (HD : 0 < D) by (unfold D; lia).
    assert (HX : 0 <= X) by (unfold X; lia).
    assert (Hq : 2 ^ 52 <= X / D < 2 ^ 54).
    { split.
      - apply Z.div_le_lower_bound; [lia|]. unfold X, D. lia.
      - apply Z.div_lt_upper_bound; [lia|]. unfold X, D. lia. }
    assert (Hdig : Zdigits2 (X / D) <= 54) by (apply Zdigits2_le; lia).
    destruct (binary_round_aux_spec X D (- 7 - k) HD HX ltac:(lia) ltac:(lia) ltac:(lia))
      as (Hn & Hrange & HR & ->).
    set (n := Zdigits2 (X / D) - 53) in *.
    destruct (Z.ltb_spec (RNE X (2 ^ n * D)) (2 ^ 53)) as [Hlt|Hge].
    - destruct (RNE X (2 ^ n * D)) as [|R|R] eqn:ER; try lia.
      exists R, (- 7 - k + n). cbn [Z.to_pos]. split; [reflexivity|]. lia.
    - exists (Z.to_pos (2 ^ 52)), (- 7 - k + n + 1). split; [reflexivity|].
      change (Zpos (Z.to_pos (2 ^ 52))) with (2 ^ 52). lia. }
  destruct Hrepr as (mq & eq & E & Hm & Heq).
  exists mq, eq. split; [exact E|]. split; [exact Hm|].
  rewrite E, Math_floor_pos in Hfloor by exact Heq.
  assert (Hpj : 0 < 2 ^ (- eq)) by (apply Z.pow_pos_nonneg; lia).
  assert (Hdiv : Zpos mq / 2 ^ (- eq) = b).
  { apply of_Z_inj; [|lia|exact Hfloor].
    split; [apply Z.div_pos; lia|].
    apply Z.div_lt_upper_bound; [lia|]. nia. }
  pose proof (Z.div_mod (Zpos mq) (2 ^ (- eq)) ltac:(lia)) as Edm.
  pose proof (Z.mod_pos_bound (Zpos mq) (2 ^ (- eq)) Hpj) as Bdm.
  rewrite Hdiv in Edm.
  assert (Hbounds : b * 2 ^ (- eq) <= Zpos mq < (b + 1) * 2 ^ (- eq)) by lia.
  split; [|exact Hbounds].
  split.
  - destruct (Z_le_gt_dec (-52) eq) as [H|H]; [exact H|exfalso].
    pose proof (Z.pow_le_mono_r 2 53 (- eq) ltac:(lia) ltac:(lia)). nia.
  - destruct (Z_le_gt_dec eq (-6)) as [H|H]; [exact H|exfalso].
    pose proof (Z.pow_le_mono_r 2 (- eq) 5 ltac:(lia) ltac:(lia)).
    assert ((b + 1) * 2 ^ (- eq) <= 2 ^ 47 * 2 ^ 5) by nia. lia.
Qed.

(** What the page shows lies between what is granted for the amount
    and what is granted for the amount plus 100, for every multiplier
    in [[1, 2)]. *)
Lemma floor_mul_between (a : Z) (M : positive) :
  100 <= a -> a + 100 < 2 ^ 53 -> 2 ^ 52 <= Zpos M < 2 ^ 53 ->
  exists g s g' : Z,
    Js.Math_floor (Js.mul (Js.of_Z (a / 100)) (S754_finite false M (-52))) = Js.of_Z g /\
    Js.Math_floor (Js.mul (Js.div (Js.of_Z a) lit_100) (S754_finite false M (-52)))
    = Js.of_Z s /\
    Js.Math_floor (Js.mul (Js.of_Z (a / 100 + 1)) (S754_finite false M (-52))) = Js.of_Z g' /\
    g <= s /\ s <= g'.
Proof.
  intros Ha Ha' HM.
  destruct (quotient_repr a ltac:(lia)) as (mq & eq & -> & Hmq & Heq & Hbq).
  pose proof (base_range (a + 100) ltac:(lia)) as Hb'.
  replace ((a + 100) / 100) with (a / 100 + 1) in Hb'
    by (replace (a + 100) with (a + 1 * 100) by lia; rewrite Z.div_add by lia; reflexivity).
  assert (Hb1 : 1 <= a / 100) by (apply Z.div_le_lower_bound; lia).
  set (b := a / 100) in *.
  (* the whole hundreds, and their successor, as doubles *)
  destruct (of_Z_pos b ltac:(lia)) as (Hk1 & Hr1 & ->).
  destruct (of_Z_pos (b + 1) ltac:(lia)) as (Hk2 & Hr2 & ->).
  set (k1 := 53 - Zdigits2 b) in *. set (k2 := 53 - Zdigits2 (b + 1)) in *.
  assert (Hk1' : 6 <= k1 <= 52).
  { unfold k1. rewrite Zdigits2_log2 by lia. pose proof (Z.log2_nonneg b).
    pose proof (Z.log2_lt_pow2 b 47 ltac:(lia)). lia. }
  assert (Hk2' : 6 <= k2 <= 52).
  { unfold k2. rewrite Zdigits2_log2 by lia. pose proof (Z.log2_nonneg (b + 1)).
    destruct (Z.eq_dec (b + 1) (2 ^ 47)) as [E|E].
    - rewrite E, Z.log2_pow2 by lia. lia.
    - pose proof (Z.log2_lt_pow2 (b + 1) 47 ltac:(lia)). lia. }
  assert (Hp1 : 0 < 2 ^ k1) by (apply Z.pow_pos_nonneg; lia).
  assert (Hp2 : 0 < 2 ^ k2) by (apply Z.pow_pos_nonneg; lia).
  destruct (b * 2 ^ k1) as [|m1|m1] eqn:E1; try lia.
  destruct ((b + 1) * 2 ^ k2) as [|m2|m2] eqn:E2; try lia.
  cbn [Z.to_pos].
  pose proof (mantissa_product_digits m1 M ltac:(lia) HM) as Hn1.
  pose proof (mantissa_product_digits mq M ltac:(lia) HM) as Hnq.
  pose proof (mantissa_product_digits m2 M ltac:(lia) HM) as Hn2.
  rewrite (floor_mul m1 M (- k1) (-52)) by lia.
  rewrite (floor_mul mq M eq (-52)) by lia.
  rewrite (floor_mul m2 M (- k2) (-52)) by lia.
  eexists _, _, _. split; [reflexivity|]. split; [reflexivity|]. split; [reflexivity|].
  assert (Hpe : 0 < 2 ^ (- eq)) by (apply Z.pow_pos_nonneg; lia).
  assert (Hpt : 0 < 2 ^ (52 + eq)) by (apply Z.pow_pos_nonneg; lia).
  assert (Hsplit : 2 ^ (- eq) * 2 ^ (52 + eq) = 2 ^ 52).
  { rewrite <- Z.pow_add_r by lia. f_equal. lia. }
  assert (Hs1 : 2 ^ k1 * 2 ^ (52 - k1) = 2 ^ 52).
  { rewrite <- Z.pow_add_r by lia. f_equal. lia. }
  assert (Hs2 : 2 ^ k2 * 2 ^ (52 - k2) = 2 ^ 52).
  { rewrite <- Z.pow_add_r by lia. f_equal. lia. }
  assert (Hq1 : 0 < 2 ^ (52 - k1)) by (apply Z.pow_pos_nonneg; lia).
  assert (Hq2 : 0 < 2 ^ (52 - k2)) by (apply Z.pow_pos_nonneg; lia).
  assert (H1 : 2 ^ 52 <= Zpos m1 * Zpos M).
  { clear - Hr1 HM E1. nia. }
  assert (Hq : 2 ^ 52 <= Zpos mq * Zpos M).
  { clear - Hmq HM. nia. }
  assert (H2 : 2 ^ 52 <= Zpos m2 * Zpos M).
  { clear - Hr2 HM E2. nia. }
  assert (Hlow : Zpos m1 * 2 ^ (52 - k1) <= Zpos mq * 2 ^ (52 + eq)).
  { rewrite <- E1, <- Z.mul_assoc, Hs1.
    apply Z.le_trans with (b * 2 ^ (- eq) * 2 ^ (52 + eq)).
    - rewrite <- Z.mul_assoc, Hsplit. lia.
    - apply Z.mul_le_mono_nonneg_r; lia. }
  assert (Hupp : Zpos mq * 2 ^ (52 + eq) <= Zpos m2 * 2 ^ (52 - k2)).
  { rewrite <- E2, <- Z.mul_assoc, Hs2.
    apply Z.le_trans with ((b + 1) * 2 ^ (- eq) * 2 ^ (52 + eq)).
    - apply Z.mul_le_mono_nonneg_r; lia.
    - rewrite <- Z.mul_assoc, Hsplit. lia. }
  split.
  - apply (floor_round_mono (Zpos m1 * Zpos M) (- k1 + -52) (Zpos mq * Zpos M) (eq + -52)
             (-104)); [exact H1|exact Hq|lia|lia| |lia|lia].
    replace (- k1 + -52 - -104) with (52 - k1) by lia.
    replace (eq + -52 - -104) with (52 + eq) by lia.
    rewrite (Z.mul_comm (Zpos m1)), (Z.mul_comm (Zpos mq)), <- !Z.mul_assoc.
    apply Z.mul_le_mono_nonneg_l; [lia|exact Hlow].
  - apply (floor_round_mono (Zpos mq * Zpos M) (eq + -52) (Zpos m2 * Zpos M) (- k2 + -52)
             (-104)); [exact Hq|exact H2|lia|lia| |lia|lia].
    replace (- k2 + -52 - -104) with (52 - k2) by lia.
    replace (eq + -52 - -104) with (52 + eq) by lia.
    rewrite (Z.mul_comm (Zpos m2)), (Z.mul_comm (Zpos mq)), <- !Z.mul_assoc.
    apply Z.mul_le_mono_nonneg_l; [lia|exact Hupp].
Qed.

(** ** Identifiers read back *)

(** X1: the number [createCustomer] reads back from a loyalty id made by
    [generateLoyaltyId] is the successor of the number it was made from:
    [parseInt(generateLoyaltyId(n).replace('CUST', ''))] is [n + 1]. *)
Theorem generateLoyaltyId_parseInt (n : Z) :
  0 <= n -> n + 1 < 2 ^ 53 ->
  Js.parseInt (Js.remove_first "CUST" (generateLoyaltyId (Js.of_Z n))) = Js.of_Z (n + 1).
Proof.
  intros Hn Hn1. rewrite generateLoyaltyId_next by lia. apply parse_loyaltyIdOf. lia.
Qed.

Lemma generateLoyaltyId_parseInt_witness :
  generateLoyaltyId (Js.of_Z 41) = "CUST042" /\
  Js.parseInt (Js.remove_first "CUST" (generateLoyaltyId (Js.of_Z 41))) = Js.of_Z 42.
Proof.
  split; [reflexivity|].
  apply (generateLoyaltyId_parseInt 41); [lia|reflexivity].
Defined.

(** X2: the number [createCoupon] reads back from a code made by
    [generateCouponCode] in a year that is not negative is the successor
    of the number it was made from:
    [parseInt(generateCouponCode(n).split('-')[2])] is [n + 1]. *)
Theorem generateCouponCode_parseInt (env : Env) (n : Z) :
  0 <= year env -> 0 <= n -> n + 1 < 2 ^ 53 ->
  Js.parseInt_nth (Js.split "-" (generateCouponCode env (Js.of_Z n))) 2 = Js.of_Z (n + 1).
Proof.
  intros Hy Hn Hn1. rewrite generateCouponCode_of_Z by lia. unfold couponCodeFor.
  rewrite split_couponCode.
  - cbn [Js.parseInt_nth nth_error]. apply parseInt_padStart. lia.
  - apply allDigits_String_of_Z, Hy.
  - apply allDigits_padStart, allDigits_String_of_Z. lia.
Qed.

Lemma generateCouponCode_parseInt_witness :
  generateCouponCode env2026 (Js.of_Z 41) = "COUP-2026-042" /\
  Js.parseInt_nth (Js.split "-" (generateCouponCode env2026 (Js.of_Z 41))) 2 = Js.of_Z 42.
Proof.
  split; [reflexivity|].
  apply (generateCouponCode_parseInt env2026 41); [cbn; lia|lia|reflexivity].
Defined.

(** ** Creating customers *)

Section Customers.

Variable hashPassword : string -> string.

Lemma createCustomer_created (env : Env) (body : CreateCustomerBody) (st : Store) :
  customerByEmail st (newEmail body) = None ->
  customers st !! newId env = None ->
  customerByLoyaltyId st (generateLoyaltyId (lastCustomerNumber st)) = None ->
  createCustomer hashPassword env body st =
    (respond 201
       (CustomerJson (newId env)
          {| loyaltyId := generateLoyaltyId (lastCustomerNumber st);
             name := newName body; email := newEmail body; phone := newPhone body;
             pinCode := hashPassword (pinOrGenerated env (newPinCode body));
             points := 0; totalSpent := 0; visitCount := 0; role := NORMAL;
             createdAt := now env |}
          (Some (pinOrGenerated env (newPinCode body)))),
     {| customers :=
          <[newId env :=
              {| loyaltyId := generateLoyaltyId (lastCustomerNumber st);
                 name := newName body; email := newEmail body; phone := newPhone body;
                 pinCode := hashPassword (pinOrGenerated env (newPinCode body));
                 points := 0; totalSpent := 0; visitCount := 0; role := NORMAL;
                 createdAt := now env |}]> (customers st);
        purchases := purchases st;
        coupons := coupons st |}).
Proof.
  intros He Hid Hl. unfold createCustomer. rewrite He, Hid, Hl. reflexivity.
Qed.

Lemma createCustomer_outcome (env : Env) (body : CreateCustomerBody) (st : Store) :
  (customerByEmail st (newEmail body) <> None /\
   createCustomer hashPassword env body st = (EmailAlreadyRegistered, st)) \/
  (customerByEmail st (newEmail body) = None /\
   (customers st !! newId env <> None \/
    customerByLoyaltyId st (generateLoyaltyId (lastCustomerNumber st)) <> None) /\
   createCustomer hashPassword env body st = (InternalServerError, st)) \/
  (customerByEmail st (newEmail body) = None /\
   customers st !! newId env = None /\
   customerByLoyaltyId st (generateLoyaltyId (lastCustomerNumber st)) = None).
Proof.
  unfold createCustomer.
  destruct (customerByEmail st (newEmail body)) eqn:He; [left; split; [discriminate|reflexivity]|].
  right.
  destruct (customers st !! newId env) eqn:Hid;
    [left; split; [reflexivity|]; split; [left; discriminate|reflexivity]|].
  destruct (customerByLoyaltyId st (generateLoyaltyId (lastCustomerNumber st))) eqn:Hl;
    [left; split; [reflexivity|]; split; [right; discriminate|reflexivity]|].
  right. auto.
Qed.

(** X3: [createCustomer] answers 400 and writes nothing when a customer
    already has the email; any answer other than 201 leaves the store as
    it was.  On 201 the store gains exactly one customer, under a fresh
    id and with an email and a loyalty id no other customer has: role
    NORMAL, no points, spending or visits, the loyalty id generated from
    the last one, and the hash of the PIN, while the response carries
    the PIN itself (the one sent, or a generated one when none or an
    empty one was sent).  Purchases and coupons are untouched. *)
Theorem createCustomer_effect (env : Env) (body : CreateCustomerBody) (st : Store) :
  let result := createCustomer hashPassword env body st in
  let pin := pinOrGenerated env (newPinCode body) in
  ((exists k c, customers st !! k = Some c /\ email c = newEmail body) ->
   result = (EmailAlreadyRegistered, st)) /\
  (status (fst result) <> 201 -> snd result = st) /\
  (status (fst result) = 201 ->
   let c :=
     {| loyaltyId := generateLoyaltyId (lastCustomerNumber st);
        name := newName body; email := newEmail body; phone := newPhone body;
        pinCode := hashPassword pin;
        points := 0; totalSpent := 0; visitCount := 0; role := NORMAL;
        createdAt := now env |} in
   fst result = respond 201 (CustomerJson (newId env) c (Some pin)) /\
   customers st !! newId env = None /\
   (forall k c', customers st !! k = Some c' ->
                 email c' <> newEmail body /\ loyaltyId c' <> loyaltyId c) /\
   customers (snd result) = <[newId env := c]> (customers st) /\
   purchases (snd result) = purchases st /\
   coupons (snd result) = coupons st).
Proof.
  cbv zeta. split; [|split].
  - intros (k & c & Hk & He).
    destruct (createCustomer_outcome env body st) as [[_ ->]|[[H _]|[H _]]]; [reflexivity|..];
      exfalso; rewrite customerByEmail_None in H; exact (H k c Hk He).
  - destruct (createCustomer_outcome env body st) as [[_ ->]|[(_ & _ & ->)|(He & Hid & Hl)]];
      [reflexivity..|].
    rewrite (createCustomer_created env body st He Hid Hl). cbn. congruence.
  - destruct (createCustomer_outcome env body st) as [[_ ->]|[(_ & _ & ->)|(He & Hid & Hl)]];
      [cbn; discriminate..|].
    rewrite (createCustomer_created env body st He Hid Hl). cbn. intros _.
    split; [reflexivity|]. split; [exact Hid|]. split; [|auto].
    intros k c' Hk. split.
    + rewrite customerByEmail_None in He. exact (He k c' Hk).
    + rewrite customerByLoyaltyId_None in Hl. exact (Hl k c' Hk).
Qed.

Lemma lastCustomerNumber_numbered (st : Store) (n : Z) :
  0 <= n <= 999 -> custNumbered st n -> lastCustomerNumber st = Js.of_Z n.
Proof.
  intros Hn [Hall Hlast]. unfold lastCustomerNumber.
  destruct (lastCustomer st) as [[k c]|] eqn:E.
  - apply lastCustomer_Some in E as (Hk & Hp & Hmax).
    destruct (Hall k c Hk Hp) as (i & Hi & Ei).
    destruct (Hlast ltac:(lia)) as (k' & c' & Hk' & En).
    assert (Hp' : String.prefix "CUST" (loyaltyId c') = true) by (rewrite En; apply prefix_CUST).
    specialize (Hmax k' c' Hk' Hp'). rewrite Ei, En in Hmax.
    destruct (Z.eq_dec i n) as [->|Hne].
    + rewrite Ei. apply parse_loyaltyIdOf. lia.
    + rewrite loyaltyIdOf_order in Hmax by lia. discriminate.
  - destruct (Z.eq_dec n 0) as [->|Hne]; [reflexivity|].
    destruct (Hlast ltac:(lia)) as (k' & c' & Hk' & En).
    exfalso. apply (lastCustomer_None st E k' c' Hk'). rewrite En. apply prefix_CUST.
Qed.

(** X4: while the loyalty ids that start with CUST are among CUST001 ...
    CUSTn with CUSTn in use ([n] at most 999; no such id when [n] is 0),
    a creation with an unused email and a fresh row id succeeds and
    assigns the next number, CUST followed by [n + 1] padded to three
    digits; the ids are then among CUST001 ... CUST(n+1). *)
Theorem createCustomer_consecutive (env : Env) (body : CreateCustomerBody) (st : Store)
    (n : Z) :
  0 <= n <= 999 ->
  custNumbered st n ->
  (forall k c, customers st !! k = Some c -> email c <> newEmail body) ->
  customers st !! newId env = None ->
  let result := createCustomer hashPassword env body st in
  exists c,
    fst result =
      respond 201 (CustomerJson (newId env) c (Some (pinOrGenerated env (newPinCode body)))) /\
    loyaltyId c = loyaltyIdOf (n + 1) /\
    customers (snd result) !! newId env = Some c /\
    custNumbered (snd result) (n + 1).
Proof.
  intros Hn Hnum Hemail Hid. cbv zeta.
  pose proof (lastCustomerNumber_numbered st n Hn Hnum) as Hlast.
  assert (Hgen : generateLoyaltyId (lastCustomerNumber st) = loyaltyIdOf (n + 1)).
  { rewrite Hlast. apply generateLoyaltyId_next; lia. }
  assert (Hfree : customerByLoyaltyId st (generateLoyaltyId (lastCustomerNumber st)) = None).
  { rewrite customerByLoyaltyId_None. intros k c Hk E. rewrite Hgen in E.
    destruct Hnum as [Hall _].
    destruct (Hall k c Hk ltac:(rewrite E; apply prefix_CUST)) as (i & Hi & Ei).
    rewrite E in Ei. apply loyaltyIdOf_inj in Ei; lia. }
  rewrite (createCustomer_created env body st); [|rewrite customerByEmail_None; exact Hemail|exact Hid|exact Hfree].
  eexists. cbn [fst snd customers]. split; [reflexivity|]. split; [exact Hgen|].
  split; [apply lookup_insert_eq|].
  split.
  - intros k c Hk Hp. cbn [customers] in Hk.
    destruct (decide (k = newId env)) as [->|Hne].
    + rewrite lookup_insert_eq in Hk. injection Hk as <-. exists (n + 1). split; [lia|exact Hgen].
    + rewrite lookup_insert_ne in Hk by congruence.
      destruct Hnum as [Hall _]. destruct (Hall k c Hk Hp) as (i & Hi & Ei).
      exists i. split; [lia|exact Ei].
  - intros _. eexists _, _. cbn [customers]. split; [apply lookup_insert_eq|exact Hgen].
Qed.

(** X5: once CUST999 and CUST1000 are both in use, with the loyalty ids
    that start with CUST among CUST001 ... CUST1000, no customer can be
    created any more: the last id in string order stays CUST999, the id
    generated from it is CUST1000 again, and every request ends with 400
    (email in use) or 500 and writes nothing. *)
Theorem createCustomer_exhausted (env : Env) (body : CreateCustomerBody) (st : Store) :
  custNumbered st 1000 ->
  (exists k c, customers st !! k = Some c /\ loyaltyId c = loyaltyIdOf 999) ->
  let result := createCustomer hashPassword env body st in
  generateLoyaltyId (lastCustomerNumber st) = "CUST1000" /\
  snd result = st /\
  (fst result = EmailAlreadyRegistered \/ fst result = InternalServerError) /\
  ((forall k c, customers st !! k = Some c -> email c <> newEmail body) ->
   fst result = InternalServerError).
Proof.
  intros [Hall Hlast] (k9 & c9 & Hk9 & E9). cbv zeta.
  destruct (Hlast ltac:(lia)) as (k0 & c0 & Hk0 & E0).
  assert (Hnum : lastCustomerNumber st = Js.of_Z 999).
  { unfold lastCustomerNumber. destruct (lastCustomer st) as [[k c]|] eqn:E.
    - apply lastCustomer_Some in E as (Hk & Hp & Hmax).
      destruct (Hall k c Hk Hp) as (i & Hi & Ei).
      assert (Hp9 : String.prefix "CUST" (loyaltyId c9) = true) by (rewrite E9; apply prefix_CUST).
      specialize (Hmax k9 c9 Hk9 Hp9). rewrite Ei, E9 in Hmax.
      destruct (Z.eq_dec i 999) as [->|Hne]; [rewrite Ei; apply parse_loyaltyIdOf; lia|].
      destruct (Z.eq_dec i 1000) as [->|Hne']; [vm_compute in Hmax; discriminate|].
      rewrite loyaltyIdOf_order in Hmax by lia. discriminate.
    - exfalso. apply (lastCustomer_None st E k9 c9 Hk9). rewrite E9. apply prefix_CUST. }
  assert (Hgen : generateLoyaltyId (lastCustomerNumber st) = "CUST1000").
  { rewrite Hnum. reflexivity. }
  split; [exact Hgen|].
  assert (Hused : customerByLoyaltyId st (generateLoyaltyId (lastCustomerNumber st)) <> None).
  { rewrite customerByLoyaltyId_None. intros H. apply (H k0 c0 Hk0). rewrite E0, Hgen. reflexivity. }
  destruct (createCustomer_outcome env body st) as [[He ->]|[(He & _ & ->)|(_ & _ & Hl)]];
    [|cbn; auto|contradiction].
  cbn. split; [reflexivity|]. split; [left; reflexivity|].
  intros Hfresh. exfalso. apply He. rewrite customerByEmail_None. exact Hfresh.
Qed.

End Customers.

Lemma seed_custNumbered : custNumbered (seed plain) 3.
Proof.
  split.
  - intros k c Hk Hp. unfold seed, seedCustomers in Hk. cbn [customers list_to_map foldr uncurry] in Hk.
    repeat (apply lookup_insert_Some in Hk as [[<- <-]|[_ Hk]];
            [first [discriminate Hp
                   |exists 1; split; [lia|reflexivity]
                   |exists 2; split; [lia|reflexivity]
                   |exists 3; split; [lia|reflexivity]]|]).
    rewrite lookup_empty in Hk. discriminate.
  - intros _. exists "id-3". eexists. split; [reflexivity|reflexivity].
Qed.

Lemma createCustomer_consecutive_witness :
  exists c,
    fst (createCustomer plain env2026 newcomer (seed plain)) =
      respond 201 (CustomerJson "id-new" c (Some "44444444")) /\
    loyaltyId c = "CUST004".
Proof.
  destruct (createCustomer_consecutive plain env2026 newcomer (seed plain) 3)
    as (c & E & L & _).
  - lia.
  - exact seed_custNumbered.
  - intros k c Hk. unfold seed, seedCustomers in Hk. cbn [customers list_to_map foldr uncurry] in Hk.
    repeat (apply lookup_insert_Some in Hk as [[<- <-]|[_ Hk]]; [discriminate|]).
    rewrite lookup_empty in Hk. discriminate.
  - reflexivity.
  - exists c. split; [exact E|exact L].
Defined.

Lemma thousand_custNumbered : custNumbered thousand 1000.
Proof.
  split.
  - intros k c Hk Hp. unfold thousand in Hk. cbn [customers list_to_map foldr uncurry] in Hk.
    repeat (apply lookup_insert_Some in Hk as [[<- <-]|[_ Hk]];
            [first [exists 999; split; [lia|reflexivity]
                   |exists 1000; split; [lia|reflexivity]]|]).
    rewrite lookup_empty in Hk. discriminate.
  - intros _. exists "id-1000". eexists. split; [reflexivity|reflexivity].
Qed.

Lemma createCustomer_exhausted_witness :
  createCustomer plain env2026 newcomer thousand = (InternalServerError, thousand).
Proof.
  destruct (createCustomer_exhausted plain env2026 newcomer thousand thousand_custNumbered)
    as (_ & Hst & _ & Hfresh).
  - exists "id-999". eexists. split; reflexivity.
  - rewrite <- Hst at 2. rewrite <- Hfresh; [apply surjective_pairing|].
    intros k c Hk. unfold thousand in Hk. cbn [customers list_to_map foldr uncurry] in Hk.
    repeat (apply lookup_insert_Some in Hk as [[<- <-]|[_ Hk]]; [discriminate|]).
    rewrite lookup_empty in Hk. discriminate.
Defined.

(** ** Coupon codes past 999 *)

Lemma parse_couponCodeFor (env : Env) (n : Z) :
  0 <= year env -> 0 <= n ->
  Js.parseInt_nth (Js.split "-" (couponCodeFor env n)) 2 = Js.of_Z (n + 1).
Proof.
  intros Hy Hn. unfold couponCodeFor. rewrite split_couponCode.
  - cbn [Js.parseInt_nth nth_error]. apply parseInt_padStart. lia.
  - apply allDigits_String_of_Z, Hy.
  - apply allDigits_padStart, allDigits_String_of_Z. lia.
Qed.

(** X6: once the codes COUP-y-999 and COUP-y-1000 of the current year
    [y] both exist and no code is above COUP-y-999 in string order, no
    coupon can be created any more: the code generated from the last one
    is COUP-y-1000 again, and a request for a customer with at least 100
    points ends with 500, no coupon and no points taken. *)
Theorem createCoupon_exhausted (env : Env) (user : User) (customerId : string)
    (st : Store) (customer : Customer) :
  0 <= year env ->
  userRole user = "ADMIN" \/ userId user = customerId ->
  customers st !! customerId = Some customer ->
  100 <= points customer ->
  is_Some (coupons st !! couponCodeFor env 998) ->
  is_Some (coupons st !! couponCodeFor env 999) ->
  (forall code c, coupons st !! code = Some c ->
                  String.ltb (couponCodeFor env 998) code = false) ->
  generateCouponCode env (lastCouponNumber st) = couponCodeFor env 999 /\
  createCoupon env user customerId st = (InternalServerError, st).
Proof.
  intros Hy Huser Hc Hp [c8 H8] [c9 H9] Hmax.
  assert (Hnum : lastCouponNumber st = Js.of_Z 999).
  { unfold lastCouponNumber. destruct (lastCoupon st) as [[code c]|] eqn:E.
    - apply lastCoupon_Some in E as [Hcode Hlast].
      assert (code = couponCodeFor env 998) as ->.
      { apply String_ltb_antisym; [exact (Hlast _ _ H8)|exact (Hmax _ _ Hcode)]. }
      apply (parse_couponCodeFor env 998); lia.
    - apply lastCoupon_None in E. rewrite E, lookup_empty in H8. discriminate. }
  assert (Hgen : generateCouponCode env (lastCouponNumber st) = couponCodeFor env 999).
  { rewrite Hnum. apply generateCouponCode_of_Z; lia. }
  split; [exact Hgen|].
  apply (createCoupon_collision env user customerId st customer Huser Hc Hp).
  rewrite Hgen, H9. discriminate.
Qed.

Lemma createCoupon_exhausted_witness :
  couponCodeFor env2026 998 = "COUP-2026-999" /\
  createCoupon env2026 anna "id-2" crowded = (InternalServerError, crowded).
Proof.
  split; [reflexivity|].
  eapply (createCoupon_exhausted env2026 anna "id-2" crowded).
  - cbn; lia.
  - right; reflexivity.
  - reflexivity.
  - cbn; lia.
  - eexists; reflexivity.
  - eexists; reflexivity.
  - intros code c Hk. unfold crowded in Hk. cbn [coupons list_to_map foldr uncurry] in Hk.
    repeat (apply lookup_insert_Some in Hk as [[<- <-]|[_ Hk]]; [reflexivity|]).
    rewrite lookup_empty in Hk. discriminate.
Defined.

(** ** Points by amount and by tier *)

Lemma tenths_cases (role : string) :
  tenths role = 10 \/ tenths role = 11 \/ tenths role = 14 \/ tenths role = 17.
Proof.
  unfold tenths. repeat (destruct (String.eqb role _)); auto.
Qed.

Lemma tenths_LOYAL (role : string) : role <> "LOYAL" \/ tenths role = 14.
Proof.
  destruct (String.eqb_spec role "LOYAL") as [->|H]; [right; reflexivity|left; exact H].
Qed.

Lemma loyalShort_at_least_5 (b : Z) : 0 <= b -> loyalShort b = true -> 5 <= b.
Proof.
  intros Hb H. unfold loyalShort in H. apply andb_prop in H as [H5 Hs].
  apply Z.eqb_eq in H5. apply Z.ltb_lt in Hs.
  destruct (Z.eq_dec b 0) as [->|Hne]; [vm_compute in Hs; discriminate|].
  pose proof (Z.div_mod b 5 ltac:(lia)). pose proof (Z.mod_pos_bound b 5 ltac:(lia)). lia.
Qed.

(** X7: for a given role [calculatePoints] never gives fewer points for
    a larger amount, and never more than 1.7 points per 100 units: with
    integral amounts [0 < a <= a' < 2^53] the points [p] and [p'] are
    integers with [0 <= p <= p'] and [1000 p' <= 17 a']. *)
Theorem calculatePoints_monotone (a a' : Z) (role : string) :
  0 < a -> a <= a' -> a' < 2 ^ 53 -> role ∉ Js.Object_prototype ->
  exists p p' : Z,
    calculatePoints (Js.of_Z a) role = Js.of_Z p /\
    calculatePoints (Js.of_Z a') role = Js.of_Z p' /\
    0 <= p /\ p <= p' /\ 1000 * p' <= 17 * a'.
Proof.
  intros Ha Haa Ha' Hrole.
  destruct (calculatePoints_value a role ltac:(lia) Hrole) as (p & E & Hp & Hne & Heq).
  destruct (calculatePoints_value a' role ltac:(lia) Hrole) as (p' & E' & Hp' & Hne' & Heq').
  exists p, p'. split; [exact E|]. split; [exact E'|]. split; [lia|].
  unfold pointsForPurchase in *.
  pose proof (Z.div_le_mono a a' 100 ltac:(lia) Haa) as Hb.
  pose proof (Z.div_pos a 100 ltac:(lia) ltac:(lia)) as Hb0.
  pose proof (Z.div_mod a' 100 ltac:(lia)) as Ed'.
  pose proof (Z.mod_pos_bound a' 100 ltac:(lia)) as Bd'.
  set (b := a / 100) in *. set (b' := a' / 100) in *.
  pose proof (Z.div_mod (b * tenths role) 10 ltac:(lia)) as Eq1.
  pose proof (Z.mod_pos_bound (b * tenths role) 10 ltac:(lia)) as Bq1.
  pose proof (Z.div_mod (b' * tenths role) 10 ltac:(lia)) as Eq2.
  pose proof (Z.mod_pos_bound (b' * tenths role) 10 ltac:(lia)) as Bq2.
  destruct (String.eqb_spec role "LOYAL") as [->|Hl].
  - specialize (Heq eq_refl). specialize (Heq' eq_refl).
    change (tenths "LOYAL") with 14 in *.
    split; [|destruct (loyalShort b'); lia].
    destruct (Z.eq_dec b b') as [Ebb|Hbb].
    + rewrite Heq, Heq', Ebb. lia.
    + destruct (loyalShort b); destruct (loyalShort b'); lia.
  - specialize (Hne Hl). specialize (Hne' Hl).
    destruct (tenths_cases role) as [T|[T|[T|T]]]; rewrite T in *; lia.
Qed.

Lemma calculatePoints_monotone_witness :
  exists p p' : Z,
    calculatePoints (Js.of_Z 4400) "LOYAL" = Js.of_Z p /\
    calculatePoints (Js.of_Z 4500) "LOYAL" = Js.of_Z p' /\
    p <= p'.
Proof.
  destruct (calculatePoints_monotone 4400 4500 "LOYAL") as (p & p' & E & E' & _ & H & _).
  - lia.
  - lia.
  - reflexivity.
  - not_listed.
  - exists p, p'. auto.
Defined.

(** X8: for a given integral amount [0 < a < 2^53] a higher tier never
    earns fewer points: ADMIN earns [floor(a / 100)], and ADMIN <=
    NORMAL <= LOYAL <= OWNER. *)
Theorem calculatePoints_tiers (a : Z) :
  0 < a < 2 ^ 53 ->
  exists pa pn pl po : Z,
    calculatePoints (Js.of_Z a) "ADMIN" = Js.of_Z pa /\
    calculatePoints (Js.of_Z a) "NORMAL" = Js.of_Z pn /\
    calculatePoints (Js.of_Z a) "LOYAL" = Js.of_Z pl /\
    calculatePoints (Js.of_Z a) "OWNER" = Js.of_Z po /\
    pa = a / 100 /\ pa <= pn /\ pn <= pl /\ pl <= po.
Proof.
  intros Ha.
  destruct (calculatePoints_value a "ADMIN" Ha ltac:(not_listed)) as (pa & Ea & _ & Ha' & _).
  destruct (calculatePoints_value a "NORMAL" Ha ltac:(not_listed)) as (pn & En & _ & Hn' & _).
  destruct (calculatePoints_value a "LOYAL" Ha ltac:(not_listed)) as (pl & El & _ & _ & Hl').
  destruct (calculatePoints_value a "OWNER" Ha ltac:(not_listed)) as (po & Eo & _ & Ho' & _).
  exists pa, pn, pl, po. repeat (split; [assumption|]).
  specialize (Ha' ltac:(discriminate)). specialize (Hn' ltac:(discriminate)).
  specialize (Hl' eq_refl). specialize (Ho' ltac:(discriminate)).
  unfold pointsForPurchase in *.
  change (tenths "ADMIN") with 10 in *. change (tenths "NORMAL") with 11 in *.
  change (tenths "LOYAL") with 14 in *. change (tenths "OWNER") with 17 in *.
  pose proof (Z.div_pos a 100 ltac:(lia) ltac:(lia)) as Hb0.
  set (b := a / 100) in *.
  pose proof (Z.div_mod (b * 10) 10 ltac:(lia)). pose proof (Z.mod_pos_bound (b * 10) 10 ltac:(lia)).
  pose proof (Z.div_mod (b * 11) 10 ltac:(lia)). pose proof (Z.mod_pos_bound (b * 11) 10 ltac:(lia)).
  pose proof (Z.div_mod (b * 14) 10 ltac:(lia)). pose proof (Z.mod_pos_bound (b * 14) 10 ltac:(lia)).
  pose proof (Z.div_mod (b * 17) 10 ltac:(lia)). pose proof (Z.mod_pos_bound (b * 17) 10 ltac:(lia)).
  destruct (loyalShort b) eqn:Es.
  - pose proof (loyalShort_at_least_5 b Hb0 Es). lia.
  - lia.
Qed.

Lemma calculatePoints_tiers_witness :
  exists pa pn pl po : Z,
    calculatePoints (Js.of_Z 4500) "ADMIN" = Js.of_Z pa /\
    calculatePoints (Js.of_Z 4500) "NORMAL" = Js.of_Z pn /\
    calculatePoints (Js.of_Z 4500) "LOYAL" = Js.of_Z pl /\
    calculatePoints (Js.of_Z 4500) "OWNER" = Js.of_Z po /\
    pa = 45 /\ pa <= pn /\ pn <= pl /\ pl <= po.
Proof.
  destruct (calculatePoints_tiers 4500) as (pa & pn & pl & po & H).
  - lia.
  - exists pa, pn, pl, po. exact H.
Defined.

(** ** Reading purchases and coupons *)

Lemma newerFirst_trans {A} (col : A -> Z) : Transitive (newerFirst col).
Proof. intros x y z. unfold newerFirst. lia. Qed.

Lemma newerFirst_total {A} (col : A -> Z) : Total (newerFirst col).
Proof. intros x y. unfold newerFirst. lia. Qed.

Lemma orderByDesc_perm {A} (col : A -> Z) (rows : list A) : orderByDesc col rows ≡ₚ rows.
Proof. apply merge_sort_Permutation. Qed.

Lemma orderByDesc_sorted {A} (col : A -> Z) (rows : list A) :
  StronglySorted (newerFirst col) (orderByDesc col rows).
Proof.
  apply StronglySorted_merge_sort; [apply newerFirst_trans|apply newerFirst_total].
Qed.

Lemma gate_closed (user : User) (id : string) :
  userRole user <> "ADMIN" -> userId user <> id ->
  negb (String.eqb (userRole user) "ADMIN") && negb (String.eqb (userId user) id) = true.
Proof.
  intros H1 H2. apply String.eqb_neq in H1, H2. rewrite H1, H2. reflexivity.
Qed.

(** X9: [getPurchasesByCustomer] refuses with 403 a caller who is
    neither an administrator nor the customer asked for.  Anyone else
    gets, with status 200, exactly the purchases recorded for that
    customer, each as often as it is stored, the newest first; for an id
    without purchases, known or not, this is the empty list and not a
    404. *)
Theorem getPurchasesByCustomer_reply (user : User) (customerId : string) (st : Store) :
  (userRole user <> "ADMIN" -> userId user <> customerId ->
   getPurchasesByCustomer user customerId st = Refused AccessDenied) /\
  (userRole user = "ADMIN" \/ userId user = customerId ->
   exists l,
     getPurchasesByCustomer user customerId st = Replied 200 l /\
     (l ≡ₚ filter (fun p => purchaseCustomer p = customerId) (purchases st)) /\
     (forall p, p ∈ l <-> (p ∈ purchases st) /\ purchaseCustomer p = customerId) /\
     StronglySorted (fun p q => timestamp q <= timestamp p) l /\
     ((forall p, p ∈ purchases st -> purchaseCustomer p <> customerId) -> l = [])).
Proof.
  unfold getPurchasesByCustomer. split.
  - intros H1 H2. rewrite gate_closed by assumption. reflexivity.
  - intros Hu. rewrite createCoupon_gate_open by exact Hu.
    eexists. split; [reflexivity|].
    pose proof (orderByDesc_perm timestamp
                  (filter (fun p => purchaseCustomer p = customerId) (purchases st))) as Hperm.
    split; [exact Hperm|]. split; [|split].
    + intros p. rewrite Hperm, list_elem_of_filter. tauto.
    + apply orderByDesc_sorted.
    + intros Hnone.
      destruct (orderByDesc timestamp
                  (filter (fun p => purchaseCustomer p = customerId) (purchases st)))
        as [|p l'] eqn:E; [reflexivity|].
      assert (Hin : p ∈ p :: l') by left.
      rewrite Hperm, list_elem_of_filter in Hin. destruct Hin as [Hc Hin].
      exfalso. exact (Hnone p Hin Hc).
Qed.

Lemma createPurchase_recorded (env : Env) (body : CreatePurchaseBody) (st : Store)
    (p : Purchase) (np nv : Z) (nr : Role) :
  fst (createPurchase env body st) = respond 201 (PurchaseJson p np nv nr) ->
  purchaseCustomer p = forCustomer body /\
  purchases (snd (createPurchase env body st)) = p :: purchases st /\
  coupons (snd (createPurchase env body st)) = coupons st.
Proof.
  unfold createPurchase.
  destruct (customers st !! forCustomer body) as [customer|]; [|discriminate].
  destruct (Js.to_Z _) as [pts|]; [|discriminate].
  cbn. intros H. injection H as <- _ _ _. cbn. auto.
Qed.

(** X10: a recorded purchase is read back: after [createPurchase] has
    answered 201, the purchases sent for that customer are those sent
    before together with the new one, and what is sent for any other
    customer is as before. *)
Theorem createPurchase_then_read (env : Env) (body : CreatePurchaseBody) (st : Store)
    (p : Purchase) (np nv : Z) (nr : Role) (user : User) (customerId : string) :
  fst (createPurchase env body st) = respond 201 (PurchaseJson p np nv nr) ->
  userRole user = "ADMIN" \/ userId user = customerId ->
  let after := snd (createPurchase env body st) in
  exists l l',
    getPurchasesByCustomer user customerId st = Replied 200 l /\
    getPurchasesByCustomer user customerId after = Replied 200 l' /\
    (customerId = forCustomer body -> (l' ≡ₚ p :: l) /\ (p ∈ l')) /\
    (customerId <> forCustomer body -> l' = l).
Proof.
  intros Hcreated Hu. cbv zeta.
  destruct (createPurchase_recorded env body st p np nv nr Hcreated) as (Hp & Hps & _).
  unfold getPurchasesByCustomer. rewrite createCoupon_gate_open by exact Hu.
  eexists _, _. split; [reflexivity|]. split; [reflexivity|].
  rewrite Hps. split.
  - intros ->. rewrite filter_cons_True by exact Hp.
    assert (Hperm : orderByDesc timestamp
                      (p :: filter (fun q => purchaseCustomer q = forCustomer body) (purchases st))
                    ≡ₚ p :: orderByDesc timestamp
                         (filter (fun q => purchaseCustomer q = forCustomer body) (purchases st))).
    { rewrite !orderByDesc_perm. reflexivity. }
    split; [exact Hperm|]. rewrite Hperm. left.
  - intros Hne. rewrite filter_cons_False by congruence. reflexivity.
Qed.

Lemma createPurchase_then_read_witness :
  exists p l',
    status (fst (createPurchase env2026
                   {| forCustomer := "id-1"; paid := 2500; receipt := None |} (seed plain)))
    = 201 /\
    getPurchasesByCustomer peter "id-1"
      (snd (createPurchase env2026
              {| forCustomer := "id-1"; paid := 2500; receipt := None |} (seed plain)))
    = Replied 200 l' /\
    (p ∈ l') /\ pointsEarned p = 27.
Proof.
  destruct (createPurchase_then_read env2026
              {| forCustomer := "id-1"; paid := 2500; receipt := None |} (seed plain)
              {| purchaseId := "id-new"; purchaseCustomer := "id-1"; amount := 2500;
                 pointsEarned := 27; receiptNumber := "RCP-1767261600000-7";
                 timestamp := 1767261600000 |} 112 13 NORMAL peter "id-1")
    as (l & l' & _ & E' & Hsame & _).
  - reflexivity.
  - right; reflexivity.
  - eexists _, l'. split; [reflexivity|]. split; [exact E'|].
    split; [apply Hsame; reflexivity|reflexivity].
Defined.

Lemma createCoupon_created_inv (env : Env) (user : User) (customerId : string) (st : Store)
    (code : string) (coupon : Coupon) :
  fst (createCoupon env user customerId st) = respond 201 (CouponJson code coupon) ->
  exists customer,
    customers st !! customerId = Some customer /\
    100 <= points customer /\
    coupons st !! code = None /\
    coupon = {| couponId := newId env; couponCustomer := customerId; value := 1000;
                couponCreatedAt := now env; redeemed := false; redeemedAt := None |} /\
    snd (createCoupon env user customerId st) =
      {| customers := <[customerId := withPoints customer (points customer - 100)]> (customers st);
         purchases := purchases st;
         coupons := <[code := coupon]> (coupons st) |}.
Proof.
  unfold createCoupon.
  destruct (negb _ && negb _); [discriminate|].
  destruct (customers st !! customerId) as [customer|]; [|discriminate].
  destruct (Z.ltb_spec (points customer) 100) as [Hlt|Hge]; [discriminate|].
  destruct (coupons st !! generateCouponCode env (lastCouponNumber st)) eqn:E; [discriminate|].
  cbn. intros Hr. injection Hr as <- <-. exists customer. auto.
Qed.

(** X11: a created coupon is read back.  After [createCoupon] has
    answered 201 with a code, that code, unknown to [lookupCoupon]
    before, is found with the coupon, not redeemed, and with the id,
    loyalty id, name and phone of the customer it was created for; and
    the coupons sent for that customer by [getCouponsByCustomer] are
    those sent before together with the new one. *)
Theorem createCoupon_then_read (env : Env) (user : User) (customerId : string)
    (st : Store) (code : string) (coupon : Coupon) (reader : User) :
  fst (createCoupon env user customerId st) = respond 201 (CouponJson code coupon) ->
  userRole reader = "ADMIN" \/ userId reader = customerId ->
  let after := snd (createCoupon env user customerId st) in
  lookupCoupon code st = Refused CouponNotFound /\
  redeemed coupon = false /\
  (exists customer,
     customers st !! customerId = Some customer /\
     lookupCoupon code after = Replied 200 (coupon, Some (ownerOf customerId customer))) /\
  (exists l l',
     getCouponsByCustomer reader customerId st = Replied 200 l /\
     getCouponsByCustomer reader customerId after = Replied 200 l' /\
     (l' ≡ₚ (code, coupon) :: l)).
Proof.
  intros Hcreated Hreader. cbv zeta.
  destruct (createCoupon_created_inv env user customerId st code coupon Hcreated)
    as (customer & Hc & Hp & Hfree & Hcoupon & ->).
  split; [unfold lookupCoupon; rewrite Hfree; reflexivity|].
  split; [rewrite Hcoupon; reflexivity|].
  split.
  - exists customer. split; [exact Hc|].
    unfold lookupCoupon. cbn [coupons customers]. rewrite lookup_insert_eq.
    assert (Hcc : couponCustomer coupon = customerId) by (rewrite Hcoupon; reflexivity).
    rewrite Hcc, lookup_insert_eq. reflexivity.
  - unfold getCouponsByCustomer. rewrite createCoupon_gate_open by exact Hreader.
    eexists _, _. split; [reflexivity|]. split; [reflexivity|].
    cbn [coupons]. rewrite !orderByDesc_perm.
    rewrite (map_to_list_insert _ _ _ Hfree).
    rewrite filter_cons_True by (rewrite Hcoupon; reflexivity).
    reflexivity.
Qed.

Lemma createCoupon_then_read_witness :
  let coupon :=
    {| couponId := "id-new"; couponCustomer := "id-2"; value := 1000;
       couponCreatedAt := 1767261600000; redeemed := false; redeemedAt := None |} in
  fst (createCoupon env2026 anna "id-2" (seed plain)) =
    respond 201 (CouponJson "COUP-2026-003" coupon) /\
  lookupCoupon "COUP-2026-003" (snd (createCoupon env2026 anna "id-2" (seed plain))) =
    Replied 200
      (coupon,
       Some {| ownerId := "id-2"; ownerLoyaltyId := "CUST002"; ownerName := "Kovacs Anna";
               ownerPhone := "+36302222222" |}).
Proof.
  cbv zeta. split; [reflexivity|].
  destruct (createCoupon_then_read env2026 anna "id-2" (seed plain) "COUP-2026-003"
              {| couponId := "id-new"; couponCustomer := "id-2"; value := 1000;
                 couponCreatedAt := 1767261600000; redeemed := false; redeemedAt := None |}
              anna)
    as (_ & _ & (customer & Hc & Hl) & _).
  - reflexivity.
  - right; reflexivity.
  - rewrite Hl. injection Hc as <-. reflexivity.
Defined.

(** X12: [lookupCoupon] and [redeemCoupon] agree.  A code that
    [lookupCoupon] does not find (404) is refused by [redeemCoupon] with
    the same 404; a coupon it shows as redeemed is refused with
    AlreadyRedeemed; and a coupon it shows as not redeemed is redeemed
    with status 200, after which [lookupCoupon] shows it as redeemed at
    the time of the request, with the same owner. *)
Theorem lookupCoupon_redeemCoupon (env : Env) (code : string) (st : Store) :
  match lookupCoupon code st with
  | Refused r =>
      r = CouponNotFound /\ coupons st !! code = None /\
      redeemCoupon env code st = (CouponNotFound, st)
  | Replied s (coupon, owner) =>
      s = 200 /\ coupons st !! code = Some coupon /\
      owner = (ownerOf (couponCustomer coupon) <$> customers st !! couponCustomer coupon) /\
      (redeemed coupon = true -> redeemCoupon env code st = (AlreadyRedeemed, st)) /\
      (redeemed coupon = false ->
       exists coupon',
         fst (redeemCoupon env code st) = respond 200 (CouponJson code coupon') /\
         redeemed coupon' = true /\ redeemedAt coupon' = Some (now env) /\
         lookupCoupon code (snd (redeemCoupon env code st)) = Replied 200 (coupon', owner))
  end.
Proof.
  unfold lookupCoupon, redeemCoupon.
  destruct (coupons st !! code) as [coupon|] eqn:E; [|auto].
  split; [reflexivity|]. split; [reflexivity|]. split; [reflexivity|].
  destruct (redeemed coupon); split; intros H; try discriminate H; [reflexivity|].
  eexists. cbn [fst snd coupons customers couponCustomer]. split; [reflexivity|].
  split; [reflexivity|]. split; [reflexivity|].
  rewrite lookup_insert_eq. reflexivity.
Qed.

(** ** Logging in *)

Lemma find_unique_map {A} (f : string * A -> bool) (m : gmap string A) (k : string) (a : A) :
  m !! k = Some a -> f (k, a) = true ->
  (forall k' a', m !! k' = Some a' -> f (k', a') = true -> k' = k) ->
  List.find f (map_to_list m) = Some (k, a).
Proof.
  intros Hk Hf Huniq. destruct (List.find f (map_to_list m)) as [[k' a']|] eqn:E.
  - apply find_Some_map in E as [Hk' Hf']. pose proof (Huniq k' a' Hk' Hf') as ->.
    congruence.
  - rewrite find_None_map in E. rewrite (E k a Hk) in Hf. discriminate.
Qed.

Section Login.

Variable hashPassword : string -> string.
Variable comparePassword : string -> string -> bool.
Variable generateAccessToken : Env -> TokenPayload -> string.
Variable generateRefreshToken : Env -> TokenPayload -> string.

(** What [utils/password.ts] is there for: a PIN matches its own hash. *)
Hypothesis comparePassword_hashPassword :
  forall pin, comparePassword pin (hashPassword pin) = true.

(** X13: a created customer can log in.  After [createCustomer] has
    answered 201, [login] with the loyalty id and the PIN of that
    response answers 200 with tokens signed for the new row's id,
    loyalty id and role NORMAL, and with a user object showing no points
    and no visits; with a PIN that does not match the stored hash it
    answers the same 401 as for a loyalty id nobody has. *)
Theorem login_after_createCustomer (env env' : Env) (body : CreateCustomerBody)
    (st : Store) (id : string) (c : Customer) (pin : string) :
  fst (createCustomer hashPassword env body st) = respond 201 (CustomerJson id c (Some pin)) ->
  let after := snd (createCustomer hashPassword env body st) in
  let payload := {| tokenId := id; tokenLoyaltyId := loyaltyId c; tokenRole := NORMAL |} in
  login comparePassword generateAccessToken generateRefreshToken env' (loyaltyId c) pin after =
    Replied 200
      {| accessToken := generateAccessToken env' payload;
         refreshToken := generateRefreshToken env' payload;
         loggedIn :=
           {| loginId := id; loginLoyaltyId := loyaltyId c; loginName := newName body;
              loginEmail := newEmail body; loginPhone := newPhone body;
              loginPoints := 0; loginVisitCount := 0; loginRole := NORMAL |} |} /\
  (forall wrong,
     comparePassword wrong (hashPassword pin) = false ->
     login comparePassword generateAccessToken generateRefreshToken env' (loyaltyId c) wrong
       after = Refused InvalidCredentials) /\
  (forall unknown wrong,
     (forall k c', customers after !! k = Some c' -> loyaltyId c' <> unknown) ->
     login comparePassword generateAccessToken generateRefreshToken env' unknown wrong after =
       Refused InvalidCredentials).
Proof.
  intros Hcreated. cbv zeta.
  destruct (createCustomer_outcome hashPassword env body st)
    as [[_ E]|[(_ & _ & E)|(He & Hid & Hl)]];
    [rewrite E in Hcreated; discriminate Hcreated..|].
  rewrite (createCustomer_created hashPassword env body st He Hid Hl) in *.
  cbn [fst snd] in *. injection Hcreated as <- <- <-.
  set (c := {| loyaltyId := generateLoyaltyId (lastCustomerNumber st); name := newName body;
               email := newEmail body; phone := newPhone body;
               pinCode := hashPassword (pinOrGenerated env (newPinCode body));
               points := 0; totalSpent := 0; visitCount := 0; role := NORMAL;
               createdAt := now env |}).
  assert (Hfind : customerByLoyaltyId
                    {| customers := <[newId env := c]> (customers st);
                       purchases := purchases st; coupons := coupons st |}
                    (loyaltyId c) = Some (newId env, c)).
  { unfold customerByLoyaltyId. cbn [customers]. apply find_unique_map.
    - apply lookup_insert_eq.
    - cbn. apply String.eqb_refl.
    - intros k' c' Hk' Hf'. cbn in Hf'. apply String.eqb_eq in Hf'.
      destruct (decide (k' = newId env)) as [->|Hne]; [reflexivity|].
      rewrite lookup_insert_ne in Hk' by congruence.
      rewrite customerByLoyaltyId_None in Hl. exfalso. exact (Hl k' c' Hk' Hf'). }
  split; [|split].
  - unfold login. rewrite Hfind. cbn [pinCode c].
    rewrite comparePassword_hashPassword. reflexivity.
  - intros wrong Hwrong. unfold login. rewrite Hfind. cbn [pinCode c].
    rewrite Hwrong. reflexivity.
  - intros unknown wrong Hunknown. unfold login.
    rewrite (proj2 (customerByLoyaltyId_None _ unknown) Hunknown). reflexivity.
Qed.

End Login.

Lemma login_after_createCustomer_witness :
  fst (createCustomer plain env2026 newcomer (seed plain)) =
    respond 201
      (CustomerJson "id-new"
         {| loyaltyId := "CUST004"; name := "Varga Dora"; email := "dora.varga@email.hu";
            phone := "+36304444444"; pinCode := "44444444";
            points := 0; totalSpent := 0; visitCount := 0; role := NORMAL;
            createdAt := 1767261600000 |}
         (Some "44444444")) /\
  exists reply,
    login String.eqb (fun _ p => tokenId p) (fun _ p => tokenLoyaltyId p) env2026
      "CUST004" "44444444" (snd (createCustomer plain env2026 newcomer (seed plain)))
    = Replied 200 reply /\
    loginId (loggedIn reply) = "id-new".
Proof.
  split; [reflexivity|].
  destruct (login_after_createCustomer plain String.eqb (fun _ p => tokenId p)
              (fun _ p => tokenLoyaltyId p) String.eqb_refl env2026 env2026 newcomer
              (seed plain) "id-new"
              {| loyaltyId := "CUST004"; name := "Varga Dora"; email := "dora.varga@email.hu";
                 phone := "+36304444444"; pinCode := "44444444";
                 points := 0; totalSpent := 0; visitCount := 0; role := NORMAL;
                 createdAt := 1767261600000 |}
              "44444444" eq_refl) as (Hlogin & _).
  eexists. split; [exact Hlogin|reflexivity].
Defined.

(** ** The admin page's preview *)

Lemma loadData_In (st : Store) (v : CustomerView) :
  In v (loadData st) <->
  exists k c, customers st !! k = Some c /\ role c <> ADMIN /\ v = selectCustomer (k, c).
Proof.
  unfold loadData, getAllCustomers. rewrite filter_In, <- list_elem_of_In.
  rewrite orderByDesc_perm, list_elem_of_fmap. split.
  - intros [([k c] & -> & Hin) Hrole]. apply elem_of_map_to_list in Hin.
    exists k, c. split; [exact Hin|]. split; [|reflexivity].
    cbn in Hrole. intros E. rewrite E in Hrole. discriminate.
  - intros (k & c & Hk & Hrole & ->). split.
    + exists (k, c). split; [reflexivity|]. apply elem_of_map_to_list, Hk.
    + cbn. destruct (role c); congruence.
Qed.

Lemma multipliers_Role (r : Role) :
  Js.or_else (Js.get multipliers (Role_name r)) lit_1_0 = Js.get multipliers (Role_name r).
Proof. destruct r; reflexivity. Qed.

(** X14: for a customer who is not an administrator and an amount that
    is a whole number of hundreds, the points the admin page previews
    are the points [calculatePoints] grants when the purchase is
    recorded; an administrator is not among the page's customers, and
    the preview for one is 0.  For other amounts the two can differ,
    because the preview does not round the hundreds down first: for 190
    and a NORMAL customer the page shows 2 and the purchase earns 1. *)
Theorem calculatePointsPreview_hundreds (st : Store) (id : string) (c : Customer) (b : Z) :
  customers st !! id = Some c ->
  0 < b -> 100 * b < 2 ^ 53 ->
  (role c <> ADMIN ->
   calculatePointsPreview (loadData st) (Js.of_Z (100 * b)) id
   = calculatePoints (Js.of_Z (100 * b)) (Role_name (role c))) /\
  (role c = ADMIN ->
   forall amount, calculatePointsPreview (loadData st) amount id = Js.of_Z 0) /\
  calculatePointsPreview (loadData (seed plain)) (Js.of_Z 190) "id-1" = Js.of_Z 2 /\
  calculatePoints (Js.of_Z 190) "NORMAL" = Js.of_Z 1.
Proof.
  intros Hc Hb Hb100. split; [|split; [|split; vm_compute; reflexivity]].
  - intros Hrole. unfold calculatePointsPreview.
    destruct (List.find (fun v => String.eqb (viewId v) id) (loadData st)) as [v|] eqn:E.
    + apply find_some in E as [Hin Hid]. apply loadData_In in Hin as (k & c' & Hk & _ & ->).
      cbn in Hid. apply String.eqb_eq in Hid. subst k.
      assert (c' = c) as -> by congruence. cbn [viewRole selectCustomer snd].
      rewrite div_100_exact by lia.
      rewrite calculatePoints_base by lia.
      replace (100 * b / 100) with b by (rewrite Z.mul_comm, Z.div_mul; lia).
      rewrite multipliers_Role. reflexivity.
    + exfalso. pose proof (find_none _ _ E (selectCustomer (id, c))) as Hn.
      cbn in Hn. rewrite String.eqb_refl in Hn.
      assert (true = false); [|discriminate]. apply Hn.
      apply loadData_In. exists id, c. auto.
  - intros Hrole amount. unfold calculatePointsPreview.
    destruct (List.find (fun v => String.eqb (viewId v) id) (loadData st)) as [v|] eqn:E;
      [|reflexivity].
    exfalso. apply find_some in E as [Hin Hid].
    apply loadData_In in Hin as (k & c' & Hk & Hne & ->).
    cbn in Hid. apply String.eqb_eq in Hid. subst k.
    assert (c' = c) as -> by congruence. contradiction.
Qed.

Lemma calculatePointsPreview_hundreds_witness :
  calculatePointsPreview (loadData (seed plain)) (Js.of_Z 2500) "id-1"
  = calculatePoints (Js.of_Z 2500) "NORMAL" /\
  calculatePointsPreview (loadData (seed plain)) (Js.of_Z 2500) "id-admin" = Js.of_Z 0.
Proof.
  split.
  - destruct (calculatePointsPreview_hundreds (seed plain) "id-1" _ 25 eq_refl
                ltac:(lia) eq_refl) as (H & _).
    apply H. discriminate.
  - destruct (calculatePointsPreview_hundreds (seed plain) "id-admin" _ 25 eq_refl
                ltac:(lia) eq_refl) as (_ & H & _).
    apply H. reflexivity.
Defined.

(** ** Browser storage *)

Lemma probe_working (items : gmap string string) :
  Browser.isLocalStorageAvailable (Browser.Working items)
  = (true, Browser.Working (delete Browser.probe items)).
Proof.
  unfold Browser.isLocalStorageAvailable. do 2 f_equal. apply delete_insert_eq.
Qed.

(** The session key is neither the probe key nor [__proto__]. *)
Lemma safeGetItem_currentUser (value : string) (s : Browser.Storage) :
  value <> "" ->
  fst (Browser.safeGetItem "currentUser" (Browser.safeSetItem "currentUser" value s))
  = Browser.Text value.
Proof.
  intros Hne. apply String.eqb_neq in Hne.
  destruct s as [[items|] memory]; unfold Browser.safeSetItem, Browser.safeGetItem.
  - cbn [Browser.localStorage Browser.memoryStorage].
    rewrite !probe_working. cbn [fst Browser.localStorage]. rewrite probe_working. cbn [fst].
    unfold Browser.getItem.
    rewrite lookup_delete_ne by (unfold Browser.probe; discriminate).
    rewrite lookup_insert_eq. reflexivity.
  - cbn. unfold Browser.memoryItem, Browser.memorySet. cbn.
    rewrite lookup_insert_eq, Hne. reflexivity.
Qed.

(** X15: what was stored is read back.  While [localStorage] works,
    [safeGetItem] after [safeSetItem] gives the stored string for every
    key but the probe key of the availability test, which the test
    itself removes again.  While it is blocked, the value comes from
    [memoryStorage], where an empty string reads back as [null]. *)
Theorem safeSetItem_safeGetItem (key value : string) (s : Browser.Storage) :
  (forall items,
     Browser.localStorage s = Browser.Working items ->
     fst (Browser.safeGetItem key (Browser.safeSetItem key value s))
     = (if String.eqb key Browser.probe then Browser.Null else Browser.Text value)) /\
  (Browser.localStorage s = Browser.Blocked ->
   key <> "__proto__" ->
   fst (Browser.safeGetItem key (Browser.safeSetItem key value s))
   = (if String.eqb value "" then Browser.Null else Browser.Text value)).
Proof.
  destruct s as [ls memory]; cbn [Browser.localStorage]. split.
  - intros items ->. unfold Browser.safeSetItem, Browser.safeGetItem.
    cbn [Browser.localStorage Browser.memoryStorage].
    rewrite !probe_working. cbn [fst Browser.localStorage]. rewrite probe_working. cbn [fst].
    unfold Browser.getItem. destruct (String.eqb_spec key Browser.probe) as [->|Hne].
    + rewrite lookup_delete_eq. reflexivity.
    + rewrite lookup_delete_ne by congruence. rewrite lookup_insert_eq. reflexivity.
  - intros -> Hproto. unfold Browser.safeSetItem, Browser.safeGetItem. cbn.
    unfold Browser.memoryItem, Browser.memorySet. apply String.eqb_neq in Hproto.
    rewrite Hproto, lookup_insert_eq. reflexivity.
Qed.


(** X16: what was removed is gone: [safeGetItem] after [safeRemoveItem]
    gives [null], except that with [localStorage] blocked the name of a
    property every object inherits gives that property. *)
Theorem safeRemoveItem_safeGetItem (key : string) (s : Browser.Storage) :
  fst (Browser.safeGetItem key (Browser.safeRemoveItem key s)) =
    match Browser.localStorage s with
    | Browser.Working _ => Browser.Null
    | Browser.Blocked =>
        if bool_decide (key ∈ Js.Object_prototype) then Browser.Inherited else Browser.Null
    end.
Proof.
  destruct s as [[items|] memory]; cbn [Browser.localStorage].
  - unfold Browser.safeRemoveItem, Browser.safeGetItem.
    cbn [Browser.localStorage Browser.memoryStorage].
    rewrite !probe_working. cbn [fst Browser.localStorage]. rewrite probe_working. cbn [fst].
    unfold Browser.getItem. destruct (decide (key = Browser.probe)) as [->|Hne].
    + rewrite lookup_delete_eq. reflexivity.
    + rewrite lookup_delete_ne, lookup_delete_eq by congruence. reflexivity.
  - unfold Browser.safeRemoveItem, Browser.safeGetItem. cbn. unfold Browser.memoryItem.
    rewrite lookup_delete_eq. reflexivity.
Qed.

Section SessionFacts.

Variable Account : Type.
Variable JSON_stringify : Account -> string.
Variable JSON_parse : string -> option Account.

(** What [JSON] is there for: a user written out parses back, and is
    never written as the empty text. *)
Hypothesis parse_stringify : forall u, JSON_parse (JSON_stringify u) = Some u.
Hypothesis stringify_nonempty : forall u, JSON_stringify u <> "".

Lemma getAuth_cleared (s : Browser.Storage) :
  fst (Browser.getAuth Account JSON_parse (Browser.clearAuth s)) = None.
Proof.
  destruct s as [[items|] memory];
    unfold Browser.getAuth, Browser.clearAuth, Browser.safeRemoveItem, Browser.safeGetItem.
  - cbn [Browser.localStorage Browser.memoryStorage]; rewrite ?probe_working;
      cbn [Browser.localStorage Browser.memoryStorage];
      rewrite ?probe_working; cbn [Browser.localStorage Browser.memoryStorage];
      rewrite ?probe_working; cbn [Browser.localStorage Browser.memoryStorage];
      rewrite ?probe_working; cbn [Browser.isLocalStorageAvailable fst];
      unfold Browser.getItem.
    repeat (rewrite lookup_delete_ne by (unfold Browser.probe; discriminate)).
    rewrite lookup_delete_eq. reflexivity.
  - cbn. unfold Browser.memoryItem.
    repeat (rewrite lookup_delete_ne by discriminate).
    rewrite lookup_delete_eq. reflexivity.
Qed.

(** X17: the stored session.  After [setAuth] of a user [getAuth] gives
    that user, whether [localStorage] works or not; after [clearAuth] it
    gives [null], whatever was stored. *)
Theorem setAuth_getAuth_clearAuth (u : Account) (s : Browser.Storage) :
  fst (Browser.getAuth Account JSON_parse (Browser.setAuth Account JSON_stringify u s)) = Some u /\
  fst (Browser.getAuth Account JSON_parse
         (Browser.clearAuth (Browser.setAuth Account JSON_stringify u s))) = None /\
  fst (Browser.getAuth Account JSON_parse (Browser.clearAuth s)) = None.
Proof.
  split; [|split; apply getAuth_cleared].
  unfold Browser.getAuth, Browser.setAuth.
  pose proof (safeGetItem_currentUser (JSON_stringify u) s (stringify_nonempty u)) as Hget.
  destruct (Browser.safeGetItem "currentUser"
              (Browser.safeSetItem "currentUser" (JSON_stringify u) s)) as [item s'].
  cbn [fst] in *. subst item.
  pose proof (stringify_nonempty u) as Hne. apply String.eqb_neq in Hne.
  rewrite Hne. apply parse_stringify.
Qed.

End SessionFacts.

Lemma setAuth_getAuth_clearAuth_witness :
  let stringify := fun name : string => String "{" name in
  let parse := fun text : string =>
                 match text with String _ rest => Some rest | EmptyString => None end in
  let empty := {| Browser.localStorage := Browser.Blocked; Browser.memoryStorage := ∅ |} in
  fst (Browser.getAuth string parse (Browser.setAuth string stringify "CUST001" empty))
  = Some "CUST001" /\
  fst (Browser.getAuth string parse
         (Browser.clearAuth (Browser.setAuth string stringify "CUST001" empty))) = None.
Proof.
  cbv zeta.
  destruct (setAuth_getAuth_clearAuth string (fun name : string => String "{" name)
              (fun text : string =>
                 match text with String _ rest => Some rest | EmptyString => None end)
              (fun u => eq_refl) ltac:(discriminate) "CUST001"
              {| Browser.localStorage := Browser.Blocked; Browser.memoryStorage := ∅ |})
    as (H1 & H2 & _).
  split; [exact H1|exact H2].
Defined.

(** ** What the writing routes keep *)

Section Kept.

Variable hashPassword : string -> string.
Variable isEmail : string -> bool.

Lemma createCustomer_rest (env : Env) (body : CreateCustomerBody) (st : Store) :
  purchases (snd (createCustomer hashPassword env body st)) = purchases st /\
  coupons (snd (createCustomer hashPassword env body st)) = coupons st /\
  forall id c, customers st !! id = Some c ->
               customers (snd (createCustomer hashPassword env body st)) !! id = Some c.
Proof.
  destruct (createCustomer_outcome hashPassword env body st)
    as [[_ ->]|[(_ & _ & ->)|(He & Hid & Hl)]]; [cbn; auto..|].
  rewrite (createCustomer_created hashPassword env body st He Hid Hl). cbn.
  split; [reflexivity|]. split; [reflexivity|].
  intros id c Hc. rewrite lookup_insert_ne; [exact Hc|]. intros <-. congruence.
Qed.

Lemma createPurchase_coupons (env : Env) (body : CreatePurchaseBody) (st : Store) :
  coupons (snd (createPurchase env body st)) = coupons st.
Proof. unfold createPurchase. repeat case_match; reflexivity. Qed.

Lemma createCoupon_keeps (env : Env) (user : User) (customerId : string) (st : Store)
    (code : string) (c : Coupon) :
  coupons st !! code = Some c ->
  coupons (snd (createCoupon env user customerId st)) !! code = Some c.
Proof.
  intros Hc. unfold createCoupon. repeat case_match; try exact Hc.
  cbn. rewrite lookup_insert_ne; [exact Hc|]. intros <-. congruence.
Qed.

Lemma continues_refl (c : Coupon) : continues c c.
Proof. unfold continues. auto. Qed.

Lemma continues_trans (c1 c2 c3 : Coupon) :
  continues c1 c2 -> continues c2 c3 -> continues c1 c3.
Proof.
  unfold continues. intros (A1 & A2 & A3 & A4 & A5) (B1 & B2 & B3 & B4 & B5).
  repeat split; try congruence.
  intros H. specialize (A5 H). subst c2. exact (B5 H).
Qed.

Lemma redeemCoupon_keeps (env : Env) (code' : string) (st : Store)
    (code : string) (c : Coupon) :
  coupons st !! code = Some c ->
  exists c', coupons (snd (redeemCoupon env code' st)) !! code = Some c' /\ continues c c'.
Proof.
  intros Hc. unfold redeemCoupon.
  destruct (coupons st !! code') as [coupon|] eqn:E;
    [|exists c; split; [exact Hc|apply continues_refl]].
  destruct (redeemed coupon) eqn:Er; [exists c; split; [exact Hc|apply continues_refl]|].
  cbn. destruct (decide (code' = code)) as [->|Hne].
  - rewrite lookup_insert_eq. eexists. split; [reflexivity|].
    assert (coupon = c) as -> by congruence.
    unfold continues. cbn. repeat split; try reflexivity. congruence.
  - rewrite lookup_insert_ne by exact Hne. exists c. split; [exact Hc|apply continues_refl].
Qed.

Lemma handle_keeps_coupon (env : Env) (req : Request) (st : Store)
    (code : string) (c : Coupon) :
  ledgerRequest (couponCustomer c) req ->
  coupons st !! code = Some c ->
  exists c', coupons (snd (handle hashPassword isEmail env req st)) !! code = Some c' /\
             continues c c'.
Proof.
  intros Hreq Hc.
  assert (Hsame : forall st', coupons st' = coupons st ->
                              exists c', coupons st' !! code = Some c' /\ continues c c').
  { intros st' E. exists c. rewrite E. split; [exact Hc|apply continues_refl]. }
  destruct req as [user body|user id body|user id|user body|user customerId|user code'];
    cbn [handle].
  - repeat case_match; try (apply Hsame; reflexivity).
    apply Hsame. apply createCustomer_rest.
  - destruct Hreq.
  - cbn [ledgerRequest] in Hreq.
    case_match; [apply Hsame; reflexivity|].
    unfold deleteCustomer. case_match; [|apply Hsame; reflexivity].
    exists c. split; [|apply continues_refl].
    cbn [snd deleteCascade coupons]. apply map_lookup_filter_Some_2; [exact Hc|].
    cbn [snd]. congruence.
  - repeat case_match; try (apply Hsame; reflexivity).
    apply Hsame. apply createPurchase_coupons.
  - exists c. split; [apply createCoupon_keeps, Hc|apply continues_refl].
  - case_match; [apply Hsame; reflexivity|]. apply redeemCoupon_keeps, Hc.
Qed.

(** X18: along every sequence of requests that create customers,
    record purchases, create or redeem coupons, or delete customers
    other than the owner of the coupon, a coupon of the store stays in
    the store with its id, owner, value and creation time, and a
    redeemed coupon stays exactly as it is: it is never made available
    again and its redemption time never moves. *)
Theorem coupons_kept (reqs : list (Env * Request)) (st : Store) (code : string)
    (c : Coupon) :
  Forall (fun er => ledgerRequest (couponCustomer c) (snd er)) reqs ->
  coupons st !! code = Some c ->
  exists c',
    coupons (run hashPassword isEmail reqs st) !! code = Some c' /\
    couponId c' = couponId c /\ couponCustomer c' = couponCustomer c /\
    value c' = value c /\ couponCreatedAt c' = couponCreatedAt c /\
    (redeemed c = true -> c' = c).
Proof.
  intros Hreqs Hc.
  enough (H : exists c', coupons (run hashPassword isEmail reqs st) !! code = Some c' /\
                         continues c c') by exact H.
  remember (couponCustomer c) as owner eqn:Howner.
  revert st c Howner Hc.
  induction Hreqs as [|[env req] reqs Hreq _ IH]; intros st c Howner Hc.
  - exists c. split; [exact Hc|apply continues_refl].
  - cbn [run]. cbn [snd] in Hreq. rewrite Howner in Hreq.
    destruct (handle_keeps_coupon env req st code c Hreq Hc) as (c1 & H1 & K1).
    assert (Howner1 : owner = couponCustomer c1).
    { destruct K1 as (_ & E & _). congruence. }
    destruct (IH _ c1 Howner1 H1) as (c2 & H2 & K2).
    exists c2. split; [exact H2|]. exact (continues_trans c c1 c2 K1 K2).
Qed.

Lemma map_to_list_filter {A} (P : string * A -> Prop) `{!forall x, Decision (P x)}
    (m : gmap string A) :
  map_to_list (filter P m) ≡ₚ filter P (map_to_list m).
Proof.
  induction m as [|k x m Hk _ IH] using map_first_key_ind.
  - rewrite map_filter_empty, map_to_list_empty. reflexivity.
  - rewrite (map_to_list_insert m k x Hk), filter_cons, map_filter_insert.
    destruct (decide (P (k, x))).
    + rewrite map_to_list_insert by (rewrite map_lookup_filter_None; auto).
      rewrite IH. reflexivity.
    + rewrite delete_id by exact Hk. exact IH.
Qed.

Lemma earned_deleteCascade (st : Store) (key id : string) :
  key <> id -> earned (deleteCascade key st) id = earned st id.
Proof.
  intros Hne. unfold earned. cbn [deleteCascade purchases].
  rewrite list_filter_filter_l; [reflexivity|]. cbn. congruence.
Qed.

Lemma couponsOf_deleteCascade (st : Store) (key id : string) :
  key <> id -> couponsOf (deleteCascade key st) id = couponsOf st id.
Proof.
  intros Hne. unfold couponsOf. cbn [deleteCascade coupons].
  rewrite map_to_list_filter.
  rewrite list_filter_filter_l; [reflexivity|]. cbn. congruence.
Qed.

Lemma couponsOf_coupons (st st' : Store) (id : string) :
  coupons st' = coupons st -> couponsOf st' id = couponsOf st id.
Proof. intros E. unfold couponsOf. rewrite E. reflexivity. Qed.

Lemma earned_purchases (st st' : Store) (id : string) :
  purchases st' = purchases st -> earned st' id = earned st id.
Proof. intros E. unfold earned. rewrite E. reflexivity. Qed.

Lemma earned_cons (p : Purchase) (ps : list Purchase) (cs : gmap string Customer)
    (ks : gmap string Coupon) (id : string) :
  earned {| customers := cs; purchases := p :: ps; coupons := ks |} id =
  (if decide (purchaseCustomer p = id) then pointsEarned p else 0) +
  earned {| customers := cs; purchases := ps; coupons := ks |} id.
Proof.
  unfold earned. cbn [purchases]. rewrite filter_cons.
  destruct (decide (purchaseCustomer p = id)); cbn [foldr]; lia.
Qed.

Lemma couponsOf_insert_fresh (st : Store) (cs : gmap string Customer) (code : string)
    (c : Coupon) (id : string) :
  coupons st !! code = None ->
  couponsOf {| customers := cs; purchases := purchases st;
               coupons := <[code := c]> (coupons st) |} id =
  (if decide (couponCustomer c = id) then 1 else 0) + couponsOf st id.
Proof.
  intros Hfree. unfold couponsOf. cbn [coupons].
  rewrite (map_to_list_insert _ _ _ Hfree), filter_cons.
  destruct (decide (couponCustomer (snd (code, c)) = id)) as [E|E]; cbn [snd] in E;
    destruct (decide (couponCustomer c = id)); try contradiction; cbn [length]; lia.
Qed.

Lemma couponsOf_update (st : Store) (code : string) (c c' : Coupon) (id : string) :
  coupons st !! code = Some c -> couponCustomer c' = couponCustomer c ->
  couponsOf {| customers := customers st; purchases := purchases st;
               coupons := <[code := c']> (coupons st) |} id = couponsOf st id.
Proof.
  intros Hc Hsame. unfold couponsOf. cbn [coupons].
  rewrite <- (insert_delete_eq (coupons st) code c') by exact Hc.
  rewrite <- (insert_delete_id (coupons st) code c Hc) at 2.
  rewrite !map_to_list_insert by apply lookup_delete_eq.
  rewrite !filter_cons. cbn [snd]. rewrite Hsame.
  destruct (decide (couponCustomer c = id)); reflexivity.
Qed.

Lemma handle_balance (env : Env) (req : Request) (st : Store) (id : string)
    (c : Customer) :
  ledgerRequest id req ->
  customers st !! id = Some c ->
  let after := snd (handle hashPassword isEmail env req st) in
  exists c',
    customers after !! id = Some c' /\
    points c' - earned after id + 100 * couponsOf after id
    = points c - earned st id + 100 * couponsOf st id.
Proof.
  intros Hreq Hc. cbv zeta.
  assert (Hsame : exists c', customers st !! id = Some c' /\
                             points c' - earned st id + 100 * couponsOf st id
                             = points c - earned st id + 100 * couponsOf st id).
  { exists c. split; [exact Hc|reflexivity]. }
  destruct req as [user body|user key body|user key|user body|user customerId|user code];
    cbn [handle].
  - repeat case_match; try exact Hsame.
    destruct (createCustomer_rest env body st) as (Hp & Hk & Hcs).
    exists c. split; [apply Hcs, Hc|].
    unfold earned, couponsOf. rewrite Hp, Hk. reflexivity.
  - destruct Hreq.
  - cbn [ledgerRequest] in Hreq.
    case_match; [exact Hsame|].
    unfold deleteCustomer. case_match; [|exact Hsame]. cbn [snd].
    rewrite (earned_deleteCascade st key id Hreq), (couponsOf_deleteCascade st key id Hreq).
    exists c. split; [|reflexivity].
    cbn [deleteCascade customers]. rewrite lookup_delete_ne by exact Hreq. exact Hc.
  - repeat case_match; try exact Hsame.
    unfold createPurchase.
    destruct (customers st !! forCustomer body) as [customer|] eqn:Ef; [|exact Hsame].
    destruct (Js.to_Z _) as [pts|]; [|exact Hsame].
    cbn [snd]. rewrite earned_cons. cbn [customers purchaseCustomer pointsEarned].
    rewrite (couponsOf_coupons st) by reflexivity.
    rewrite (earned_purchases st) by reflexivity.
    destruct (decide (forCustomer body = id)) as [<-|Hne].
    + rewrite lookup_insert_eq. eexists. split; [reflexivity|].
      assert (customer = c) as -> by congruence. cbn [points]. lia.
    + rewrite lookup_insert_ne by exact Hne. exists c. split; [exact Hc|lia].
  - unfold createCoupon.
    destruct (negb _ && negb _); [exact Hsame|].
    destruct (customers st !! customerId) as [customer|] eqn:Ef; [|exact Hsame].
    destruct (points customer <? 100); [exact Hsame|].
    destruct (coupons st !! generateCouponCode env (lastCouponNumber st)) eqn:Efree;
      [exact Hsame|].
    cbn [snd]. rewrite (couponsOf_insert_fresh st _ _ _ id Efree). cbn [couponCustomer customers].
    rewrite (earned_purchases st) by reflexivity.
    destruct (decide (customerId = id)) as [<-|Hne].
    + rewrite lookup_insert_eq. eexists. split; [reflexivity|].
      assert (customer = c) as -> by congruence. cbn [points withPoints]. lia.
    + rewrite lookup_insert_ne by exact Hne. exists c. split; [exact Hc|lia].
  - case_match; [exact Hsame|]. unfold redeemCoupon.
    destruct (coupons st !! code) as [coupon|] eqn:Ek; [|exact Hsame].
    destruct (redeemed coupon); [exact Hsame|].
    cbn [snd]. exists c. cbn [customers]. split; [exact Hc|].
    erewrite couponsOf_update; [|exact Ek|reflexivity].
    rewrite (earned_purchases st) by reflexivity. reflexivity.
Qed.

(** X19: purchases and coupons account for every change of a balance
    they cause.  Along every sequence of requests that create
    customers, record purchases, create or redeem coupons, or delete
    other customers, a customer of the store stays in the store, and
    the balance less the points of the purchases on record plus 100
    per coupon on record stays what it was: a recorded purchase adds
    exactly its [pointsEarned], a created coupon takes exactly 100, and
    nothing else moves points.  Started from balances that are not
    negative, the coupons created for a customer therefore never cost
    more than the starting balance and the points earned meanwhile. *)
Theorem balance_accounted (reqs : list (Env * Request)) (st : Store) (id : string)
    (c : Customer) :
  Forall (fun er => ledgerRequest id (snd er)) reqs ->
  pointsNonneg st ->
  customers st !! id = Some c ->
  let after := run hashPassword isEmail reqs st in
  exists c',
    customers after !! id = Some c' /\
    points c' - earned after id + 100 * couponsOf after id
    = points c - earned st id + 100 * couponsOf st id /\
    0 <= points c' /\
    100 * (couponsOf after id - couponsOf st id)
    <= points c + (earned after id - earned st id).
Proof.
  intros Hreqs Hnonneg Hc. cbv zeta.
  enough (H : exists c',
             customers (run hashPassword isEmail reqs st) !! id = Some c' /\
             points c' - earned (run hashPassword isEmail reqs st) id
             + 100 * couponsOf (run hashPassword isEmail reqs st) id
             = points c - earned st id + 100 * couponsOf st id /\
             0 <= points c').
  { destruct H as (c' & H1 & H2 & H3). exists c'. repeat split; try assumption. lia. }
  revert st c Hnonneg Hc. induction Hreqs as [|[env req] reqs Hreq Hreqs IH]; intros st c Hnonneg Hc.
  - exists c. split; [exact Hc|]. split; [reflexivity|]. exact (Hnonneg id c Hc).
  - cbn [run]. cbn [snd] in Hreq.
    destruct (handle_balance env req st id c Hreq Hc) as (c1 & Hc1 & Hb1).
    pose proof (handle_pointsNonneg hashPassword isEmail env req st Hnonneg) as Hnonneg1.
    destruct (IH _ c1 Hnonneg1 Hc1) as (c2 & Hc2 & Hb2 & Hp2).
    exists c2. split; [exact Hc2|]. split; [lia|exact Hp2].
Qed.

End Kept.

(** ** What a caller may read *)

(** X20: a caller who is not an administrator is only ever sent their
    own data: every purchase and every coupon in a reply to them is
    recorded for their own id, and a customer row sent to them is their
    own. *)
Theorem reads_confined (user : User) (id : string) (st : Store) :
  userRole user <> "ADMIN" ->
  (forall code l, getPurchasesByCustomer user id st = Replied code l ->
                  forall p, p ∈ l -> purchaseCustomer p = userId user) /\
  (forall code l, getCouponsByCustomer user id st = Replied code l ->
                  forall kc, kc ∈ l -> couponCustomer (snd kc) = userId user) /\
  (forall code v, getCustomerById user id st = Replied code v -> viewId v = userId user).
Proof.
  intros Hrole.
  unfold getPurchasesByCustomer, getCouponsByCustomer, getCustomerById.
  apply String.eqb_neq in Hrole. rewrite Hrole. cbn [negb andb].
  destruct (String.eqb_spec (userId user) id) as [<-|Hne]; cbn [negb];
    [|repeat split; intros; discriminate].
  split; [|split].
  - intros code l H p Hp. injection H as _ <-.
    rewrite orderByDesc_perm, list_elem_of_filter in Hp. tauto.
  - intros code l H kc Hkc. injection H as _ <-.
    rewrite orderByDesc_perm, list_elem_of_filter in Hkc. tauto.
  - intros code v H. destruct (customers st !! userId user); [|discriminate].
    injection H as _ <-. reflexivity.
Qed.

Lemma reads_confined_witness :
  getPurchasesByCustomer peter "id-2" (seed plain) = Refused AccessDenied /\
  forall code l, getPurchasesByCustomer peter "id-1" (seed plain) = Replied code l ->
                 forall p, p ∈ l -> purchaseCustomer p = "id-1".
Proof.
  split; [reflexivity|].
  destruct (reads_confined peter "id-1" (seed plain) ltac:(discriminate)) as (H & _).
  exact H.
Defined.

(** ** The PIN of a new customer *)

(** X21: the PIN of a new customer always passes the PIN rule of
    [loginSchema]: when the random draw of [generatePinCode] is in its
    range 10000000 .. 99999999, the PIN [createCustomer] hashes and
    returns, the one sent if it passed the rule of
    [createCustomerSchema] and the generated one otherwise, consists of
    exactly 8 digits. *)
Theorem pinOrGenerated_isPin (env : Env) (sent : option string) :
  10000000 <= randPin env <= 99999999 ->
  optional isPin sent = true ->
  isPin (pinOrGenerated env sent) = true /\
  isPin (generatePinCode env) = true /\
  (forall id, id <> "" -> loginSchema id (pinOrGenerated env sent) = true) /\
  (sent = None -> pinOrGenerated env sent = Js.String_of_Z (randPin env)).
Proof.
  intros Hr Hsent.
  assert (Hgen : isPin (generatePinCode env) = true).
  { unfold isPin, generatePinCode.
    rewrite allDigits_String_of_Z by lia.
    rewrite (length_String_of_Z (randPin env) 8) by (cbn; lia). reflexivity. }
  assert (Hpin : isPin (pinOrGenerated env sent) = true).
  { destruct sent as [s|]; [|exact Hgen]. cbn in Hsent. unfold pinOrGenerated.
    destruct (String.eqb_spec s ""); [exact Hgen|exact Hsent]. }
  split; [exact Hpin|]. split; [exact Hgen|]. split.
  - intros id Hid. unfold loginSchema. rewrite Hpin.
    destruct id; [contradiction|reflexivity].
  - intros ->. reflexivity.
Qed.

Lemma pinOrGenerated_isPin_witness :
  pinOrGenerated env2026 None = "12345678" /\ isPin (pinOrGenerated env2026 None) = true.
Proof.
  split; [reflexivity|].
  apply (pinOrGenerated_isPin env2026 None); [cbn; lia|reflexivity].
Defined.

(** ** An administrator updates a customer *)

Section AdminUpdate.

Variable hashPassword : string -> string.
Variable isEmail : string -> bool.

(** X22: for an administrator [PUT /customers/:id] with a body that
    has no other keys than name, email, phone, points and role and
    passes [updateCustomerSchema] never answers 403 or 404: an id that
    is not in the store, or an email another customer has, ends with
    500 and nothing written; otherwise the answer is 200 and the row
    takes the fields sent, the role included, whatever it was, while
    [loyaltyId], the PIN hash, [totalSpent], [visitCount] and
    [createdAt] stay. *)
Theorem updateCustomer_admin (env : Env) (admin : User) (id : string)
    (body : UpdateCustomerBody) (st : Store) :
  userRole admin = "ADMIN" ->
  updateCustomerSchema isEmail body = true ->
  let result := handle hashPassword isEmail env (PutCustomer admin id body) st in
  (customers st !! id = None -> result = (InternalServerError, st)) /\
  (forall e, setEmail body = Some e -> emailTakenByOther st id e = true ->
             result = (InternalServerError, st)) /\
  (forall c,
     customers st !! id = Some c ->
     (forall e, setEmail body = Some e -> emailTakenByOther st id e = false) ->
     exists c',
       result = (respond 200 (CustomerJson id c' None),
                 {| customers := <[id := c']> (customers st);
                    purchases := purchases st; coupons := coupons st |}) /\
       name c' = default (name c) (setName body) /\
       email c' = default (email c) (setEmail body) /\
       phone c' = default (phone c) (setPhone body) /\
       points c' = default (points c) (setPoints body) /\
       (forall r, setRole body = Some r -> Role_name (role c') = r) /\
       (setRole body = None -> role c' = role c) /\
       loyaltyId c' = loyaltyId c /\ pinCode c' = pinCode c /\
       totalSpent c' = totalSpent c /\ visitCount c' = visitCount c /\
       createdAt c' = createdAt c).
Proof.
  intros Hadmin Hschema. cbv zeta. cbn [handle]. rewrite Hschema. cbn [negb].
  unfold updateCustomer. rewrite Hadmin. cbn [String.eqb negb andb].
  change (String.eqb "ADMIN" "ADMIN") with true. cbn [negb andb].
  rewrite andb_false_r.
  assert (Hrole : match setRole body with
                  | Some r => exists r', Role_of_name r = Some r' /\ Role_name r' = r
                  | None => True
                  end).
  { unfold updateCustomerSchema in Hschema. apply andb_prop in Hschema as [_ Hr].
    destruct (setRole body) as [r|]; [|exact I]. cbn in Hr.
    apply bool_decide_eq_true in Hr as [r' Hr']. exists r'. split; [exact Hr'|].
    unfold Role_of_name in Hr'.
    destruct (String.eqb_spec r "NORMAL") as [->|_]; [injection Hr' as <-; reflexivity|].
    destruct (String.eqb_spec r "LOYAL") as [->|_]; [injection Hr' as <-; reflexivity|].
    destruct (String.eqb_spec r "OWNER") as [->|_]; [injection Hr' as <-; reflexivity|].
    destruct (String.eqb_spec r "ADMIN") as [->|_]; [injection Hr' as <-; reflexivity|].
    discriminate Hr'. }
  split; [|split].
  - intros ->. reflexivity.
  - intros e He Htaken. destruct (customers st !! id) as [c|]; [|reflexivity].
    destruct (applyUpdates body c); [|reflexivity]. rewrite He, Htaken. reflexivity.
  - intros c -> Hfree. unfold applyUpdates.
    destruct (setRole body) as [r|] eqn:Er.
    + destruct Hrole as (r' & -> & Hname).
      assert (Hno : match setEmail body with
                    | Some e => emailTakenByOther st id e
                    | None => false
                    end = false).
      { destruct (setEmail body) as [e|]; [apply Hfree; reflexivity|reflexivity]. }
      rewrite Hno. eexists. split; [reflexivity|]. cbn.
      repeat split; try reflexivity; [|discriminate].
      intros r0 E. injection E as <-. exact Hname.
    + assert (Hno : match setEmail body with
                    | Some e => emailTakenByOther st id e
                    | None => false
                    end = false).
      { destruct (setEmail body) as [e|]; [apply Hfree; reflexivity|reflexivity]. }
      rewrite Hno. eexists. split; [reflexivity|]. cbn.
      repeat split; try reflexivity. discriminate.
Qed.

End AdminUpdate.

Lemma updateCustomer_admin_witness :
  let body := {| setName := None; setEmail := None; setPhone := None;
                 setPoints := None; setRole := Some "OWNER" |} in
  status (fst (handle plain anyEmail env2026 (PutCustomer adminUser "id-1" body) (seed plain)))
  = 200 /\
  handle plain anyEmail env2026 (PutCustomer adminUser "id-404" body) (seed plain)
  = (InternalServerError, seed plain).
Proof.
  cbv zeta.
  destruct (updateCustomer_admin plain anyEmail env2026 adminUser "id-404"
              {| setName := None; setEmail := None; setPhone := None;
                 setPoints := None; setRole := Some "OWNER" |} (seed plain)
              eq_refl eq_refl) as (Hmissing & _).
  split; [reflexivity|]. apply Hmissing. reflexivity.
Defined.

(** ** Witnesses for what the writing routes keep *)

Lemma coupons_kept_witness :
  coupons
    (run plain anyEmail
       [ (env2026, PutCouponRedeem adminUser "COUP-2024-002");
         (env2026, PostCoupons anna "id-2");
         (env2026, DeleteCustomer adminUser "id-2");
         (env2026, PutCouponRedeem adminUser "COUP-2024-001") ]
       (seed plain)) !! "COUP-2024-002"
  = Some {| couponId := "id-c2"; couponCustomer := "id-3"; value := 1000;
            couponCreatedAt := seedTime - days 20; redeemed := true;
            redeemedAt := Some (seedTime - days 15) |}.
Proof.
  destruct (coupons_kept plain anyEmail
              [ (env2026, PutCouponRedeem adminUser "COUP-2024-002");
                (env2026, PostCoupons anna "id-2");
                (env2026, DeleteCustomer adminUser "id-2");
                (env2026, PutCouponRedeem adminUser "COUP-2024-001") ]
              (seed plain) "COUP-2024-002"
              {| couponId := "id-c2"; couponCustomer := "id-3"; value := 1000;
                 couponCreatedAt := seedTime - days 20; redeemed := true;
                 redeemedAt := Some (seedTime - days 15) |})
    as (c' & Hc' & _ & _ & _ & _ & Hsame).
  - repeat constructor; cbn; discriminate.
  - reflexivity.
  - rewrite Hc'. f_equal. apply Hsame. reflexivity.
Defined.

Lemma balance_accounted_witness :
  let reqs :=
    [ (env2026, PostPurchases adminUser
                  {| forCustomer := "id-2"; paid := 2500; receipt := None |});
      (env2026, DeleteCustomer adminUser "id-3");
      (env2026, PostCoupons anna "id-2") ] in
  let after := run plain anyEmail reqs (seed plain) in
  exists c',
    customers after !! "id-2" = Some c' /\
    points c' - earned after "id-2" + 100 * couponsOf after "id-2" = 140 - 44 + 100 * 1 /\
    0 <= points c'.
Proof.
  cbv zeta.
  destruct (balance_accounted plain anyEmail
              [ (env2026, PostPurchases adminUser
                            {| forCustomer := "id-2"; paid := 2500; receipt := None |});
                (env2026, DeleteCustomer adminUser "id-3");
                (env2026, PostCoupons anna "id-2") ]
              (seed plain) "id-2"
              {| loyaltyId := "CUST002"; name := "Kovacs Anna"; email := "anna.kovacs@email.hu";
                 phone := "+36302222222"; pinCode := "22222222";
                 points := 140; totalSpent := 32000; visitCount := 25; role := LOYAL;
                 createdAt := seedTime |})
    as (c' & Hc' & Hb & Hp & _).
  - repeat constructor; cbn; discriminate.
  - exact seed_pointsNonneg.
  - reflexivity.
  - exists c'. split; [exact Hc'|]. split; [rewrite Hb; reflexivity|exact Hp].
Defined.

(** The preview for a customer the page lists. *)
Lemma calculatePointsPreview_listed (st : Store) (id : string) (c : Customer)
    (amount : Js.number) :
  customers st !! id = Some c -> role c <> ADMIN ->
  calculatePointsPreview (loadData st) amount id
  = Js.Math_floor (Js.times (Js.div amount lit_100)
                     (Js.get multipliers (Role_name (role c)))).
Proof.
  intros Hc Hrole. unfold calculatePointsPreview.
  destruct (List.find (fun v => String.eqb (viewId v) id) (loadData st)) as [v|] eqn:E.
  - apply find_some in E as [Hin Hid]. apply loadData_In in Hin as (k & c' & Hk & _ & ->).
    cbn in Hid. apply String.eqb_eq in Hid. subst k.
    assert (c' = c) as -> by congruence. reflexivity.
  - exfalso. pose proof (find_none _ _ E (selectCustomer (id, c))) as Hn.
    cbn in Hn. rewrite String.eqb_refl in Hn.
    assert (true = false); [|discriminate]. apply Hn.
    apply loadData_In. exists id, c. auto.
Qed.

(** Below 100 the preview is 0 or 1. *)
Lemma preview_below_100 (a : Z) (m : Js.number) :
  0 < a < 100 -> In m [lit_1_1; lit_1_4; lit_1_7; lit_1_0] ->
  let x := Js.Math_floor (Js.mul (Js.div (Js.of_Z a) lit_100) m) in
  x = Js.of_Z 0 \/ x = Js.of_Z 1.
Proof.
  intros Ha Hm.
  assert (Hin : In a (seqZ 1 99)) by (apply list_elem_of_In, elem_of_seqZ; lia).
  destruct Hm as [<-|[<-|[<-|[<-|[]]]]];
    vm_compute in Hin;
    repeat (destruct Hin as [<-|Hin]; [vm_compute; auto|]); destruct Hin.
Qed.

(** X23: for a customer the admin page lists and a whole amount, the
    points the page previews are never fewer than the points
    [calculatePoints] grants for that amount, and never more than
    those it grants for the amount plus 100. *)
Theorem calculatePointsPreview_between (st : Store) (id : string) (c : Customer) (a : Z) :
  customers st !! id = Some c -> role c <> ADMIN ->
  0 < a -> a + 100 < 2 ^ 53 ->
  exists granted shown next : Z,
    calculatePoints (Js.of_Z a) (Role_name (role c)) = Js.of_Z granted /\
    calculatePointsPreview (loadData st) (Js.of_Z a) id = Js.of_Z shown /\
    calculatePoints (Js.of_Z (a + 100)) (Role_name (role c)) = Js.of_Z next /\
    granted <= shown /\ shown <= next.
Proof.
  intros Hc Hrole Ha Ha'.
  rewrite (calculatePointsPreview_listed st id c _ Hc Hrole).
  rewrite !calculatePoints_base, multipliers_Role by lia.
  replace ((a + 100) / 100) with (a / 100 + 1)
    by (replace (a + 100) with (a + 1 * 100) by lia; rewrite Z.div_add by lia; reflexivity).
  assert (Hmul : exists M : positive,
             Js.get multipliers (Role_name (role c)) = Js.Number (S754_finite false M (-52)) /\
             2 ^ 52 <= Zpos M < 2 ^ 53 /\
             In (S754_finite false M (-52)) [lit_1_1; lit_1_4; lit_1_7; lit_1_0]).
  { destruct (role c); try contradiction; eexists; (split; [reflexivity|]);
      (split; [lia|]); cbn; auto. }
  destruct Hmul as (M & -> & HM & Hin). cbn [Js.times].
  destruct (Z_lt_ge_dec a 100) as [Hsmall|Hbig].
  - rewrite (Z.div_small a 100) by lia. change (0 + 1) with 1.
    assert (E0 : Js.Math_floor (Js.mul (Js.of_Z 0) (S754_finite false M (-52))) = Js.of_Z 0)
      by reflexivity.
    assert (E1 : Js.Math_floor (Js.mul (Js.of_Z 1) (S754_finite false M (-52))) = Js.of_Z 1).
    { destruct Hin as [<-|[<-|[<-|[<-|[]]]]]; vm_compute; reflexivity. }
    rewrite E0, E1.
    destruct (preview_below_100 a _ ltac:(lia) Hin) as [-> | ->].
    + exists 0, 0, 1. repeat split; lia.
    + exists 0, 1, 1. repeat split; lia.
  - destruct (floor_mul_between a M ltac:(lia) Ha' HM) as (g & s & g' & -> & -> & -> & Hgs).
    exists g, s, g'. repeat split; lia.
Qed.

Lemma calculatePointsPreview_between_witness :
  exists granted shown next : Z,
    calculatePoints (Js.of_Z 190) "NORMAL" = Js.of_Z granted /\
    calculatePointsPreview (loadData (seed plain)) (Js.of_Z 190) "id-1" = Js.of_Z shown /\
    calculatePoints (Js.of_Z 290) "NORMAL" = Js.of_Z next /\
    granted <= shown /\ shown <= next.
Proof.
  apply (calculatePointsPreview_between (seed plain) "id-1" _ 190 eq_refl);
    [discriminate|lia|lia].
Defined.

(** ** Deleting a customer *)

Lemma filter_none {A} (P : A -> Prop) `{!forall x, Decision (P x)} (l : list A) :
  (forall x, x ∈ l -> ~ P x) -> filter P l = [].
Proof.
  induction l as [|x l IH]; intros Hl; [reflexivity|].
  rewrite filter_cons_False by (apply Hl; left).
  apply IH. intros y Hy. apply Hl. right. exact Hy.
Qed.

Section Deletion.

Variable hashPassword : string -> string.
Variable isEmail : string -> bool.

(** X24: [DELETE /customers/:id] is refused with 403 for a caller who
    is not an administrator and ends with 500 for an id that is not in
    the store, in both cases with nothing deleted.  For an
    administrator and an existing id it answers 200; afterwards the
    customer is not found, the purchases and coupons read for the id
    are empty lists and none of the customer's coupon codes is found,
    while every other customer, and the purchases and coupons of every
    other customer, are as before; a second deletion of the id ends
    with 500. *)
Theorem deleteCustomer_then_read (env : Env) (user : User) (id : string) (st : Store) :
  let result := handle hashPassword isEmail env (DeleteCustomer user id) st in
  let after := snd result in
  (userRole user <> "ADMIN" -> result = (AdminRequired, st)) /\
  (userRole user = "ADMIN" -> customers st !! id = None ->
   result = (InternalServerError, st)) /\
  (userRole user = "ADMIN" -> is_Some (customers st !! id) ->
   fst result = CustomerDeleted /\
   getCustomerById user id after = Refused CustomerNotFound /\
   getPurchasesByCustomer user id after = Replied 200 [] /\
   getCouponsByCustomer user id after = Replied 200 [] /\
   (forall code k, coupons st !! code = Some k -> couponCustomer k = id ->
                   lookupCoupon code after = Refused CouponNotFound) /\
   (forall other, other <> id ->
      customers after !! other = customers st !! other /\
      getPurchasesByCustomer user other after = getPurchasesByCustomer user other st /\
      (forall code k, coupons st !! code = Some k -> couponCustomer k = other ->
                      coupons after !! code = Some k)) /\
   handle hashPassword isEmail env (DeleteCustomer user id) after
   = (InternalServerError, after)).
Proof.
  cbv zeta. cbn [handle]. unfold requireAdmin. split; [|split].
  - intros Hrole. apply String.eqb_neq in Hrole. rewrite Hrole. reflexivity.
  - intros -> Hnone. cbn [String.eqb negb]. change (String.eqb "ADMIN" "ADMIN") with true.
    cbn [negb]. unfold deleteCustomer. rewrite Hnone. reflexivity.
  - intros Hrole [c Hc].
    assert (Hgate : forall key,
               negb (String.eqb (userRole user) "ADMIN") && negb (String.eqb (userId user) key)
               = false).
    { intros key. rewrite Hrole. reflexivity. }
    rewrite Hrole. change (negb (String.eqb "ADMIN" "ADMIN")) with false. cbv iota.
    unfold deleteCustomer. rewrite Hc. cbn [fst snd].
    split; [reflexivity|].
    split.
    { unfold getCustomerById. rewrite Hgate. cbn [deleteCascade customers].
      rewrite lookup_delete_eq. reflexivity. }
    split.
    { unfold getPurchasesByCustomer. rewrite Hgate. cbn [deleteCascade purchases].
      rewrite filter_none; [reflexivity|].
      intros p Hp. apply list_elem_of_filter in Hp as [Hp _]. exact Hp. }
    split.
    { unfold getCouponsByCustomer. rewrite Hgate. cbn [deleteCascade coupons].
      rewrite filter_none; [reflexivity|].
      intros [code k] Hk. apply elem_of_map_to_list, map_lookup_filter_Some in Hk as [_ Hk].
      exact Hk. }
    split.
    { intros code k Hk Howner. unfold lookupCoupon. cbn [deleteCascade coupons].
      rewrite (proj2 (map_lookup_filter_None _ _ _)); [reflexivity|].
      right. intros k' Hk'. cbn [snd]. assert (k' = k) as -> by congruence. auto. }
    split.
    { intros other Hother. cbn [deleteCascade customers]. split; [|split].
      - apply lookup_delete_ne. congruence.
      - unfold getPurchasesByCustomer. rewrite Hgate. cbn [deleteCascade purchases].
        rewrite list_filter_filter_l; [reflexivity|]. cbn. congruence.
      - intros code k Hk Howner. cbn [coupons].
        apply map_lookup_filter_Some_2; [exact Hk|]. cbn [snd]. congruence. }
    cbn [deleteCascade customers]. rewrite lookup_delete_eq. reflexivity.
Qed.

End Deletion.

Lemma deleteCustomer_then_read_witness :
  let after := snd (handle plain anyEmail env2026 (DeleteCustomer adminUser "id-2") (seed plain)) in
  is_Some (customers (seed plain) !! "id-2") /\
  (length <$> [purchases (seed plain); purchases after]) = [3; 2]%nat /\
  getPurchasesByCustomer adminUser "id-2" after = Replied 200 [] /\
  lookupCoupon "COUP-2024-001" after = Refused CouponNotFound /\
  is_Some (coupons after !! "COUP-2024-002").
Proof.
  cbv zeta.
  destruct (deleteCustomer_then_read plain anyEmail env2026 adminUser "id-2" (seed plain))
    as (_ & _ & H).
  destruct (H eq_refl ltac:(eexists; reflexivity)) as (_ & _ & Hp & _ & Hk & Hrest & _).
  split; [eexists; reflexivity|]. split; [vm_compute; reflexivity|].
  split; [exact Hp|]. split.
  - eapply Hk; reflexivity.
  - destruct (Hrest "id-3" ltac:(discriminate)) as (_ & _ & Hkeep).
    eexists. eapply Hkeep; reflexivity.
Defined.

